(** * SPI slave transport engine (esp32-spi-slave)

    A shallow embedding of [Communication::SPISlaveHandler]
    (src/app/lib/Communication/SPISlaveHandler.{h,cpp}) together with the
    properties of its buffer pool, interrupt-driven receive path, staging of
    outbound data, watchdog and recovery, and of the logger it reports to
    (src/app/lib/Utils/Logger.{h,cpp}, module [Utils]).

    Conventions.
    - Fixed-width unsigned integers are [Z] with the wrap-around written out
      ([wrap32], [wrap8]).
    - Raw memory is a store of live allocations: a finite map from the base
      address of a block to its bytes.  A pointer is an optional address,
      [None] being [nullptr].
    - Everything the code obtains from its environment (the clock, the
      allocator, the SPI slave driver, the FreeRTOS semaphore) is an explicit
      argument of the function that asks for it. *)

From Stdlib Require Import ZArith Lia.
From stdpp Require Import base option list gmap.
From stdpp Require Import strings pretty.

Local Open Scope Z_scope.

(** ** Machine integers *)

Definition wrap32 (z : Z) : Z := z mod 2 ^ 32.
Definition wrap8 (z : Z) : Z := z mod 2 ^ 8.

(** ** Memory *)

Abbreviation addr := N (only parsing).
Abbreviation ptr := (option N) (only parsing).
Abbreviation heap := (gmap N (list Z)) (only parsing).

(** What the allocator answers to one request: [None] when it is out of
    memory, otherwise the address it picked and the bytes that happen to lie
    there. *)
Abbreviation alloc_choice := (option (N * list Z)) (only parsing).

(** [heap_caps_malloc(size, caps)].  The block is live afterwards; an
    allocator never hands out an address that is still live, so such an answer
    counts as a failed allocation. *)
Definition heap_caps_malloc (o : alloc_choice) (size : Z) (h : heap)
  : ptr * heap :=
  match o with
  | Some (a, junk) =>
      if decide (h !! a = None)
      then (Some a, <[a := resize (Z.to_nat size) 0 junk]> h)
      else (None, h)
  | None => (None, h)
  end.

(** [heap_caps_free(p)]; freeing [nullptr] does nothing. *)
Definition heap_caps_free (p : ptr) (h : heap) : heap :=
  match p with
  | Some a => delete a h
  | None => h
  end.

(** Writing [src] at the start of a block: bytes that would fall beyond the
    end of the block are dropped (writing them is undefined behaviour in
    C++; the model leaves the rest of memory as it is). *)
Definition store_bytes (src blk : list Z) : list Z :=
  take (length blk) (src ++ drop (length src) blk).

(** [memset(p, c, n)]; a store through a pointer that is not live changes
    nothing. *)
Definition memset (p : ptr) (c : Z) (n : Z) (h : heap) : heap :=
  match p with
  | Some a => alter (store_bytes (replicate (Z.to_nat n) c)) a h
  | None => h
  end.

(** The bytes a pointer refers to (nothing for a dead pointer). *)
Definition load (p : ptr) (h : heap) : list Z :=
  match p with
  | Some a => default [] (h !! a)
  | None => []
  end.

(** [memcpy(dst, src, n)] with the source given by its bytes. *)
Definition memcpy (dst : ptr) (src : list Z) (n : Z) (h : heap) : heap :=
  match dst with
  | Some a => alter (store_bytes (take (Z.to_nat n) src)) a h
  | None => h
  end.

(** ** Data model (SPISlaveHandler.h) *)

Definition SPI_BUFFER_POOL_SIZE : nat := 6.
Definition SPI_BUFFER_SIZE : Z := 8096.
Definition SPI_SCK_PIN : Z := 12.
Definition SPI_MISO_PIN : Z := 13.
Definition SPI_MOSI_PIN : Z := 15.
Definition SPI_ESP32_SS : Z := 14.
Definition SPI_MODE0 : Z := 0.

Module SPICommand.
Definition PING : Z := 0x01.
Definition PONG : Z := 0x02.
Definition CAMERA_DATA_REQUEST : Z := 0x20.
Definition CAMERA_DATA_RESPONSE : Z := 0x21.
Definition CAMERA_DATA_BLOCK_REQUEST : Z := 0x22.
Definition CAMERA_DATA_BLOCK_RESPONSE : Z := 0x23.
Definition BUFFER_STATUS_REQUEST : Z := 0x30.
Definition BUFFER_STATUS_RESPONSE : Z := 0x31.
Definition ACK : Z := 0xAA.
Definition NACK : Z := 0xFF.
End SPICommand.

(** [struct SPIDataPacket]: the packet owns a private copy of the first
    [len] bytes of the source, so it is modelled by value; deleting a packet
    is dropping it. *)
Record SPIDataPacket := mkPacket {
  pkt_data : list Z;
  pkt_length : Z;
  pkt_processed : bool
}.

Definition new_SPIDataPacket (srcData : list Z) (len : Z) : SPIDataPacket :=
  {| pkt_data := take (Z.to_nat len) srcData;
     pkt_length := len;
     pkt_processed := false |}.

(** [struct SPIBuffer] *)
Record SPIBuffer := mkBuffer {
  data : ptr;
  inUse : bool
}.

(** The fields of [spi_slave_transaction_t] the handler touches. *)
Record spi_slave_transaction_t := mkTrans {
  length_bits : Z;
  trans_len : Z;
  tx_buffer : ptr;
  rx_buffer : ptr
}.

Record spi_bus_config_t := mkBusConfig {
  mosi_io_num : Z;
  miso_io_num : Z;
  sclk_io_num : Z;
  quadwp_io_num : Z;
  quadhd_io_num : Z;
  max_transfer_sz : Z;
  bus_flags : Z;
  intr_flags : Z
}.

Record spi_slave_interface_config_t := mkSlaveConfig {
  spics_io_num : Z;
  slave_flags : Z;
  queue_size : Z;
  slave_mode : Z
}.

(** The SPI slave driver of [HSPI_HOST], as far as the handler can tell:
    whether it is installed and how many descriptors it has been handed. *)
Record spi_slave_driver := mkDriver {
  drv_installed : bool;
  drv_queued : nat
}.

Abbreviation esp_err_t := Z (only parsing).
Definition ESP_OK : Z := 0.

(** A registered receive callback is a function pointer; the model names it
    by a number and takes what it does as a parameter (see [Handling]). *)
Abbreviation callback_id := nat (only parsing).

(** [class SPISlaveHandler]: its fields, the memory they point into ([mem])
    and the driver of the SPI host it owns ([driver]). *)
Record SPISlaveHandler := mkHandler {
  mem : gmap N (list Z);
  _txBuffer : ptr;
  _rxBuffer : ptr;
  _bufferSize : Z;
  _txLength : Z;
  _dataReady : bool;
  _needsNewTransaction : bool;
  _lastTransactionTime : Z;
  _transactionTimeout : Z;
  _transactionActive : bool;
  _transactionCount : Z;
  _recoveryAttempts : Z;
  _receiveQueue : list SPIDataPacket;
  _bufferPool : list SPIBuffer;
  _receiveCallback : option callback_id;
  _transaction : option spi_slave_transaction_t;
  _slaveConfig : option spi_slave_interface_config_t;
  _busConfig : option spi_bus_config_t;
  _initialized : bool;
  _sckPin : Z;
  _misoPin : Z;
  _mosiPin : Z;
  _csPin : Z;
  _mode : Z;
  driver : spi_slave_driver
}.

(** Assignment to one field. *)

Definition set_mem (v : gmap N (list Z)) (s : SPISlaveHandler)
  : SPISlaveHandler :=
  mkHandler v (_txBuffer s) (_rxBuffer s) (_bufferSize s) (_txLength s)
    (_dataReady s) (_needsNewTransaction s) (_lastTransactionTime s)
    (_transactionTimeout s) (_transactionActive s) (_transactionCount s)
    (_recoveryAttempts s) (_receiveQueue s) (_bufferPool s)
    (_receiveCallback s) (_transaction s) (_slaveConfig s) (_busConfig s)
    (_initialized s) (_sckPin s) (_misoPin s) (_mosiPin s) (_csPin s)
    (_mode s) (driver s).

Definition set_txLength (v : Z) (s : SPISlaveHandler)
  : SPISlaveHandler :=
  mkHandler (mem s) (_txBuffer s) (_rxBuffer s) (_bufferSize s) v
    (_dataReady s) (_needsNewTransaction s) (_lastTransactionTime s)
    (_transactionTimeout s) (_transactionActive s) (_transactionCount s)
    (_recoveryAttempts s) (_receiveQueue s) (_bufferPool s)
    (_receiveCallback s) (_transaction s) (_slaveConfig s) (_busConfig s)
    (_initialized s) (_sckPin s) (_misoPin s) (_mosiPin s) (_csPin s)
    (_mode s) (driver s).

Definition set_dataReady (v : bool) (s : SPISlaveHandler)
  : SPISlaveHandler :=
  mkHandler (mem s) (_txBuffer s) (_rxBuffer s) (_bufferSize s) (_txLength s)
    v (_needsNewTransaction s) (_lastTransactionTime s)
    (_transactionTimeout s) (_transactionActive s) (_transactionCount s)
    (_recoveryAttempts s) (_receiveQueue s) (_bufferPool s)
    (_receiveCallback s) (_transaction s) (_slaveConfig s) (_busConfig s)
    (_initialized s) (_sckPin s) (_misoPin s) (_mosiPin s) (_csPin s)
    (_mode s) (driver s).

Definition set_needsNewTransaction (v : bool) (s : SPISlaveHandler)
  : SPISlaveHandler :=
  mkHandler (mem s) (_txBuffer s) (_rxBuffer s) (_bufferSize s) (_txLength s)
    (_dataReady s) v (_lastTransactionTime s) (_transactionTimeout s)
    (_transactionActive s) (_transactionCount s) (_recoveryAttempts s)
    (_receiveQueue s) (_bufferPool s) (_receiveCallback s) (_transaction s)
    (_slaveConfig s) (_busConfig s) (_initialized s) (_sckPin s) (_misoPin s)
    (_mosiPin s) (_csPin s) (_mode s) (driver s).

Definition set_lastTransactionTime (v : Z) (s : SPISlaveHandler)
  : SPISlaveHandler :=
  mkHandler (mem s) (_txBuffer s) (_rxBuffer s) (_bufferSize s) (_txLength s)
    (_dataReady s) (_needsNewTransaction s) v (_transactionTimeout s)
    (_transactionActive s) (_transactionCount s) (_recoveryAttempts s)
    (_receiveQueue s) (_bufferPool s) (_receiveCallback s) (_transaction s)
    (_slaveConfig s) (_busConfig s) (_initialized s) (_sckPin s) (_misoPin s)
    (_mosiPin s) (_csPin s) (_mode s) (driver s).

Definition set_transactionActive (v : bool) (s : SPISlaveHandler)
  : SPISlaveHandler :=
  mkHandler (mem s) (_txBuffer s) (_rxBuffer s) (_bufferSize s) (_txLength s)
    (_dataReady s) (_needsNewTransaction s) (_lastTransactionTime s)
    (_transactionTimeout s) v (_transactionCount s) (_recoveryAttempts s)
    (_receiveQueue s) (_bufferPool s) (_receiveCallback s) (_transaction s)
    (_slaveConfig s) (_busConfig s) (_initialized s) (_sckPin s) (_misoPin s)
    (_mosiPin s) (_csPin s) (_mode s) (driver s).

Definition set_transactionCount (v : Z) (s : SPISlaveHandler)
  : SPISlaveHandler :=
  mkHandler (mem s) (_txBuffer s) (_rxBuffer s) (_bufferSize s) (_txLength s)
    (_dataReady s) (_needsNewTransaction s) (_lastTransactionTime s)
    (_transactionTimeout s) (_transactionActive s) v (_recoveryAttempts s)
    (_receiveQueue s) (_bufferPool s) (_receiveCallback s) (_transaction s)
    (_slaveConfig s) (_busConfig s) (_initialized s) (_sckPin s) (_misoPin s)
    (_mosiPin s) (_csPin s) (_mode s) (driver s).

Definition set_recoveryAttempts (v : Z) (s : SPISlaveHandler)
  : SPISlaveHandler :=
  mkHandler (mem s) (_txBuffer s) (_rxBuffer s) (_bufferSize s) (_txLength s)
    (_dataReady s) (_needsNewTransaction s) (_lastTransactionTime s)
    (_transactionTimeout s) (_transactionActive s) (_transactionCount s) v
    (_receiveQueue s) (_bufferPool s) (_receiveCallback s) (_transaction s)
    (_slaveConfig s) (_busConfig s) (_initialized s) (_sckPin s) (_misoPin s)
    (_mosiPin s) (_csPin s) (_mode s) (driver s).

Definition set_receiveQueue (v : list SPIDataPacket) (s : SPISlaveHandler)
  : SPISlaveHandler :=
  mkHandler (mem s) (_txBuffer s) (_rxBuffer s) (_bufferSize s) (_txLength s)
    (_dataReady s) (_needsNewTransaction s) (_lastTransactionTime s)
    (_transactionTimeout s) (_transactionActive s) (_transactionCount s)
    (_recoveryAttempts s) v (_bufferPool s) (_receiveCallback s)
    (_transaction s) (_slaveConfig s) (_busConfig s) (_initialized s)
    (_sckPin s) (_misoPin s) (_mosiPin s) (_csPin s) (_mode s) (driver s).

Definition set_bufferPool (v : list SPIBuffer) (s : SPISlaveHandler)
  : SPISlaveHandler :=
  mkHandler (mem s) (_txBuffer s) (_rxBuffer s) (_bufferSize s) (_txLength s)
    (_dataReady s) (_needsNewTransaction s) (_lastTransactionTime s)
    (_transactionTimeout s) (_transactionActive s) (_transactionCount s)
    (_recoveryAttempts s) (_receiveQueue s) v (_receiveCallback s)
    (_transaction s) (_slaveConfig s) (_busConfig s) (_initialized s)
    (_sckPin s) (_misoPin s) (_mosiPin s) (_csPin s) (_mode s) (driver s).

Definition set_receiveCallback (v : option callback_id) (s : SPISlaveHandler)
  : SPISlaveHandler :=
  mkHandler (mem s) (_txBuffer s) (_rxBuffer s) (_bufferSize s) (_txLength s)
    (_dataReady s) (_needsNewTransaction s) (_lastTransactionTime s)
    (_transactionTimeout s) (_transactionActive s) (_transactionCount s)
    (_recoveryAttempts s) (_receiveQueue s) (_bufferPool s) v (_transaction s)
    (_slaveConfig s) (_busConfig s) (_initialized s) (_sckPin s) (_misoPin s)
    (_mosiPin s) (_csPin s) (_mode s) (driver s).

Definition set_transaction (v : option spi_slave_transaction_t) (s : SPISlaveHandler)
  : SPISlaveHandler :=
  mkHandler (mem s) (_txBuffer s) (_rxBuffer s) (_bufferSize s) (_txLength s)
    (_dataReady s) (_needsNewTransaction s) (_lastTransactionTime s)
    (_transactionTimeout s) (_transactionActive s) (_transactionCount s)
    (_recoveryAttempts s) (_receiveQueue s) (_bufferPool s)
    (_receiveCallback s) v (_slaveConfig s) (_busConfig s) (_initialized s)
    (_sckPin s) (_misoPin s) (_mosiPin s) (_csPin s) (_mode s) (driver s).

Definition set_slaveConfig (v : option spi_slave_interface_config_t) (s : SPISlaveHandler)
  : SPISlaveHandler :=
  mkHandler (mem s) (_txBuffer s) (_rxBuffer s) (_bufferSize s) (_txLength s)
    (_dataReady s) (_needsNewTransaction s) (_lastTransactionTime s)
    (_transactionTimeout s) (_transactionActive s) (_transactionCount s)
    (_recoveryAttempts s) (_receiveQueue s) (_bufferPool s)
    (_receiveCallback s) (_transaction s) v (_busConfig s) (_initialized s)
    (_sckPin s) (_misoPin s) (_mosiPin s) (_csPin s) (_mode s) (driver s).

Definition set_busConfig (v : option spi_bus_config_t) (s : SPISlaveHandler)
  : SPISlaveHandler :=
  mkHandler (mem s) (_txBuffer s) (_rxBuffer s) (_bufferSize s) (_txLength s)
    (_dataReady s) (_needsNewTransaction s) (_lastTransactionTime s)
    (_transactionTimeout s) (_transactionActive s) (_transactionCount s)
    (_recoveryAttempts s) (_receiveQueue s) (_bufferPool s)
    (_receiveCallback s) (_transaction s) (_slaveConfig s) v (_initialized s)
    (_sckPin s) (_misoPin s) (_mosiPin s) (_csPin s) (_mode s) (driver s).

Definition set_initialized (v : bool) (s : SPISlaveHandler)
  : SPISlaveHandler :=
  mkHandler (mem s) (_txBuffer s) (_rxBuffer s) (_bufferSize s) (_txLength s)
    (_dataReady s) (_needsNewTransaction s) (_lastTransactionTime s)
    (_transactionTimeout s) (_transactionActive s) (_transactionCount s)
    (_recoveryAttempts s) (_receiveQueue s) (_bufferPool s)
    (_receiveCallback s) (_transaction s) (_slaveConfig s) (_busConfig s) v
    (_sckPin s) (_misoPin s) (_mosiPin s) (_csPin s) (_mode s) (driver s).

Definition set_sckPin (v : Z) (s : SPISlaveHandler)
  : SPISlaveHandler :=
  mkHandler (mem s) (_txBuffer s) (_rxBuffer s) (_bufferSize s) (_txLength s)
    (_dataReady s) (_needsNewTransaction s) (_lastTransactionTime s)
    (_transactionTimeout s) (_transactionActive s) (_transactionCount s)
    (_recoveryAttempts s) (_receiveQueue s) (_bufferPool s)
    (_receiveCallback s) (_transaction s) (_slaveConfig s) (_busConfig s)
    (_initialized s) v (_misoPin s) (_mosiPin s) (_csPin s) (_mode s)
    (driver s).

Definition set_misoPin (v : Z) (s : SPISlaveHandler)
  : SPISlaveHandler :=
  mkHandler (mem s) (_txBuffer s) (_rxBuffer s) (_bufferSize s) (_txLength s)
    (_dataReady s) (_needsNewTransaction s) (_lastTransactionTime s)
    (_transactionTimeout s) (_transactionActive s) (_transactionCount s)
    (_recoveryAttempts s) (_receiveQueue s) (_bufferPool s)
    (_receiveCallback s) (_transaction s) (_slaveConfig s) (_busConfig s)
    (_initialized s) (_sckPin s) v (_mosiPin s) (_csPin s) (_mode s)
    (driver s).

Definition set_mosiPin (v : Z) (s : SPISlaveHandler)
  : SPISlaveHandler :=
  mkHandler (mem s) (_txBuffer s) (_rxBuffer s) (_bufferSize s) (_txLength s)
    (_dataReady s) (_needsNewTransaction s) (_lastTransactionTime s)
    (_transactionTimeout s) (_transactionActive s) (_transactionCount s)
    (_recoveryAttempts s) (_receiveQueue s) (_bufferPool s)
    (_receiveCallback s) (_transaction s) (_slaveConfig s) (_busConfig s)
    (_initialized s) (_sckPin s) (_misoPin s) v (_csPin s) (_mode s)
    (driver s).

Definition set_csPin (v : Z) (s : SPISlaveHandler)
  : SPISlaveHandler :=
  mkHandler (mem s) (_txBuffer s) (_rxBuffer s) (_bufferSize s) (_txLength s)
    (_dataReady s) (_needsNewTransaction s) (_lastTransactionTime s)
    (_transactionTimeout s) (_transactionActive s) (_transactionCount s)
    (_recoveryAttempts s) (_receiveQueue s) (_bufferPool s)
    (_receiveCallback s) (_transaction s) (_slaveConfig s) (_busConfig s)
    (_initialized s) (_sckPin s) (_misoPin s) (_mosiPin s) v (_mode s)
    (driver s).

Definition set_mode (v : Z) (s : SPISlaveHandler)
  : SPISlaveHandler :=
  mkHandler (mem s) (_txBuffer s) (_rxBuffer s) (_bufferSize s) (_txLength s)
    (_dataReady s) (_needsNewTransaction s) (_lastTransactionTime s)
    (_transactionTimeout s) (_transactionActive s) (_transactionCount s)
    (_recoveryAttempts s) (_receiveQueue s) (_bufferPool s)
    (_receiveCallback s) (_transaction s) (_slaveConfig s) (_busConfig s)
    (_initialized s) (_sckPin s) (_misoPin s) (_mosiPin s) (_csPin s) v
    (driver s).

Definition set_driver (v : spi_slave_driver) (s : SPISlaveHandler)
  : SPISlaveHandler :=
  mkHandler (mem s) (_txBuffer s) (_rxBuffer s) (_bufferSize s) (_txLength s)
    (_dataReady s) (_needsNewTransaction s) (_lastTransactionTime s)
    (_transactionTimeout s) (_transactionActive s) (_transactionCount s)
    (_recoveryAttempts s) (_receiveQueue s) (_bufferPool s)
    (_receiveCallback s) (_transaction s) (_slaveConfig s) (_busConfig s)
    (_initialized s) (_sckPin s) (_misoPin s) (_mosiPin s) (_csPin s)
    (_mode s) v.

(** ** Construction *)

(** [const size_t _maxQueueSize = 10] *)
Definition _maxQueueSize : Z := 10.

(** The allocator's answers during construction. *)
Record CtorEnv := mkCtorEnv {
  ce_pool : nat -> alloc_choice;
  ce_tx : alloc_choice;
  ce_rx : alloc_choice
}.

(** The loop that fills [_bufferPool]: [n] entries are still to do, the next
    one has index [i]. *)
Fixpoint construct_pool (env : nat -> alloc_choice) (size : Z) (n i : nat)
    (h : heap) : list SPIBuffer * heap :=
  match n with
  | O => ([], h)
  | S n' =>
      let '(p, h) := heap_caps_malloc (env i) size h in
      let h := match p with Some _ => memset p 0 size h | None => h end in
      let '(rest, h) := construct_pool env size n' (S i) h in
      (mkBuffer p false :: rest, h)
  end.

(** [SPISlaveHandler::SPISlaveHandler()], run on the memory [h0] of the rest
    of the program.  The descriptor and the two driver configurations are not
    initialised by the constructor.  The source clears both persistent
    buffers without looking at the pointers: when either allocation has
    failed it stores through a null pointer and does not return, so the
    value given here is a state of the program only if [_txBuffer] and
    [_rxBuffer] are not [None]. *)
Definition constructor (env : CtorEnv) (h0 : heap) : SPISlaveHandler :=
  let size := SPI_BUFFER_SIZE in
  let '(pool, h) := construct_pool (ce_pool env) size SPI_BUFFER_POOL_SIZE 0 h0 in
  let '(tx, h) := heap_caps_malloc (ce_tx env) size h in
  let '(rx, h) := heap_caps_malloc (ce_rx env) size h in
  let h := memset tx 0 size h in
  let h := memset rx 0 size h in
  {| mem := h;
     _txBuffer := tx;
     _rxBuffer := rx;
     _bufferSize := size;
     _txLength := 0;
     _dataReady := false;
     _needsNewTransaction := false;
     _lastTransactionTime := 0;
     _transactionTimeout := 3000;
     _transactionActive := false;
     _transactionCount := 0;
     _recoveryAttempts := 0;
     _receiveQueue := [];
     _bufferPool := pool;
     _receiveCallback := None;
     _transaction := None;
     _slaveConfig := None;
     _busConfig := None;
     _initialized := false;
     _sckPin := 0;
     _misoPin := 0;
     _mosiPin := 0;
     _csPin := 0;
     _mode := SPI_MODE0;
     driver := mkDriver false 0 |}.

(** ** Buffer pool *)

(** The scan of [getBuffer]: the first entry that is not in use and has a
    buffer is marked and its buffer returned. *)
Fixpoint getBuffer_scan (pool : list SPIBuffer)
  : option (ptr * list SPIBuffer) :=
  match pool with
  | [] => None
  | b :: rest =>
      if negb (inUse b) && bool_decide (data b <> None)
      then Some (data b, mkBuffer (data b) true :: rest)
      else match getBuffer_scan rest with
           | Some (p, rest') => Some (p, b :: rest')
           | None => None
           end
  end.

(** [SPISlaveHandler::getBuffer] *)
Definition getBuffer (o : alloc_choice) (s : SPISlaveHandler)
  : ptr * SPISlaveHandler :=
  match getBuffer_scan (_bufferPool s) with
  | Some (p, pool') => (p, set_bufferPool pool' s)
  | None =>
      let '(p, h) := heap_caps_malloc o (_bufferSize s) (mem s) in
      (p, set_mem h s)
  end.

(** The scan of [returnBuffer]: the first entry whose buffer is [buffer]. *)
Fixpoint returnBuffer_scan (buffer : ptr) (pool : list SPIBuffer)
  : option (list SPIBuffer) :=
  match pool with
  | [] => None
  | b :: rest =>
      if decide (data b = buffer)
      then Some (mkBuffer (data b) false :: rest)
      else match returnBuffer_scan buffer rest with
           | Some rest' => Some (b :: rest')
           | None => None
           end
  end.

(** [SPISlaveHandler::returnBuffer] *)
Definition returnBuffer (buffer : ptr) (s : SPISlaveHandler)
  : SPISlaveHandler :=
  match returnBuffer_scan buffer (_bufferPool s) with
  | Some pool' =>
      let s := set_bufferPool pool' s in
      set_mem (memset buffer 0 (_bufferSize s) (mem s)) s
  | None => set_mem (heap_caps_free buffer (mem s)) s
  end.

(** ** Receive queue observers *)

(** [SPISlaveHandler::pendingReceiveCount]; [lock] tells whether
    [xSemaphoreTake(_queueSemaphore, pdMS_TO_TICKS(100))] returned [pdTRUE]. *)
Definition pendingReceiveCount (lock : bool) (s : SPISlaveHandler) : Z :=
  let count := 0 in
  let count :=
    if lock then wrap32 (Z.of_nat (length (_receiveQueue s))) else count in
  count.

(** [SPISlaveHandler::getBufferStatus]: [size_t] arithmetic, returned as
    [uint8_t]. *)
Definition getBufferStatus (lock : bool) (s : SPISlaveHandler) : Z :=
  let queueSize := pendingReceiveCount lock s in
  wrap8 (wrap32 (queueSize * 100) / _maxQueueSize).

(** ** Interrupt callbacks *)

Record IsrEnv := mkIsrEnv {
  isr_millis : Z;            (* millis() *)
  isr_count_lock : bool;     (* the take inside pendingReceiveCount *)
  isr_alloc : alloc_choice;  (* the allocation getBuffer may fall back to *)
  isr_push_lock : bool       (* xSemaphoreTakeFromISR *)
}.

(** [SPISlaveHandler::onSpiTransaction]; the instance pointer is set by the
    constructor, so the handler exists whenever the driver can call back. *)
Definition onSpiTransaction (env : IsrEnv) (trans : spi_slave_transaction_t)
    (s : SPISlaveHandler) : SPISlaveHandler :=
  let s := set_lastTransactionTime (wrap32 (isr_millis env)) s in
  let s := set_transactionActive false s in
  let s := set_transactionCount (wrap32 (_transactionCount s + 1)) s in
  let rxBytes := trans_len trans / 8 in
  if rxBytes =? 0 then s else
  let queueFull :=
    _maxQueueSize <=? pendingReceiveCount (isr_count_lock env) s in
  let s :=
    if negb queueFull then
      let '(packetBuffer, s) := getBuffer (isr_alloc env) s in
      match packetBuffer with
      | Some _ =>
          let s :=
            set_mem (memcpy packetBuffer (load (rx_buffer trans) (mem s))
                       rxBytes (mem s)) s in
          let packet :=
            new_SPIDataPacket (load packetBuffer (mem s)) rxBytes in
          let s := returnBuffer packetBuffer s in
          if isr_push_lock env
          then set_receiveQueue (_receiveQueue s ++ [packet]) s
          else s
      | None => s
      end
    else s in
  let s := set_mem (memset (rx_buffer trans) 0 (_bufferSize s) (mem s)) s in
  let s := set_dataReady false s in
  set_needsNewTransaction true s.

(** [SPISlaveHandler::onSpiPreTransaction] *)
Definition onSpiPreTransaction (s : SPISlaveHandler) : SPISlaveHandler :=
  set_transactionActive true s.

(** ** The driver *)

Definition spi_slave_initialize (ret : esp_err_t) (d : spi_slave_driver)
  : spi_slave_driver :=
  if ret =? ESP_OK then mkDriver true 0 else d.

Definition spi_slave_free (d : spi_slave_driver) : spi_slave_driver :=
  mkDriver false 0.

Definition spi_slave_queue_trans (ret : esp_err_t) (d : spi_slave_driver)
  : spi_slave_driver :=
  if ret =? ESP_OK then mkDriver (drv_installed d) (S (drv_queued d)) else d.

(** What the driver answers during one [init]. *)
Record InitEnv := mkInitEnv {
  ie_initialize : esp_err_t;
  ie_queue_trans : nat -> esp_err_t
}.

(** An [int] pin argument stored in a [uint8_t] field, [-1] asking for the
    default of Config.h. *)
Definition choose_pin (pin default_pin : Z) : Z :=
  wrap8 (if pin =? -1 then default_pin else pin).

(** The loop of [init] that queues the first descriptors: [n] submissions
    are still to do, the next one has index [i].  It stops at the first
    submission the driver refuses. *)
Fixpoint init_queue_loop (q : nat -> esp_err_t) (n i : nat)
    (d : spi_slave_driver) : bool * spi_slave_driver :=
  match n with
  | O => (true, d)
  | S n' =>
      let ret := q i in
      let d := spi_slave_queue_trans ret d in
      if negb (ret =? ESP_OK) then (false, d)
      else init_queue_loop q n' (S i) d
  end.

(** [SPISlaveHandler::init] *)
Definition init (env : InitEnv) (sckPin misoPin mosiPin csPin mode : Z)
    (s : SPISlaveHandler) : bool * SPISlaveHandler :=
  if _initialized s then (true, s) else
  let s := set_mode (wrap8 mode) s in
  let s := set_sckPin (choose_pin sckPin SPI_SCK_PIN) s in
  let s := set_misoPin (choose_pin misoPin SPI_MISO_PIN) s in
  let s := set_mosiPin (choose_pin mosiPin SPI_MOSI_PIN) s in
  let s := set_csPin (choose_pin csPin SPI_ESP32_SS) s in
  let s :=
    set_busConfig
      (Some {| mosi_io_num := _mosiPin s;
               miso_io_num := _misoPin s;
               sclk_io_num := _sckPin s;
               quadwp_io_num := -1;
               quadhd_io_num := -1;
               max_transfer_sz := _bufferSize s;
               bus_flags := 0;
               intr_flags := 0 |}) s in
  let s :=
    set_slaveConfig
      (Some {| spics_io_num := _csPin s;
               slave_flags := 0;
               queue_size := 5;
               slave_mode := _mode s |}) s in
  let ret := ie_initialize env in
  let s := set_driver (spi_slave_initialize ret (driver s)) s in
  if negb (ret =? ESP_OK) then (false, s) else
  let s :=
    set_transaction
      (Some {| length_bits := wrap32 (_bufferSize s * 8);
               trans_len := 0;
               tx_buffer := _txBuffer s;
               rx_buffer := _rxBuffer s |}) s in
  let '(queued, d) := init_queue_loop (ie_queue_trans env) 3 0 (driver s) in
  let s := set_driver d s in
  if queued then (true, set_initialized true s) else (false, s).

(** ** Staging outbound data *)

(** [SPISlaveHandler::prepareDataToSend]; [txData] is [None] for a null
    pointer and the bytes it points to otherwise. *)
Definition prepareDataToSend (txData : option (list Z)) (len : Z)
    (s : SPISlaveHandler) : bool * SPISlaveHandler :=
  if negb (_initialized s) then (false, s) else
  match txData with
  | None => (false, s)
  | Some bytes =>
      if (len =? 0) || (_bufferSize s <? len) then (false, s) else
      let s := set_mem (memset (_txBuffer s) 0 (_bufferSize s) (mem s)) s in
      let s := set_mem (memcpy (_txBuffer s) bytes len (mem s)) s in
      let s := set_txLength len s in
      let s := set_dataReady true s in
      (true, s)
  end.

(** [SPISlaveHandler::isReadyToSend] *)
Definition isReadyToSend (s : SPISlaveHandler) : bool :=
  _initialized s && negb (_dataReady s).

(** [SPISlaveHandler::setReceiveCallback] *)
Definition setReceiveCallback (callback : option callback_id)
    (s : SPISlaveHandler) : SPISlaveHandler :=
  set_receiveCallback callback s.

(** [SPISlaveHandler::ensureTransactionQueued]; [ret] is the answer of
    [spi_slave_queue_trans]. *)
Definition ensureTransactionQueued (ret : esp_err_t) (s : SPISlaveHandler)
  : bool * SPISlaveHandler :=
  if negb (_initialized s) then (false, s) else
  if _needsNewTransaction s then
    let s :=
      set_transaction
        (Some {| length_bits := wrap32 (_bufferSize s * 8);
                 trans_len := 0;
                 tx_buffer := _txBuffer s;
                 rx_buffer := _rxBuffer s |}) s in
    let s := set_driver (spi_slave_queue_trans ret (driver s)) s in
    if negb (ret =? ESP_OK) then (false, s)
    else (true, set_needsNewTransaction false s)
  else (false, s).

(** ** Recovery and watchdog *)

Record ResetEnv := mkResetEnv {
  re_init : InitEnv;     (* the driver's answers to the reinitialisation *)
  re_millis : Z;         (* millis() after a successful reinitialisation *)
  re_drain_lock : bool   (* xSemaphoreTake(_queueSemaphore, 1000 ms) *)
}.

(** The loop that empties the receive queue, one packet per turn. *)
Fixpoint drain_queue (q : list SPIDataPacket) : list SPIDataPacket :=
  match q with
  | [] => []
  | _ :: rest => drain_queue rest
  end.

Definition beacon : list Z := [0xAA; 0x55; 0xAA; 0x55].

(** [SPISlaveHandler::resetSPIInterface] *)
Definition resetSPIInterface (env : ResetEnv) (s : SPISlaveHandler)
  : bool * SPISlaveHandler :=
  let s := set_recoveryAttempts (wrap32 (_recoveryAttempts s + 1)) s in
  let s :=
    if _initialized s
    then set_initialized false (set_driver (spi_slave_free (driver s)) s)
    else s in
  let '(result, s) :=
    init (re_init env) (_sckPin s) (_misoPin s) (_mosiPin s) (_csPin s)
      (_mode s) s in
  if result then
    let s := set_transactionActive false s in
    let s := set_lastTransactionTime (wrap32 (re_millis env)) s in
    let s := set_mem (memset (_txBuffer s) 0 (_bufferSize s) (mem s)) s in
    let s := set_mem (memset (_rxBuffer s) 0 (_bufferSize s) (mem s)) s in
    let s := set_txLength 0 s in
    let s := set_dataReady false s in
    let s :=
      if re_drain_lock env
      then set_receiveQueue (drain_queue (_receiveQueue s)) s
      else s in
    let s := snd (prepareDataToSend (Some beacon) 4 s) in
    (result, s)
  else (result, s).

Record WatchdogEnv := mkWatchdogEnv {
  wd_millis : Z;            (* millis() at the poll *)
  wd_reset : ResetEnv;      (* the environment of a recovery, if one runs *)
  wd_queue_trans : esp_err_t (* the driver's answer to a re-queue *)
}.

(** [SPISlaveHandler::checkAndRecoverFromStalledTransaction] *)
Definition checkAndRecoverFromStalledTransaction (env : WatchdogEnv)
    (s : SPISlaveHandler) : bool * SPISlaveHandler :=
  if negb (_initialized s) then (false, s) else
  let currentTime := wrap32 (wd_millis env) in
  let timeSinceLastTransaction :=
    wrap32 (currentTime - _lastTransactionTime s) in
  if _transactionActive s
     && (_transactionTimeout s <? timeSinceLastTransaction)
  then resetSPIInterface (wd_reset env) s
  else
  if (wrap32 (_transactionTimeout s * 2) <? timeSinceLastTransaction)
     && (_initialized s && (0 <? _transactionCount s))
  then resetSPIInterface (wd_reset env) s
  else
  if _needsNewTransaction s
  then (true, snd (ensureTransactionQueued (wd_queue_trans env) s))
  else (false, s).

(** ** Handling received packets *)

Section Handling.

(** What a registered callback does with a packet: it runs arbitrary code
    of the application, which may use the handler. *)
Variable run_callback :
  callback_id -> list Z -> Z -> SPISlaveHandler -> SPISlaveHandler.

(** [SPISlaveHandler::handleReceivedData]; [status_lock] is the outcome of
    the semaphore take inside [getBufferStatus].  Commands other than PING
    are only logged. *)
Definition handleReceivedData (status_lock : bool) (bytes : list Z)
    (len : Z) (s : SPISlaveHandler) : SPISlaveHandler :=
  match _receiveCallback s with
  | Some cb => run_callback cb bytes len s
  | None =>
      if 0 <? len then
        match bytes with
        | [] => s
        | cmd :: _ =>
            if cmd <? 0xFF then
              if cmd =? SPICommand.PING then
                let response :=
                  [SPICommand.PONG; 0x00;
                   wrap8 (getBufferStatus status_lock s); 0x00] in
                snd (prepareDataToSend (Some response) 4 s)
              else if cmd =? SPICommand.CAMERA_DATA_REQUEST then s
              else if cmd =? SPICommand.CAMERA_DATA_BLOCK_REQUEST then s
              else if cmd =? SPICommand.ACK then s
              else if cmd =? SPICommand.NACK then s
              else s
            else s
        end
      else s
  end.

Record ProcessEnv := mkProcessEnv {
  pe_queue_lock : bool;   (* xSemaphoreTake(_queueSemaphore, 100 ms) *)
  pe_status_lock : bool   (* the take inside getBufferStatus *)
}.

(** [SPISlaveHandler::processNextReceive] *)
Definition processNextReceive (env : ProcessEnv) (s : SPISlaveHandler)
  : bool * SPISlaveHandler :=
  match _receiveQueue s with
  | [] => (false, s)
  | packet :: rest =>
      if negb (pe_queue_lock env) then (false, s) else
      let s := set_receiveQueue rest s in
      let s :=
        handleReceivedData (pe_status_lock env) (pkt_data packet)
          (pkt_length packet) s in
      (true, s)
  end.

End Handling.

(** ** The handler in its environment *)

(** Completion of a transfer, as the driver produces it.  The driver only
    ever holds the handler's own descriptor; it has stored the bytes it
    received at [rx_buffer], reports the number of bits in [trans_len] (at
    most the descriptor's length) and calls [post_trans_cb], which [init]
    set to [onSpiTransaction].  A driver that is not installed does not
    call back. *)
Definition post_trans_cb (env : IsrEnv) (received : list Z)
    (s : SPISlaveHandler) : SPISlaveHandler :=
  match _transaction s with
  | Some t =>
      if drv_installed (driver s) then
        let bits := Z.min (8 * Z.of_nat (length received)) (length_bits t) in
        let s :=
          set_mem (memcpy (rx_buffer t) received (bits / 8) (mem s)) s in
        onSpiTransaction env
          (mkTrans (length_bits t) bits (tx_buffer t) (rx_buffer t)) s
      else s
  | None => s
  end.

(** Start of a transfer: the driver calls [post_setup_cb], which [init] set
    to [onSpiPreTransaction]. *)
Definition post_setup_cb (s : SPISlaveHandler) : SPISlaveHandler :=
  if drv_installed (driver s) then onSpiPreTransaction s else s.

(** What can happen to a handler: the calls of its public interface and the
    two callbacks of the driver. *)
Inductive event :=
  | EvInit (env : InitEnv) (sckPin misoPin mosiPin csPin mode : Z)
  | EvPrepareDataToSend (txData : option (list Z)) (len : Z)
  | EvProcessNextReceive (env : ProcessEnv)
  | EvSetReceiveCallback (callback : option callback_id)
  | EvEnsureTransactionQueued (ret : esp_err_t)
  | EvWatchdog (env : WatchdogEnv)
  | EvReset (env : ResetEnv)
  | EvTransferStart
  | EvTransferDone (env : IsrEnv) (received : list Z).

Section System.

Variable run_callback :
  callback_id -> list Z -> Z -> SPISlaveHandler -> SPISlaveHandler.

Definition step (ev : event) (s : SPISlaveHandler) : SPISlaveHandler :=
  match ev with
  | EvInit env sckPin misoPin mosiPin csPin mode =>
      snd (init env sckPin misoPin mosiPin csPin mode s)
  | EvPrepareDataToSend txData len => snd (prepareDataToSend txData len s)
  | EvProcessNextReceive env => snd (processNextReceive run_callback env s)
  | EvSetReceiveCallback callback => setReceiveCallback callback s
  | EvEnsureTransactionQueued ret => snd (ensureTransactionQueued ret s)
  | EvWatchdog env => snd (checkAndRecoverFromStalledTransaction env s)
  | EvReset env => snd (resetSPIInterface env s)
  | EvTransferStart => post_setup_cb s
  | EvTransferDone env received => post_trans_cb env received s
  end.

Fixpoint run (evs : list event) (s : SPISlaveHandler) : SPISlaveHandler :=
  match evs with
  | [] => s
  | ev :: rest => run rest (step ev s)
  end.

End System.

(** Every completion of a run checks the capacity with the semaphore in
    hand. *)
Definition count_locks_taken (evs : list event) : Prop :=
  forall env received,
    EvTransferDone env received ∈ evs -> isr_count_lock env = true.

(** A run of completions, oldest first. *)
Fixpoint completions (evs : list (IsrEnv * list Z)) (s : SPISlaveHandler)
  : SPISlaveHandler :=
  match evs with
  | [] => s
  | (env, received) :: rest => completions rest (post_trans_cb env received s)
  end.

(** ** Clients of the buffer pool *)

(** What a client can do with the pool: ask for a buffer, give one back, and
    copy bytes into a buffer (as [onSpiTransaction] does between the two). *)
Inductive pool_call :=
  | PoolGet (o : alloc_choice)
  | PoolReturn (buffer : ptr)
  | PoolFill (buffer : ptr) (bytes : list Z) (n : Z).

Definition pool_call_run (c : pool_call) (s : SPISlaveHandler)
  : SPISlaveHandler :=
  match c with
  | PoolGet o => snd (getBuffer o s)
  | PoolReturn buffer => returnBuffer buffer s
  | PoolFill buffer bytes n => set_mem (memcpy buffer bytes n (mem s)) s
  end.

Fixpoint pool_run (calls : list pool_call) (s : SPISlaveHandler)
  : SPISlaveHandler :=
  match calls with
  | [] => s
  | c :: rest => pool_run rest (pool_call_run c s)
  end.

(** The buffers handed out by the [getBuffer] calls of a run. *)
Fixpoint pool_handed_out (calls : list pool_call) (s : SPISlaveHandler)
  : list ptr :=
  match calls with
  | [] => []
  | c :: rest =>
      match c with
      | PoolGet o => [fst (getBuffer o s)]
      | _ => []
      end ++ pool_handed_out rest (pool_call_run c s)
  end.

(** [buffer] is the buffer of a pool entry that is not in use. *)
Definition free_in_pool (buffer : ptr) (s : SPISlaveHandler) : bool :=
  existsb (fun b => bool_decide (data b = buffer) && negb (inUse b))
    (_bufferPool s).

(** Clients write only into buffers they hold: no call of the run copies
    into a pool buffer that is free at that moment. *)
Fixpoint pool_clients_ok (calls : list pool_call) (s : SPISlaveHandler)
  : bool :=
  match calls with
  | [] => true
  | c :: rest =>
      match c with
      | PoolFill buffer _ _ => negb (free_in_pool buffer s)
      | _ => true
      end && pool_clients_ok rest (pool_call_run c s)
  end.

(** [a] is the buffer of some pool entry. *)
Definition pool_buffer (a : addr) (s : SPISlaveHandler) : Prop :=
  exists b, b ∈ _bufferPool s /\ data b = Some a.

(** The block at [a] is [_bufferSize] zero bytes. *)
Definition zeroed (a : addr) (s : SPISlaveHandler) : Prop :=
  mem s !! a = Some (replicate (Z.to_nat (_bufferSize s)) 0).

(** No pool buffer is free: every entry that has a buffer is in use. *)
Definition pool_exhausted (s : SPISlaveHandler) : Prop :=
  forall b, b ∈ _bufferPool s -> data b <> None -> inUse b = true.

(** The block at [a] is live and [_bufferSize] bytes long. *)
Definition live (a : addr) (s : SPISlaveHandler) : Prop :=
  exists blk, mem s !! a = Some blk
              /\ length blk = Z.to_nat (_bufferSize s).

(** The buffers of the pool are live blocks of [_bufferSize] bytes. *)
Definition pool_live (s : SPISlaveHandler) : Prop :=
  forall b a, b ∈ _bufferPool s -> data b = Some a -> live a s.

(** Invariant of the pool: its buffers are live and pairwise distinct, and
    those that are free hold only zero bytes. *)
Record pool_inv (s : SPISlaveHandler) : Prop := mkPoolInv {
  pi_live : pool_live s;
  pi_distinct : NoDup (omap data (_bufferPool s));
  pi_zero : forall b a, b ∈ _bufferPool s -> data b = Some a ->
              inUse b = false -> zeroed a s
}.

(** The persistent buffers are two distinct live blocks of [_bufferSize]
    bytes, as they are when the constructor got its memory, and a 4-byte
    reply fits. *)
Record buffers_ok (s : SPISlaveHandler) : Prop := mkBuffersOk {
  bo_tx : exists a, _txBuffer s = Some a /\ live a s;
  bo_rx : exists a, _rxBuffer s = Some a /\ live a s;
  bo_apart : _txBuffer s <> _rxBuffer s;
  bo_size : 4 <= _bufferSize s
}.

(** [s'] has the persistent buffers of [s], and they are live in [s'] if
    they were in [s]. *)
Definition buffers_kept (s s' : SPISlaveHandler) : Prop :=
  _txBuffer s' = _txBuffer s /\ _rxBuffer s' = _rxBuffer s
  /\ _bufferSize s' = _bufferSize s
  /\ forall a, _txBuffer s = Some a \/ _rxBuffer s = Some a ->
       live a s -> live a s'.

(** Agreement of two states on everything but the stored pin, mode, bus and
    slave configuration, the descriptor, and the driver. *)
Definition same_engine_state (s s' : SPISlaveHandler) : Prop :=
  mem s' = mem s /\ _txBuffer s' = _txBuffer s /\ _rxBuffer s' = _rxBuffer s
  /\ _bufferSize s' = _bufferSize s /\ _txLength s' = _txLength s
  /\ _dataReady s' = _dataReady s
  /\ _needsNewTransaction s' = _needsNewTransaction s
  /\ _lastTransactionTime s' = _lastTransactionTime s
  /\ _transactionTimeout s' = _transactionTimeout s
  /\ _transactionActive s' = _transactionActive s
  /\ _transactionCount s' = _transactionCount s
  /\ _recoveryAttempts s' = _recoveryAttempts s
  /\ _receiveQueue s' = _receiveQueue s /\ _bufferPool s' = _bufferPool s
  /\ _receiveCallback s' = _receiveCallback s.

(** ** Concrete environments and states used by the examples *)

Module Examples.

(** An allocator that serves the pool at addresses 1..6 and the transmit
    and receive buffers at 7 and 8. *)
Definition ctor_env : CtorEnv :=
  {| ce_pool := fun i => Some (N.of_nat (S i), []);
     ce_tx := Some (7%N, []);
     ce_rx := Some (8%N, []) |}.

Definition fresh : SPISlaveHandler := constructor ctor_env ∅.

(** A driver that accepts everything. *)
Definition init_ok : InitEnv :=
  {| ie_initialize := ESP_OK; ie_queue_trans := fun _ => ESP_OK |}.

(** A driver that starts but refuses the second descriptor
    (0x103 is ESP_ERR_INVALID_STATE). *)
Definition init_refused : InitEnv :=
  {| ie_initialize := ESP_OK;
     ie_queue_trans := fun i => if decide (i = 1%nat) then 0x103 else ESP_OK |}.

Definition started : SPISlaveHandler :=
  snd (init init_ok (-1) (-1) (-1) (-1) SPI_MODE0 fresh).

(** The started handler with a three-byte payload staged. *)
Definition staged : SPISlaveHandler :=
  snd (prepareDataToSend (Some [1; 2; 3]) 3 started).

(** A completion at time [t] during which the queue semaphore is free. *)
Definition isr_quiet (t : Z) : IsrEnv :=
  {| isr_millis := t; isr_count_lock := true;
     isr_alloc := None; isr_push_lock := true |}.

(** A completion at time [t] during which the semaphore is held by a task
    while the capacity is checked and has been given back when the packet
    is pushed. *)
Definition isr_contended (t : Z) : IsrEnv :=
  {| isr_millis := t; isr_count_lock := false;
     isr_alloc := None; isr_push_lock := true |}.

(** A five-byte transfer that carries a PING. *)
Definition ping : list Z := [0x01; 0x00; 0x00; 0x00; 0x00].

(** Ten such transfers received without contention. *)
Definition ten_quiet : list (IsrEnv * list Z) :=
  map (fun t => (isr_quiet (Z.of_nat t), ping)) (seq 1 10).

Definition full : SPISlaveHandler := completions ten_quiet started.

(** The fresh pool after six buffers have been handed out. *)
Definition exhausted : SPISlaveHandler :=
  pool_run (replicate 6 (PoolGet None)) fresh.

(** Two buffers are taken and written, then clients go on with the second
    one after the first has been given back. *)
Definition two_clients : list pool_call :=
  [PoolGet None; PoolGet None; PoolFill (Some 1%N) [9; 9; 9] 3;
   PoolFill (Some 2%N) [7] 1].

Definition second_client : list pool_call :=
  [PoolFill (Some 2%N) [5; 5] 2; PoolReturn (Some 2%N)].

Definition reset_ok (lock : bool) : ResetEnv :=
  {| re_init := init_ok; re_millis := 5000; re_drain_lock := lock |}.

Definition watchdog_env (t : Z) : WatchdogEnv :=
  {| wd_millis := t; wd_reset := reset_ok true; wd_queue_trans := ESP_OK |}.

End Examples.

(** ** Tearing down *)

(** The loop of the destructor over the pool: every buffer is freed and its
    entry cleared. *)
Fixpoint destroy_pool (pool : list SPIBuffer) (h : heap)
  : list SPIBuffer * heap :=
  match pool with
  | [] => ([], h)
  | b :: rest =>
      let '(b, h) :=
        match data b with
        | Some _ => (mkBuffer None (inUse b), heap_caps_free (data b) h)
        | None => (b, h)
        end in
      let '(rest, h) := destroy_pool rest h in
      (b :: rest, h)
  end.

(** [SPISlaveHandler::~SPISlaveHandler()]: what is left of the handler's
    memory, pool, queue and driver. *)
Definition destructor (s : SPISlaveHandler) : SPISlaveHandler :=
  let s :=
    if _initialized s then set_driver (spi_slave_free (driver s)) s else s in
  let s :=
    match _txBuffer s with
    | Some _ => set_mem (heap_caps_free (_txBuffer s) (mem s)) s
    | None => s
    end in
  let s :=
    match _rxBuffer s with
    | Some _ => set_mem (heap_caps_free (_rxBuffer s) (mem s)) s
    | None => s
    end in
  let '(pool, h) := destroy_pool (_bufferPool s) (mem s) in
  let s := set_mem h (set_bufferPool pool s) in
  set_receiveQueue (drain_queue (_receiveQueue s)) s.

(** ** The handler's own memory *)

(** The descriptor, once built, refers to the persistent buffers in their
    full length. *)
Definition descriptor_ok (s : SPISlaveHandler) : Prop :=
  forall t, _transaction s = Some t ->
    tx_buffer t = _txBuffer s /\ rx_buffer t = _rxBuffer s
    /\ length_bits t = wrap32 (_bufferSize s * 8).

(** [s'] has the buffers and the pool of [s], and its memory differs from
    that of [s] at most inside the two persistent buffers. *)
Record confined (s s' : SPISlaveHandler) : Prop := mkConfined {
  cf_tx : _txBuffer s' = _txBuffer s;
  cf_rx : _rxBuffer s' = _rxBuffer s;
  cf_pool : _bufferPool s' = _bufferPool s;
  cf_mem : forall a, _txBuffer s <> Some a -> _rxBuffer s <> Some a ->
             mem s' !! a = mem s !! a
}.

(** The persistent buffers are not buffers of the pool. *)
Definition buffers_apart_from_pool (s : SPISlaveHandler) : Prop :=
  forall a, _txBuffer s = Some a \/ _rxBuffer s = Some a ->
    a ∉ omap data (_bufferPool s).

(** What holds of the handler between any two events. *)
Record handler_inv (s : SPISlaveHandler) : Prop := mkHandlerInv {
  hi_pool : pool_inv s;
  hi_buffers : buffers_ok s;
  hi_apart : buffers_apart_from_pool s;
  hi_free : forall b, b ∈ _bufferPool s -> inUse b = false;
  hi_descriptor : descriptor_ok s;
  hi_size : _bufferSize s = SPI_BUFFER_SIZE
}.

(** ** What goes through the receive queue *)

(** The events that can run a recovery. *)
Definition may_recover (ev : event) : bool :=
  match ev with
  | EvWatchdog _ | EvReset _ => true
  | _ => false
  end.

Section Delivery.

Variable run_callback :
  callback_id -> list Z -> Z -> SPISlaveHandler -> SPISlaveHandler.

(** [processNextReceive] with the call of [handleReceivedData] left open:
    [handle] stands for that call and what follows it, and receives the
    arguments of the call and the state in which it is made; [none]
    stands for the paths that return false without making it. *)
Definition processNextReceive_with {A : Type}
    (handle : list Z -> Z -> SPISlaveHandler -> A)
    (none : SPISlaveHandler -> A)
    (env : ProcessEnv) (s : SPISlaveHandler) : A :=
  match _receiveQueue s with
  | [] => none s
  | packet :: rest =>
      if negb (pe_queue_lock env) then none s else
      handle (pkt_data packet) (pkt_length packet)
        (set_receiveQueue rest s)
  end.

(** The arguments with which a call of [processNextReceive] calls
    [handleReceivedData], if it calls it. *)
Definition taken_by (env : ProcessEnv) (s : SPISlaveHandler)
  : list (list Z * Z) :=
  processNextReceive_with (fun bytes len _ => [(bytes, len)])
    (fun _ => []) env s.

(** What [handleReceivedData] is to be called with for the packets of a
    queue, front first. *)
Definition packet_args (q : list SPIDataPacket) : list (list Z * Z) :=
  map (fun packet => (pkt_data packet, pkt_length packet)) q.

(** The packets a completion leaves in the queue beyond those that were
    there. *)
Definition added_by (env : IsrEnv) (received : list Z)
    (s : SPISlaveHandler) : list SPIDataPacket :=
  drop (length (_receiveQueue s))
    (_receiveQueue (post_trans_cb env received s)).

(** The arguments of the calls of [handleReceivedData] made during a run,
    in order. *)
Fixpoint delivered (evs : list event) (s : SPISlaveHandler)
  : list (list Z * Z) :=
  match evs with
  | [] => []
  | ev :: rest =>
      match ev with
      | EvProcessNextReceive env => taken_by env s
      | _ => []
      end ++ delivered rest (step run_callback ev s)
  end.

(** The packets queued by the completions of a run, in order. *)
Fixpoint arrived (evs : list event) (s : SPISlaveHandler)
  : list SPIDataPacket :=
  match evs with
  | [] => []
  | ev :: rest =>
      match ev with
      | EvTransferDone env received => added_by env received s
      | _ => []
      end ++ arrived rest (step run_callback ev s)
  end.

End Delivery.

(** ** Further states used by the examples *)

Module Scenes.

(** The callback of the examples does nothing. *)
Definition idle_callback
  : callback_id -> list Z -> Z -> SPISlaveHandler -> SPISlaveHandler :=
  fun _ _ _ s => s.

(** A started handler with a callback registered. *)
Definition listening : SPISlaveHandler :=
  run idle_callback
    [EvInit Examples.init_ok (-1) (-1) (-1) (-1) SPI_MODE0;
     EvSetReceiveCallback (Some 0%nat)]
    (constructor Examples.ctor_env ∅).

(** The descriptor [init] builds for the handler of the examples. *)
Definition descriptor : spi_slave_transaction_t :=
  mkTrans 64768 0 (Some 7%N) (Some 8%N).

Definition process_ok : ProcessEnv := mkProcessEnv true true.

(** A driver that cannot be started (0x103 is ESP_ERR_INVALID_STATE). *)
Definition init_failed : InitEnv :=
  {| ie_initialize := 0x103; ie_queue_trans := fun _ => ESP_OK |}.

Definition reset_failed : ResetEnv :=
  {| re_init := init_failed; re_millis := 5000; re_drain_lock := true |}.

End Scenes.


(** ** The logger (lib/Utils/Logger.{h,cpp}) *)

Module Utils.

(** [enum class LogLevel], in the order of its enumerators. *)
Inductive LogLevel := DEBUG | INFO | WARNING | ERROR | CRITICAL.

(** The value of an enumerator, which [log] compares. *)
Definition level_value (level : LogLevel) : Z :=
  match level with
  | DEBUG => 0
  | INFO => 1
  | WARNING => 2
  | ERROR => 3
  | CRITICAL => 4
  end.

(** [class Logger], with what it has done to [Serial]: whether
    [Serial.begin] was called, and the lines printed, oldest first. *)
Record Logger := mkLogger {
  _serialEnabled : bool;
  _fileName : string;
  _logLevel : LogLevel;
  serial_begun : bool;
  serial_out : list string
}.

(** [Logger::Logger()] *)
Definition Logger_new : Logger :=
  {| _serialEnabled := true;
     _fileName := String.EmptyString;
     _logLevel := INFO;
     serial_begun := false;
     serial_out := [] |}.

(** [Logger::init] *)
Definition init (serialEnabled : bool) (l : Logger) : bool * Logger :=
  let l :=
    mkLogger serialEnabled (_fileName l) (_logLevel l) (serial_begun l)
      (serial_out l) in
  let l :=
    if _serialEnabled l
    then mkLogger (_serialEnabled l) (_fileName l) (_logLevel l) true
           (serial_out l)
    else l in
  (true, l).

(** [Logger::setLogLevel] *)
Definition setLogLevel (level : LogLevel) (l : Logger) : Logger :=
  mkLogger (_serialEnabled l) (_fileName l) level (serial_begun l)
    (serial_out l).

(** [Logger::logLevelToString]; the [default] branch of the switch is not
    reached by an enumerator. *)
Definition logLevelToString (level : LogLevel) : string :=
  match level with
  | DEBUG => "DEBUG"
  | INFO => "INFO"
  | WARNING => "WARNING"
  | ERROR => "ERROR"
  | CRITICAL => "CRITICAL"
  end.

(** [Logger::logLevelToLowerString] *)
Definition logLevelToLowerString (level : LogLevel) : string :=
  match level with
  | DEBUG => "debug"
  | INFO => "info"
  | WARNING => "warning"
  | ERROR => "error"
  | CRITICAL => "critical"
  end.

(** [Logger::log(LogLevel, const String&)]; [now] is what [millis()]
    returns, an [unsigned long] printed in decimal. *)
Definition log (now : Z) (level : LogLevel) (message : string)
    (l : Logger) : Logger :=
  if level_value level <? level_value (_logLevel l) then l else
  let currentTime := wrap32 now in
  let logMessage :=
    (((pretty (Z.to_N currentTime) +:+ " [") +:+ logLevelToString level)
     +:+ "] ") +:+ message in
  if _serialEnabled l
  then mkLogger (_serialEnabled l) (_fileName l) (_logLevel l)
         (serial_begun l) (serial_out l ++ [logMessage])
  else l.

(** [Logger::formatString]: [vsnprintf] into a buffer of 256 bytes keeps
    the first 255 characters of the expansion of the format, given here
    as [expanded]. *)
Definition formatString (expanded : string) : string :=
  String.substring 0 255 expanded.

(** [Logger::log(LogLevel, const char*, ...)] *)
Definition log_formatted (now : Z) (level : LogLevel) (expanded : string)
    (l : Logger) : Logger :=
  log now level (formatString expanded) l.

(** [Logger::debug], [info], [warning], [error] and [critical] *)
Definition debug (now : Z) (expanded : string) (l : Logger) : Logger :=
  log now DEBUG (formatString expanded) l.

Definition info (now : Z) (expanded : string) (l : Logger) : Logger :=
  log now INFO (formatString expanded) l.

Definition warning (now : Z) (expanded : string) (l : Logger) : Logger :=
  log now WARNING (formatString expanded) l.

Definition error (now : Z) (expanded : string) (l : Logger) : Logger :=
  log now ERROR (formatString expanded) l.

Definition critical (now : Z) (expanded : string) (l : Logger) : Logger :=
  log now CRITICAL (formatString expanded) l.

(** A call of one of the formatted logging functions: the time, the
    level and the expansion of the format. *)
Record log_call := mkLogCall {
  lc_now : Z;
  lc_level : LogLevel;
  lc_expanded : string
}.

(** The calls of a list, oldest first. *)
Fixpoint log_all (calls : list log_call) (l : Logger) : Logger :=
  match calls with
  | [] => l
  | c :: rest =>
      log_all rest (log_formatted (lc_now c) (lc_level c) (lc_expanded c) l)
  end.

(** The line a call prints, if it prints. *)
Definition line_of (c : log_call) : string :=
  (((pretty (Z.to_N (wrap32 (lc_now c))) +:+ " [")
    +:+ logLevelToString (lc_level c)) +:+ "] ")
  +:+ formatString (lc_expanded c).

End Utils.
(** * Properties *)

(** ** Machine integers and memory *)

Lemma wrap32_small z : 0 <= z < 2 ^ 32 -> wrap32 z = z.
Proof. intros H. unfold wrap32. by apply Z.mod_small. Qed.

Lemma wrap32_range z : 0 <= wrap32 z < 2 ^ 32.
Proof. unfold wrap32. apply Z.mod_pos_bound. lia. Qed.

Lemma wrap8_small z : 0 <= z < 2 ^ 8 -> wrap8 z = z.
Proof. intros H. unfold wrap8. by apply Z.mod_small. Qed.

Lemma length_store_bytes src blk : length (store_bytes src blk) = length blk.
Proof.
  unfold store_bytes. rewrite length_take, length_app, length_drop. lia.
Qed.

Lemma store_bytes_prefix src blk :
  (length src <= length blk)%nat ->
  store_bytes src blk = src ++ drop (length src) blk.
Proof.
  intros H. unfold store_bytes. apply take_ge.
  rewrite length_app, length_drop. lia.
Qed.

Lemma store_bytes_whole src blk :
  length src = length blk -> store_bytes src blk = src.
Proof.
  intros H. rewrite store_bytes_prefix by lia.
  rewrite drop_ge by lia. apply app_nil_r.
Qed.

Lemma store_bytes_zero_pad src n :
  (length src <= n)%nat ->
  store_bytes src (replicate n 0) = src ++ replicate (n - length src) 0.
Proof.
  intros H. rewrite store_bytes_prefix by (rewrite length_replicate; lia).
  by rewrite drop_replicate.
Qed.

Lemma alter_live (f : list Z -> list Z) (a : addr) (h : heap) blk :
  h !! a = Some blk -> alter f a h = <[a := f blk]> h.
Proof.
  intros H. apply map_eq. intros a'. destruct (decide (a = a')) as [<-|Hne].
  - by rewrite lookup_alter_eq, lookup_insert_eq, H.
  - by rewrite lookup_alter_ne, lookup_insert_ne.
Qed.

Lemma memset_live a c n h blk :
  h !! a = Some blk -> length blk = Z.to_nat n ->
  memset (Some a) c n h = <[a := replicate (Z.to_nat n) c]> h.
Proof.
  intros H Hlen. unfold memset. rewrite (alter_live _ _ _ _ H).
  by rewrite store_bytes_whole by (rewrite length_replicate; lia).
Qed.

(** ** Flow-control percentage *)

Lemma getBufferStatus_range lock s : 0 <= getBufferStatus lock s < 2 ^ 8.
Proof. unfold getBufferStatus, wrap8. apply Z.mod_pos_bound. lia. Qed.

(** C9: whenever the pending receive count [n] that [getBufferStatus] reads
    lies between 0 and the maximal queue size (10), the status it returns is
    exactly [n * 100 / 10], rounded down: neither the [size_t] product nor
    the conversion to [uint8_t] loses anything. *)
Theorem getBufferStatus_percentage lock s :
  0 <= pendingReceiveCount lock s <= _maxQueueSize ->
  getBufferStatus lock s = pendingReceiveCount lock s * 100 / _maxQueueSize.
Proof.
  unfold getBufferStatus, _maxQueueSize.
  generalize (pendingReceiveCount lock s). intros n Hn.
  rewrite (wrap32_small (n * 100)) by lia.
  apply wrap8_small. split.
  - apply Z.div_pos; lia.
  - apply Z.div_lt_upper_bound; lia.
Qed.

Lemma getBufferStatus_percentage_witness :
  getBufferStatus true Examples.full = 100.
Proof.
  rewrite (getBufferStatus_percentage true Examples.full).
  - vm_compute. reflexivity.
  - vm_compute. split; discriminate.
Defined.

(** C10: when the queue semaphore is not obtained within the 100 ms bound,
    [pendingReceiveCount] answers 0 and so [getBufferStatus] answers 0,
    whatever the queue holds. *)
Theorem lock_timeout_reports_empty s :
  pendingReceiveCount false s = 0 /\ getBufferStatus false s = 0.
Proof. split; reflexivity. Qed.

(** ** Staging outbound data *)

(** C4: a call of [prepareDataToSend] with a null pointer, a zero length, a
    length above the buffer size, or on a handler that is not initialised,
    returns false and leaves the whole handler, in particular the transmit
    buffer, [_txLength] and [_dataReady], as it was. *)
Theorem prepareDataToSend_rejects txData len s :
  txData = None \/ len = 0 \/ _bufferSize s < len \/ _initialized s = false ->
  prepareDataToSend txData len s = (false, s).
Proof.
  intros H. unfold prepareDataToSend.
  destruct (_initialized s); [|reflexivity]. simpl.
  destruct txData as [bytes|]; [|reflexivity].
  destruct H as [H|[H|[H|H]]]; try discriminate.
  - subst len. reflexivity.
  - apply Z.ltb_lt in H. rewrite H. by rewrite orb_true_r.
Qed.

Lemma prepareDataToSend_rejects_witness :
  prepareDataToSend (Some [7; 7; 7]) 9000 Examples.staged
  = (false, Examples.staged).
Proof.
  apply (prepareDataToSend_rejects (Some [7; 7; 7]) 9000 Examples.staged).
  right. right. left. vm_compute. reflexivity.
Defined.

(** What a call that is accepted does: the transmit block becomes the
    payload followed by zero bytes. *)
Lemma prepareDataToSend_stages bytes len s tx blk :
  _initialized s = true -> 0 < len <= _bufferSize s ->
  _txBuffer s = Some tx -> mem s !! tx = Some blk ->
  length blk = Z.to_nat (_bufferSize s) ->
  let payload := take (Z.to_nat len) bytes in
  prepareDataToSend (Some bytes) len s
  = (true,
     set_dataReady true
       (set_txLength len
          (set_mem
             (<[tx := payload
                      ++ replicate (Z.to_nat (_bufferSize s) - length payload)
                           0]> (mem s)) s))).
Proof.
  intros Hinit Hlen Htx Hblk Hsize payload. unfold prepareDataToSend.
  rewrite Hinit. simpl.
  replace (len =? 0) with false by (symmetry; apply Z.eqb_neq; lia).
  replace (_bufferSize s <? len) with false
    by (symmetry; apply Z.ltb_ge; lia).
  simpl. rewrite Htx. f_equal. f_equal. f_equal.
  rewrite (memset_live _ _ _ _ _ Hblk Hsize). unfold memcpy.
  rewrite (alter_live _ _ _ (replicate (Z.to_nat (_bufferSize s)) 0))
    by apply lookup_insert_eq.
  rewrite insert_insert_eq, store_bytes_zero_pad; [reflexivity|].
  rewrite length_take. lia.
Qed.

(** ** Command protocol *)

Lemma handleReceivedData_ping
    (run_callback : callback_id -> list Z -> Z -> SPISlaveHandler
                    -> SPISlaveHandler)
    lock rest len s tx blk :
  _initialized s = true -> _receiveCallback s = None -> 0 < len ->
  _txBuffer s = Some tx -> mem s !! tx = Some blk ->
  length blk = Z.to_nat (_bufferSize s) -> 4 <= _bufferSize s ->
  handleReceivedData run_callback lock (SPICommand.PING :: rest) len s
  = set_dataReady true
      (set_txLength 4
         (set_mem
            (<[tx := [SPICommand.PONG; 0x00; getBufferStatus lock s; 0x00]
                     ++ replicate (Z.to_nat (_bufferSize s) - 4) 0]> (mem s))
            s)).
Proof.
  intros Hinit Hcb Hlen Htx Hblk Hsize Hcap. unfold handleReceivedData.
  rewrite Hcb. replace (0 <? len) with true by (symmetry; lia).
  change (SPICommand.PING <? 255) with true.
  change (SPICommand.PING =? SPICommand.PING) with true. cbv iota.
  rewrite wrap8_small by apply getBufferStatus_range.
  rewrite (prepareDataToSend_stages _ 4 s tx blk); try done; lia.
Qed.

(** C5: on an initialised handler without a receive callback, handling a
    packet whose first byte is PING (0x01) stages one payload and does
    nothing else: afterwards the handler is the one before with the transmit
    block holding [0x02; 0x00; status; 0x00] followed by zero bytes,
    [_txLength] 4 and [_dataReady] set, where [status] is what
    [getBufferStatus] returns at that moment. *)
Theorem ping_stages_pong
    (run_callback : callback_id -> list Z -> Z -> SPISlaveHandler
                    -> SPISlaveHandler)
    lock rest len s :
  _initialized s = true -> _receiveCallback s = None -> buffers_ok s ->
  0 < len ->
  exists tx,
    _txBuffer s = Some tx
    /\ handleReceivedData run_callback lock (SPICommand.PING :: rest) len s
       = set_dataReady true
           (set_txLength 4
              (set_mem
                 (<[tx := [SPICommand.PONG; 0x00; getBufferStatus lock s;
                           0x00]
                          ++ replicate (Z.to_nat (_bufferSize s) - 4) 0]>
                    (mem s))
                 s)).
Proof.
  intros Hinit Hcb [(tx & Htx & blk & Hblk & Hsize) _ _ Hcap] Hlen.
  exists tx. split; [done|]. by eapply handleReceivedData_ping.
Qed.

Lemma buffers_ok_full : buffers_ok Examples.full.
Proof.
  split.
  - exists 7%N. split; [vm_compute; reflexivity|].
    exists (replicate (Z.to_nat 8096) 0). split; vm_compute; reflexivity.
  - exists 8%N. split; [vm_compute; reflexivity|].
    exists (replicate (Z.to_nat 8096) 0). split; vm_compute; reflexivity.
  - vm_compute. discriminate.
  - vm_compute. discriminate.
Qed.

Lemma ping_stages_pong_witness :
  exists tx,
    _txBuffer Examples.full = Some tx
    /\ handleReceivedData (fun _ _ _ s => s) true
         (SPICommand.PING :: [0x00]) 2 Examples.full
       = set_dataReady true
           (set_txLength 4
              (set_mem
                 (<[tx := [SPICommand.PONG; 0x00;
                           getBufferStatus true Examples.full; 0x00]
                          ++ replicate
                               (Z.to_nat (_bufferSize Examples.full) - 4) 0]>
                    (mem Examples.full))
                 Examples.full)).
Proof.
  apply (ping_stages_pong (fun _ _ _ s => s) true [0x00] 2 Examples.full).
  - vm_compute. reflexivity.
  - vm_compute. reflexivity.
  - apply buffers_ok_full.
  - lia.
Defined.

(** ** Watchdog *)

Lemma resetSPIInterface_counts env s :
  _recoveryAttempts (snd (resetSPIInterface env s))
  = wrap32 (_recoveryAttempts s + 1).
Proof.
  unfold resetSPIInterface.
  set (s1 := set_recoveryAttempts _ s).
  set (s2 := if _initialized s1 then _ else s1).
  assert (H2 : _recoveryAttempts s2 = wrap32 (_recoveryAttempts s + 1)).
  { subst s2. by destruct (_initialized s1). }
  set (r := init _ _ _ _ _ _ s2).
  assert (Hr : _recoveryAttempts (snd r) = _recoveryAttempts s2).
  { subst r. unfold init. destruct (_initialized s2); [done|].
    cbv zeta. destruct (negb _); [done|].
    destruct (init_queue_loop _ _ _ _) as [[] ?]; done. }
  destruct r as [[] s3]; simpl in *; [|congruence].
  rewrite <- H2, <- Hr. unfold prepareDataToSend. simpl.
  repeat (match goal with |- context [if ?b then _ else _] => destruct b end;
          simpl; try reflexivity).
Qed.
(** ** Initialisation *)

Ltac case_if :=
  match goal with
  | |- context [if ?b then _ else _] => destruct b eqn:?
  end.

Lemma same_engine_state_refl s : same_engine_state s s.
Proof. repeat split. Qed.

(** [init] touches nothing but the stored configuration, the descriptor, the
    driver and the [_initialized] flag. *)
Lemma init_engine_state env sck miso mosi cs mode s :
  same_engine_state s (snd (init env sck miso mosi cs mode s)).
Proof.
  unfold init. case_if; [apply same_engine_state_refl|].
  cbv zeta. case_if; [repeat split|].
  destruct (init_queue_loop _ _ _ _) as [[] d]; repeat split.
Qed.

Lemma init_result_initialized env sck miso mosi cs mode s :
  _initialized (snd (init env sck miso mosi cs mode s))
  = fst (init env sck miso mosi cs mode s).
Proof.
  unfold init. destruct (_initialized s) eqn:Hinit; [done|].
  cbv zeta. case_if; [done|].
  destruct (init_queue_loop _ _ _ _) as [[] d]; done.
Qed.

Lemma init_queue_loop_refused q n i d :
  (exists k, (i <= k < i + n)%nat /\ q k <> ESP_OK) ->
  fst (init_queue_loop q n i d) = false.
Proof.
  revert i d. induction n as [|n IH]; intros i d [k [Hk Hq]]; [lia|].
  simpl. destruct (q i =? ESP_OK) eqn:Hi; [|reflexivity].
  simpl. apply IH. exists k. split; [|done].
  destruct (decide (k = i)) as [->|]; [|lia].
  apply Z.eqb_eq in Hi. contradiction.
Qed.

(** ** Recovery *)

Lemma drain_queue_empty q : drain_queue q = [].
Proof. induction q; auto. Qed.

(** A successful recovery, step by step, for a handler whose persistent
    buffers are the live blocks at [tx] and [rx]. *)
Lemma resetSPIInterface_success env s s' tx rx btx brx :
  resetSPIInterface env s = (true, s') ->
  _txBuffer s = Some tx -> _rxBuffer s = Some rx -> tx <> rx ->
  mem s !! tx = Some btx -> length btx = Z.to_nat (_bufferSize s) ->
  mem s !! rx = Some brx -> length brx = Z.to_nat (_bufferSize s) ->
  4 <= _bufferSize s ->
  _recoveryAttempts s' = wrap32 (_recoveryAttempts s + 1)
  /\ _transactionActive s' = false
  /\ _receiveQueue s'
     = (if re_drain_lock env then [] else _receiveQueue s)
  /\ (exists mid,
        zeroed tx mid /\ zeroed rx mid
        /\ _txLength mid = 0 /\ _dataReady mid = false
        /\ _receiveQueue mid = _receiveQueue s'
        /\ prepareDataToSend (Some beacon) 4 mid = (true, s'))
  /\ mem s' !! tx
     = Some (beacon ++ replicate (Z.to_nat (_bufferSize s) - 4) 0)
  /\ zeroed rx s'
  /\ _txLength s' = 4 /\ _dataReady s' = true.
Proof.
  intros Hreset Htx Hrx Hne Hbtx Hltx Hbrx Hlrx Hcap.
  unfold resetSPIInterface in Hreset.
  set (s1 := set_recoveryAttempts _ s) in Hreset.
  set (s2 := if _initialized s1 then _ else s1) in Hreset.
  assert (Hs2 : same_engine_state s1 s2).
  { subst s2. destruct (_initialized s1); repeat split. }
  pose proof (init_engine_state (re_init env) (_sckPin s2) (_misoPin s2)
                (_mosiPin s2) (_csPin s2) (_mode s2) s2) as Hs3.
  pose proof (init_result_initialized (re_init env) (_sckPin s2) (_misoPin s2)
                (_mosiPin s2) (_csPin s2) (_mode s2) s2) as Hinit.
  destruct (init _ _ _ _ _ _ s2) as [result s3]. simpl in Hs3, Hinit.
  destruct result; [|discriminate].
  destruct Hs2 as (Em2 & Et2 & Er2 & Eb2 & _ & _ & _ & _ & _ & _ & _ & Ea2
                   & Eq2 & _).
  destruct Hs3 as (Em3 & Et3 & Er3 & Eb3 & _ & _ & _ & _ & _ & _ & _ & Ea3
                   & Eq3 & _).
  simpl in Em2, Et2, Er2, Eb2, Ea2, Eq2.
  assert (Hm : mem s3 = mem s) by congruence.
  assert (Ht : _txBuffer s3 = Some tx) by congruence.
  assert (Hr : _rxBuffer s3 = Some rx) by congruence.
  assert (Hb : _bufferSize s3 = _bufferSize s) by congruence.
  assert (Hq : _receiveQueue s3 = _receiveQueue s) by congruence.
  assert (H1 : _recoveryAttempts s3 = wrap32 (_recoveryAttempts s + 1))
    by congruence.
  set (n := Z.to_nat (_bufferSize s)) in *.
  match type of Hreset with
  | context [prepareDataToSend _ _ ?m] => set (mid := m) in Hreset
  end.
  assert (Hmem : mem mid
                 = <[rx := replicate n 0]> (<[tx := replicate n 0]> (mem s))).
  { subst mid. destruct (re_drain_lock env); simpl;
      rewrite Ht, Hr, Hb, Hm;
      rewrite (memset_live tx 0 _ _ btx Hbtx Hltx);
      by rewrite (memset_live rx 0 _ _ brx) by (by rewrite ?lookup_insert_ne). }
  assert (Hmid : _txBuffer mid = Some tx /\ _bufferSize mid = _bufferSize s
                 /\ _initialized mid = true /\ _txLength mid = 0
                 /\ _dataReady mid = false /\ _transactionActive mid = false
                 /\ _recoveryAttempts mid
                    = wrap32 (_recoveryAttempts s + 1)
                 /\ _receiveQueue mid
                    = (if re_drain_lock env then [] else _receiveQueue s)).
  { subst mid. destruct (re_drain_lock env); simpl;
      rewrite ?drain_queue_empty; auto 10. }
  destruct Hmid as (Mt & Mb & Mi & Ml & Md & Ma & Mr & Mq).
  assert (Hmid_tx : mem mid !! tx = Some (replicate n 0)).
  { rewrite Hmem, lookup_insert_ne by done. apply lookup_insert_eq. }
  assert (Hstage := prepareDataToSend_stages beacon 4 mid tx (replicate n 0)).
  rewrite Mb in Hstage. fold n in Hstage.
  specialize (Hstage Mi ltac:(lia) Mt Hmid_tx
                ltac:(by rewrite length_replicate)).
  cbv zeta in Hstage.
  change (length (take (Z.to_nat 4) beacon)) with 4%nat in Hstage.
  change (take (Z.to_nat 4) beacon) with beacon in Hstage.
  rewrite Hstage in Hreset. simpl in Hreset. injection Hreset as <-.
  simpl. rewrite Mr, Ma, Mq, Hmem. repeat split.
  - exists mid. unfold zeroed. rewrite Mb, Hmem. fold n.
    repeat split; try done.
    + rewrite lookup_insert_ne by done. apply lookup_insert_eq.
    + apply lookup_insert_eq.
    + by rewrite Hstage, Hmem.
  - apply lookup_insert_eq.
  - unfold zeroed. simpl. rewrite Mb. fold n.
    rewrite lookup_insert_ne by done. apply lookup_insert_eq.
Qed.

(** C2 (as the code has it): when the reinitialisation succeeds,
    [resetSPIInterface] increments the recovery counter, clears the
    transaction-active flag, zeroes the transmit and receive buffers, resets
    [_txLength] to 0 and [_dataReady] to false, empties the receive queue if
    it obtains the queue semaphore within 1000 ms and leaves the queue as it
    is otherwise, and then stages the beacon [0xAA; 0x55; 0xAA; 0x55]: in
    the end the transmit block is the beacon followed by zero bytes,
    [_txLength] is 4 and [_dataReady] is set. *)
Theorem resetSPIInterface_recovers env s s' :
  resetSPIInterface env s = (true, s') -> buffers_ok s ->
  exists tx rx,
    _txBuffer s = Some tx /\ _rxBuffer s = Some rx
    /\ _recoveryAttempts s' = wrap32 (_recoveryAttempts s + 1)
    /\ _transactionActive s' = false
    /\ _receiveQueue s'
       = (if re_drain_lock env then [] else _receiveQueue s)
    /\ (exists mid,
          zeroed tx mid /\ zeroed rx mid
          /\ _txLength mid = 0 /\ _dataReady mid = false
          /\ _receiveQueue mid = _receiveQueue s'
          /\ prepareDataToSend (Some beacon) 4 mid = (true, s'))
    /\ mem s' !! tx
       = Some (beacon ++ replicate (Z.to_nat (_bufferSize s) - 4) 0)
    /\ zeroed rx s'
    /\ _txLength s' = 4 /\ _dataReady s' = true.
Proof.
  intros Hreset [(tx & Htx & btx & Hbtx & Hltx) (rx & Hrx & brx & Hbrx & Hlrx)
                   Hapart Hcap].
  exists tx, rx. split; [done|]. split; [done|].
  eapply resetSPIInterface_success; try done. congruence.
Qed.

Lemma resetSPIInterface_recovers_witness :
  exists tx rx,
    _txBuffer Examples.full = Some tx /\ _rxBuffer Examples.full = Some rx
    /\ _receiveQueue (snd (resetSPIInterface (Examples.reset_ok true)
                             Examples.full)) = []
    /\ mem (snd (resetSPIInterface (Examples.reset_ok true) Examples.full))
         !! tx
       = Some (beacon
               ++ replicate (Z.to_nat (_bufferSize Examples.full) - 4) 0).
Proof.
  destruct (resetSPIInterface_recovers (Examples.reset_ok true) Examples.full
              (snd (resetSPIInterface (Examples.reset_ok true)
                      Examples.full)))
    as (tx & rx & Htx & Hrx & _ & _ & Hq & _ & Hm & _).
  - vm_compute. reflexivity.
  - apply buffers_ok_full.
  - exists tx, rx.
    split; [exact Htx|]. split; [exact Hrx|]. split; [exact Hq | exact Hm].
Defined.

(** C2 as stated fails: a recovery that succeeds while a task holds the
    queue semaphore for more than 1000 ms leaves the ten queued packets in
    the queue. *)
Lemma resetSPIInterface_keeps_queue_without_lock :
  fst (resetSPIInterface (Examples.reset_ok false) Examples.full) = true
  /\ length (_receiveQueue
               (snd (resetSPIInterface (Examples.reset_ok false)
                       Examples.full))) = 10%nat.
Proof. vm_compute. split; reflexivity. Qed.

(** ** Buffer pool: the two scans *)

Section Scans.

Implicit Types (pool : list SPIBuffer) (b : SPIBuffer) (p buffer : ptr).

Lemma getBuffer_scan_None pool :
  getBuffer_scan pool = None
  <-> (forall b, b ∈ pool -> data b <> None -> inUse b = true).
Proof.
  induction pool as [|b0 pool IH]; simpl.
  - split; [|done]. intros _ b Hb. by apply elem_of_nil in Hb.
  - destruct (inUse b0) eqn:Huse, (data b0) as [a|] eqn:Hdata; simpl;
      try (rewrite bool_decide_true by done);
      try (rewrite bool_decide_false by (intros H; by apply H)).
    all: try (destruct (getBuffer_scan pool) as [[p pool']|] eqn:Hscan).
    all: split; try done.
    all: try (intros H;
              assert (Hrest : forall b, b ∈ pool -> data b <> None
                                        -> inUse b = true)
                by (intros b Hb; apply H; by right);
              apply IH in Hrest; discriminate).
    all: try (intros _ b Hb Hd; apply elem_of_cons in Hb as [->|Hb];
              [congruence | by apply IH]).
    intros H. specialize (H b0 ltac:(left) ltac:(congruence)). congruence.
Qed.

Lemma getBuffer_scan_data pool p pool' :
  getBuffer_scan pool = Some (p, pool') -> map data pool' = map data pool.
Proof.
  revert p pool'. induction pool as [|b0 pool IH]; intros p pool'; [done|].
  simpl. destruct (negb (inUse b0) && bool_decide (data b0 <> None)).
  - by intros [= <- <-].
  - destruct (getBuffer_scan pool) as [[q rest]|]; [|done].
    intros [= <- <-]. simpl. f_equal. by eapply IH.
Qed.

Lemma getBuffer_scan_found pool p pool' :
  getBuffer_scan pool = Some (p, pool') ->
  p <> None /\ mkBuffer p false ∈ pool /\ mkBuffer p true ∈ pool'.
Proof.
  revert p pool'. induction pool as [|b0 pool IH]; intros p pool'; [done|].
  simpl.
  destruct (negb (inUse b0) && bool_decide (data b0 <> None)) eqn:Hfree.
  - intros [= <- <-]. apply andb_true_iff in Hfree as [Huse Hdata].
    apply bool_decide_eq_true in Hdata. apply negb_true_iff in Huse.
    split; [done|]. split; [|by left].
    destruct b0 as [d u]; simpl in *. subst u. by left.
  - destruct (getBuffer_scan pool) as [[q rest]|]; [|done].
    intros [= <- <-]. destruct (IH _ _ eq_refl) as (? & ? & ?).
    split; [done|]. split; by right.
Qed.

Lemma getBuffer_scan_elem pool p pool' b :
  getBuffer_scan pool = Some (p, pool') ->
  b ∈ pool' -> b ∈ pool \/ b = mkBuffer p true.
Proof.
  revert p pool'. induction pool as [|b0 pool IH]; intros p pool'; [done|].
  simpl. destruct (negb (inUse b0) && bool_decide (data b0 <> None)).
  - intros [= <- <-] [->|Hb]%elem_of_cons; [by right|]. left. by right.
  - destruct (getBuffer_scan pool) as [[q rest]|]; [|done].
    intros [= <- <-] [->|Hb]%elem_of_cons; [left; by left|].
    destruct (IH _ _ eq_refl Hb); [left; by right | by right].
Qed.

Lemma getBuffer_scan_keep pool p pool' b :
  getBuffer_scan pool = Some (p, pool') ->
  b ∈ pool -> data b <> p -> b ∈ pool'.
Proof.
  revert p pool'. induction pool as [|b0 pool IH]; intros p pool'; [done|].
  simpl. destruct (negb (inUse b0) && bool_decide (data b0 <> None)).
  - intros [= <- <-] [->|Hb]%elem_of_cons Hd; [done | by right].
  - destruct (getBuffer_scan pool) as [[q rest]|]; [|done].
    intros [= <- <-] [->|Hb]%elem_of_cons Hd; [by left|].
    right. by eapply IH.
Qed.

Lemma returnBuffer_scan_None buffer pool :
  returnBuffer_scan buffer pool = None
  <-> (forall b, b ∈ pool -> data b <> buffer).
Proof.
  induction pool as [|b0 pool IH]; simpl.
  - split; [|done]. intros _ b Hb. by apply elem_of_nil in Hb.
  - destruct (decide (data b0 = buffer)) as [Heq|Hne].
    + split; [done|]. intros H. destruct (H b0); [by left | done].
    + destruct (returnBuffer_scan buffer pool) as [rest|].
      * split; [done|]. intros H.
        assert (Hrest : forall b, b ∈ pool -> data b <> buffer)
          by (intros b Hb; apply H; by right).
        apply IH in Hrest. discriminate.
      * split; [|done]. intros _ b [->|Hb]%elem_of_cons; [done|].
        by apply IH.
Qed.

Lemma returnBuffer_scan_data buffer pool pool' :
  returnBuffer_scan buffer pool = Some pool' ->
  map data pool' = map data pool.
Proof.
  revert pool'. induction pool as [|b0 pool IH]; intros pool'; [done|].
  simpl. destruct (decide (data b0 = buffer)).
  - by intros [= <-].
  - destruct (returnBuffer_scan buffer pool) as [rest|]; [|done].
    intros [= <-]. simpl. f_equal. by apply IH.
Qed.

Lemma returnBuffer_scan_mark buffer pool pool' :
  returnBuffer_scan buffer pool = Some pool' ->
  mkBuffer buffer false ∈ pool'.
Proof.
  revert pool'. induction pool as [|b0 pool IH]; intros pool'; [done|].
  simpl. destruct (decide (data b0 = buffer)) as [->|].
  - intros [= <-]. by left.
  - destruct (returnBuffer_scan buffer pool) as [rest|]; [|done].
    intros [= <-]. right. by apply IH.
Qed.

Lemma returnBuffer_scan_elem buffer pool pool' b :
  returnBuffer_scan buffer pool = Some pool' ->
  b ∈ pool' -> b ∈ pool \/ b = mkBuffer buffer false.
Proof.
  revert pool'. induction pool as [|b0 pool IH]; intros pool'; [done|].
  simpl. destruct (decide (data b0 = buffer)) as [->|].
  - intros [= <-] [->|Hb]%elem_of_cons; [by right|]. left. by right.
  - destruct (returnBuffer_scan buffer pool) as [rest|]; [|done].
    intros [= <-] [->|Hb]%elem_of_cons; [left; by left|].
    destruct (IH _ eq_refl Hb); [left; by right | by right].
Qed.

Lemma returnBuffer_scan_keep buffer pool pool' b :
  returnBuffer_scan buffer pool = Some pool' ->
  b ∈ pool -> inUse b = false -> b ∈ pool'.
Proof.
  revert pool'. induction pool as [|b0 pool IH]; intros pool'; [done|].
  simpl. destruct (decide (data b0 = buffer)) as [Heq|].
  - intros [= <-] [->|Hb]%elem_of_cons Hfree; [|by right].
    destruct b0 as [d u]; simpl in *. subst u. by left.
  - destruct (returnBuffer_scan buffer pool) as [rest|]; [|done].
    intros [= <-] [->|Hb]%elem_of_cons Hfree; [by left|].
    right. by apply IH.
Qed.

(** Distinct buffers: an address names one entry. *)
Lemma pool_entry_unique pool b b' a :
  NoDup (omap data pool) -> b ∈ pool -> b' ∈ pool ->
  data b = Some a -> data b' = Some a -> b = b'.
Proof.
  induction pool as [|b0 pool IH]; intros Hnd Hb Hb' Hd Hd'.
  - by apply elem_of_nil in Hb.
  - assert (Hin : forall c, c ∈ pool -> data c = Some a
                            -> a ∈ omap data pool).
    { intros c Hc Hdc. apply list_elem_of_omap. by exists c. }
    simpl in Hnd. apply elem_of_cons in Hb as [->|Hb];
      apply elem_of_cons in Hb' as [->|Hb']; try done.
    + rewrite Hd in Hnd. apply NoDup_cons in Hnd as [Hnot _].
      destruct Hnot. by eapply Hin.
    + rewrite Hd' in Hnd. apply NoDup_cons in Hnd as [Hnot _].
      destruct Hnot. by eapply Hin.
    + apply IH; try done. destruct (data b0); [|done].
      by apply NoDup_cons in Hnd as [_ ?].
Qed.

Lemma omap_data_eq pool pool' :
  map data pool' = map data pool -> omap data pool' = omap data pool.
Proof.
  revert pool'. induction pool as [|b0 pool IH]; intros [|b1 pool'] H;
    try done.
  injection H as H1 H2. csimpl. by rewrite H1, (IH _ H2).
Qed.

End Scans.

(** ** Memory operations, block by block *)

Lemma heap_caps_malloc_keeps o size (h : heap) p h' a blk :
  heap_caps_malloc o size h = (p, h') ->
  h !! a = Some blk -> h' !! a = Some blk.
Proof.
  unfold heap_caps_malloc. destruct o as [[a0 junk]|]; [|by intros [= <- <-]].
  destruct (decide (h !! a0 = None)) as [Hfresh|]; [|by intros [= <- <-]].
  intros [= <- <-] Ha. rewrite lookup_insert_ne; [done|]. congruence.
Qed.

Lemma heap_caps_malloc_fresh o size (h : heap) a h' :
  heap_caps_malloc o size h = (Some a, h') ->
  h !! a = None /\ h' = <[a := resize (Z.to_nat size) 0 (default [] (snd <$> o))]> h.
Proof.
  unfold heap_caps_malloc. destruct o as [[a0 junk]|]; [|done].
  destruct (decide (h !! a0 = None)) as [Hfresh|]; [|done].
  by intros [= <- <-].
Qed.

Lemma heap_caps_malloc_null o size (h : heap) h' :
  heap_caps_malloc o size h = (None, h') -> h' = h.
Proof.
  unfold heap_caps_malloc. destruct o as [[a0 junk]|]; [|by intros [= <-]].
  destruct (decide (h !! a0 = None)); [done | by intros [= <-]].
Qed.

Lemma memset_lookup p c n (h : heap) a :
  memset p c n h !! a
  = if decide (p = Some a)
    then store_bytes (replicate (Z.to_nat n) c) <$> h !! a
    else h !! a.
Proof.
  unfold memset. destruct p as [a0|].
  - destruct (decide (Some a0 = Some a)) as [[= ->]|Hne].
    + apply lookup_alter_eq.
    + apply lookup_alter_ne. congruence.
  - by rewrite decide_False.
Qed.

Lemma memcpy_lookup p src n (h : heap) a :
  memcpy p src n h !! a
  = if decide (p = Some a)
    then store_bytes (take (Z.to_nat n) src) <$> h !! a
    else h !! a.
Proof.
  unfold memcpy. destruct p as [a0|].
  - destruct (decide (Some a0 = Some a)) as [[= ->]|Hne].
    + apply lookup_alter_eq.
    + apply lookup_alter_ne. congruence.
  - by rewrite decide_False.
Qed.

Lemma heap_caps_free_lookup p (h : heap) a :
  p <> Some a -> heap_caps_free p h !! a = h !! a.
Proof.
  unfold heap_caps_free. destruct p as [a0|]; [|done].
  intros Hne. apply lookup_delete_ne. congruence.
Qed.

(** ** Buffer pool: the invariant *)

Lemma free_in_pool_true buffer s :
  free_in_pool buffer s = true
  <-> exists b, b ∈ _bufferPool s /\ data b = buffer /\ inUse b = false.
Proof.
  unfold free_in_pool. rewrite existsb_exists. split.
  - intros (b & Hb & Hc). apply andb_true_iff in Hc as [Hd Hu].
    exists b. rewrite list_elem_of_In. apply bool_decide_eq_true in Hd.
    apply negb_true_iff in Hu. done.
  - intros (b & Hb & Hd & Hu). exists b. rewrite <- list_elem_of_In.
    split; [done|]. rewrite Hu. by rewrite bool_decide_true.
Qed.

Lemma pool_data_transfer (pool pool' : list SPIBuffer) b :
  map data pool' = map data pool -> b ∈ pool' ->
  exists b0, b0 ∈ pool /\ data b0 = data b.
Proof.
  intros Hmap Hb.
  assert (Hin : data b ∈ map data pool).
  { rewrite <- Hmap. apply list_elem_of_fmap. by exists b. }
  apply list_elem_of_fmap in Hin as (b0 & Hd & Hb0). by exists b0.
Qed.

Lemma pool_inv_getBuffer o s :
  pool_inv s -> pool_inv (snd (getBuffer o s)).
Proof.
  intros [Hlive Hdistinct Hzero]. unfold getBuffer.
  destruct (getBuffer_scan (_bufferPool s)) as [[p pool']|] eqn:Hscan.
  - pose proof (getBuffer_scan_data _ _ _ Hscan) as Hdata.
    split; simpl.
    + intros b a Hb Hd. unfold live. simpl in *.
      destruct (pool_data_transfer _ _ _ Hdata Hb) as (b0 & Hb0 & Hd0).
      apply (Hlive b0 a Hb0). congruence.
    + by rewrite (omap_data_eq _ _ Hdata).
    + intros b a Hb Hd Hfree.
      destruct (getBuffer_scan_elem _ _ _ _ Hscan Hb) as [Hold| ->];
        [|done].
      apply (Hzero b a Hold Hd Hfree).
  - destruct (heap_caps_malloc o (_bufferSize s) (mem s)) as [p h'] eqn:Hm.
    split; simpl.
    + intros b a Hb Hd. unfold live. simpl in *.
      destruct (Hlive b a Hb Hd) as (blk & Hblk & Hlen).
      exists blk. split; [|done]. by eapply heap_caps_malloc_keeps.
    + done.
    + intros b a Hb Hd Hfree. unfold zeroed. simpl.
      eapply heap_caps_malloc_keeps; [done|]. by apply (Hzero b).
Qed.

Lemma pool_inv_returnBuffer buffer s :
  pool_inv s -> pool_inv (returnBuffer buffer s).
Proof.
  intros [Hlive Hdistinct Hzero]. unfold returnBuffer.
  destruct (returnBuffer_scan buffer (_bufferPool s)) as [pool'|] eqn:Hscan.
  - pose proof (returnBuffer_scan_data _ _ _ Hscan) as Hdata.
    assert (Hlive' : forall b a, b ∈ pool' -> data b = Some a ->
              exists blk, mem s !! a = Some blk
                          /\ length blk = Z.to_nat (_bufferSize s)).
    { intros b a Hb Hd. fold (live a s).
      destruct (pool_data_transfer _ _ _ Hdata Hb) as (b0 & Hb0 & Hd0).
      apply (Hlive b0 a Hb0). congruence. }
    split; simpl.
    + intros b a Hb Hd. unfold live. simpl in *.
      destruct (Hlive' b a Hb Hd) as (blk & Hblk & Hlen).
      rewrite memset_lookup, Hblk. case_decide.
      * eexists. split; [done|]. by rewrite length_store_bytes.
      * by exists blk.
    + by rewrite (omap_data_eq _ _ Hdata).
    + intros b a Hb Hd Hfree. unfold zeroed. simpl.
      destruct (Hlive' b a Hb Hd) as (blk & Hblk & Hlen).
      rewrite memset_lookup, Hblk. case_decide as Hp.
      * simpl. f_equal. apply store_bytes_whole.
        by rewrite length_replicate.
      * destruct (returnBuffer_scan_elem _ _ _ _ Hscan Hb) as [Hold| ->].
        -- rewrite <- Hblk. by apply (Hzero b).
        -- simpl in Hd. congruence.
  - assert (Hnot : forall b, b ∈ _bufferPool s -> data b <> buffer)
      by (by apply returnBuffer_scan_None).
    split; simpl.
    + intros b a Hb Hd. unfold live. simpl in *.
      rewrite heap_caps_free_lookup; [by apply (Hlive b)|].
      intros ->. by apply (Hnot b).
    + done.
    + intros b a Hb Hd Hfree. unfold zeroed. simpl.
      rewrite heap_caps_free_lookup; [by apply (Hzero b)|].
      intros ->. by apply (Hnot b).
Qed.

Lemma pool_inv_fill buffer bytes n s :
  pool_inv s -> free_in_pool buffer s = false ->
  pool_inv (set_mem (memcpy buffer bytes n (mem s)) s).
Proof.
  intros [Hlive Hdistinct Hzero] Hheld. split; simpl.
  - intros b a Hb Hd. unfold live. simpl in *.
    destruct (Hlive b a Hb Hd) as (blk & Hblk & Hlen).
    rewrite memcpy_lookup, Hblk. case_decide.
    + eexists. split; [done|]. by rewrite length_store_bytes.
    + by exists blk.
  - done.
  - intros b a Hb Hd Hfree. unfold zeroed. simpl.
    rewrite memcpy_lookup. case_decide as Hp; [|by apply (Hzero b)].
    assert (free_in_pool buffer s = true); [|congruence].
    apply free_in_pool_true. exists b. by subst buffer.
Qed.

(** The pool loop of the constructor: blocks that were live stay as they
    are, and every entry is free with a zeroed block of its own that was
    not live before. *)
Lemma construct_pool_spec env size n i (h : heap) pool h' :
  construct_pool env size n i h = (pool, h') ->
  (forall a blk, h !! a = Some blk -> h' !! a = Some blk)
  /\ (forall b, b ∈ pool -> inUse b = false)
  /\ (forall b a, b ∈ pool -> data b = Some a ->
        h !! a = None /\ h' !! a = Some (replicate (Z.to_nat size) 0))
  /\ NoDup (omap data pool).
Proof.
  revert i h pool h'. induction n as [|n IH]; intros i h pool h'; simpl.
  { intros [= <- <-]. repeat split; try done.
    - intros b Hb. by apply elem_of_nil in Hb.
    - by apply elem_of_nil in H.
    - by apply elem_of_nil in H.
    - constructor. }
  destruct (heap_caps_malloc (env i) size h) as [p h1] eqn:Hm.
  set (h2 := match p with Some _ => memset p 0 size h1 | None => h1 end).
  destruct (construct_pool env size n (S i) h2) as [rest h3] eqn:Hrest.
  intros [= <- <-].
  destruct (IH _ _ _ _ Hrest) as (Hkeep & Hfree & Hblocks & Hnd).
  assert (Hh2 : forall a blk, h !! a = Some blk -> h2 !! a = Some blk).
  { intros a blk Ha. subst h2. destruct p as [a0|].
    - destruct (heap_caps_malloc_fresh _ _ _ _ _ Hm) as [Hfresh ->].
      rewrite memset_lookup, decide_False by congruence.
      rewrite lookup_insert_ne by congruence. done.
    - by rewrite (heap_caps_malloc_null _ _ _ _ Hm). }
  assert (Hnew : forall a, p = Some a ->
            h !! a = None /\ h2 !! a = Some (replicate (Z.to_nat size) 0)).
  { intros a ->. destruct (heap_caps_malloc_fresh _ _ _ _ _ Hm) as [Hfresh ->].
    split; [done|]. subst h2.
    rewrite memset_lookup, decide_True, lookup_insert_eq by done. simpl.
    f_equal. apply store_bytes_whole.
    by rewrite length_replicate, length_resize. }
  assert (Hold : forall a, h2 !! a = None -> h !! a = None).
  { intros a Ha. destruct (h !! a) as [blk|] eqn:E; [|done].
    apply Hh2 in E. congruence. }
  split; [|split; [|split]].
  - intros a blk Ha. by apply Hkeep, Hh2.
  - intros b [->|Hb]%elem_of_cons; [done | by apply Hfree].
  - intros b a [->|Hb]%elem_of_cons Hd.
    + simpl in Hd. destruct (Hnew a Hd) as [? ?]. split; [done|].
      by apply Hkeep.
    + destruct (Hblocks b a Hb Hd) as [? ?]. split; [by apply Hold | done].
  - csimpl. destruct p as [a0|]; [|done]. apply NoDup_cons. split; [|done].
    intros (b & Hb & Hd)%list_elem_of_omap.
    destruct (Hblocks b a0 Hb Hd) as [E _].
    destruct (Hnew a0 eq_refl) as [_ E']. congruence.
Qed.

(** The constructor establishes the invariant of the pool, whatever the
    allocator answers. *)
Lemma pool_inv_constructor env h0 : pool_inv (constructor env h0).
Proof.
  unfold constructor. cbv zeta. generalize SPI_BUFFER_SIZE. intros size.
  destruct (construct_pool _ _ _ _ _) as [pool h1] eqn:Hpool.
  destruct (heap_caps_malloc _ _ h1) as [tx h2] eqn:Htx.
  destruct (heap_caps_malloc _ _ h2) as [rx h3] eqn:Hrx.
  destruct (construct_pool_spec _ _ _ _ _ _ _ Hpool)
    as (_ & Hfree & Hblocks & Hnd).
  assert (Hfinal : forall b a, b ∈ pool -> data b = Some a ->
            memset rx 0 size (memset tx 0 size h3) !! a
            = Some (replicate (Z.to_nat size) 0)).
  { intros b a Hb Hd. destruct (Hblocks b a Hb Hd) as [_ Ha].
    pose proof (heap_caps_malloc_keeps _ _ _ _ _ _ _ Htx Ha) as Ha2.
    pose proof (heap_caps_malloc_keeps _ _ _ _ _ _ _ Hrx Ha2) as Ha3.
    rewrite !memset_lookup, Ha3.
    assert (Hz : store_bytes (replicate (Z.to_nat size) 0)
                   (replicate (Z.to_nat size) 0)
                 = replicate (Z.to_nat size) 0)
      by (apply store_bytes_whole; by rewrite !length_replicate).
    repeat case_decide; simpl; by rewrite ?Hz. }
  split.
  - intros b a Hb Hd. unfold live. cbn [mem _bufferSize _bufferPool] in *.
    eexists. split; [by eapply Hfinal|]. by rewrite length_replicate.
  - done.
  - intros b a Hb Hd _. unfold zeroed. cbn [mem _bufferSize _bufferPool] in *.
    by eapply Hfinal.
Qed.

(** The invariant holds along every run of well-behaved clients. *)
Lemma pool_inv_run calls s :
  pool_inv s -> pool_clients_ok calls s = true -> pool_inv (pool_run calls s).
Proof.
  revert s. induction calls as [|c calls IH]; intros s Hinv Hok; [done|].
  simpl in *. apply andb_true_iff in Hok as [Hc Hrest].
  apply IH; [|done]. destruct c as [o|buffer|buffer bytes n]; simpl.
  - by apply pool_inv_getBuffer.
  - by apply pool_inv_returnBuffer.
  - apply pool_inv_fill; [done|]. by apply negb_true_iff.
Qed.

(** Runs that only ask for buffers and give them back are well behaved. *)
Lemma pool_clients_ok_get_return calls s :
  (forall buffer bytes n, PoolFill buffer bytes n ∉ calls) ->
  pool_clients_ok calls s = true.
Proof.
  revert s. induction calls as [|c calls IH]; intros s Hno; [done|].
  simpl. rewrite IH.
  - destruct c as [o|buffer|buffer bytes n]; try done.
    destruct (Hno buffer bytes n). by left.
  - intros buffer bytes n Hin. apply (Hno buffer bytes n). by right.
Qed.

(** A free buffer stays free, and zeroed, for as long as no [getBuffer]
    hands it out. *)
Lemma free_until_handed_out calls s a :
  pool_inv s -> mkBuffer (Some a) false ∈ _bufferPool s ->
  pool_clients_ok calls s = true ->
  Some a ∉ pool_handed_out calls s ->
  mkBuffer (Some a) false ∈ _bufferPool (pool_run calls s)
  /\ zeroed a (pool_run calls s).
Proof.
  revert s. induction calls as [|c calls IH]; intros s Hinv Hfree Hok Hout.
  { simpl. split; [done|]. by apply (pi_zero s Hinv _ a Hfree). }
  simpl in *. apply andb_true_iff in Hok as [Hc Hrest].
  apply not_elem_of_app in Hout as [Hnow Hlater].
  apply IH; try done.
  - destruct c as [o|buffer|buffer bytes n]; simpl.
    + by apply pool_inv_getBuffer.
    + by apply pool_inv_returnBuffer.
    + apply pool_inv_fill; [done|]. by apply negb_true_iff.
  - destruct c as [o|buffer|buffer bytes n]; simpl; [| |done].
    + unfold getBuffer in *.
      destruct (getBuffer_scan (_bufferPool s)) as [[p pool']|] eqn:Hscan.
      * simpl in *. eapply getBuffer_scan_keep; [done..|].
        simpl. intros <-. apply Hnow. by left.
      * by destruct (heap_caps_malloc _ _ _).
    + unfold returnBuffer.
      destruct (returnBuffer_scan buffer (_bufferPool s)) as [pool'|]
        eqn:Hscan; simpl; [|done].
      by eapply returnBuffer_scan_keep.
Qed.

Lemma returnBuffer_frees a s :
  pool_buffer a s ->
  mkBuffer (Some a) false ∈ _bufferPool (returnBuffer (Some a) s).
Proof.
  intros (b & Hb & Hd). unfold returnBuffer.
  destruct (returnBuffer_scan (Some a) (_bufferPool s)) as [pool'|] eqn:Hscan.
  - simpl. by eapply returnBuffer_scan_mark.
  - exfalso. by eapply returnBuffer_scan_None.
Qed.

(** A buffer that [getBuffer] returns is either a free entry of the pool or
    an allocation that no pool entry refers to. *)
Lemma getBuffer_not_in_use o s a b :
  pool_inv s -> fst (getBuffer o s) = Some a ->
  b ∈ _bufferPool s -> data b = Some a -> inUse b = false.
Proof.
  intros Hinv Hget Hb Hd. unfold getBuffer in Hget.
  destruct (getBuffer_scan (_bufferPool s)) as [[p pool']|] eqn:Hscan.
  - simpl in Hget. subst p.
    destruct (getBuffer_scan_found _ _ _ Hscan) as (_ & Hfree & _).
    by rewrite (pool_entry_unique _ _ _ a (pi_distinct s Hinv) Hb Hfree Hd).
  - destruct (heap_caps_malloc _ _ _) as [p h'] eqn:Hm. simpl in Hget.
    subst p. destruct (heap_caps_malloc_fresh _ _ _ _ _ Hm) as [Hfresh _].
    destruct (pi_live s Hinv b a Hb Hd) as (blk & Hblk & _). congruence.
Qed.

(** A buffer that is held (its block is live, and the pool entry that has
    it, if there is one, is marked in use) is handed out by no [getBuffer]
    for as long as it is not passed to [returnBuffer]. *)
Lemma held_not_handed_out calls s a :
  pool_inv s -> mem s !! a <> None ->
  (forall b, b ∈ _bufferPool s -> data b = Some a -> inUse b = true) ->
  pool_clients_ok calls s = true -> PoolReturn (Some a) ∉ calls ->
  Some a ∉ pool_handed_out calls s.
Proof.
  revert s. induction calls as [|c calls IH];
    intros s Hinv Hlive Hheld Hok Hret.
  { apply not_elem_of_nil. }
  simpl in *. apply andb_true_iff in Hok as [Hc Hrest].
  apply not_elem_of_cons in Hret as [Hc' Hret].
  apply not_elem_of_app. split.
  - destruct c as [o|buffer|buffer bytes n]; try apply not_elem_of_nil.
    intros Hin. apply list_elem_of_singleton in Hin. symmetry in Hin.
    unfold getBuffer in Hin.
    destruct (getBuffer_scan (_bufferPool s)) as [[p pool']|] eqn:Hscan.
    + simpl in Hin. subst p.
      destruct (getBuffer_scan_found _ _ _ Hscan) as (_ & Hfree & _).
      by specialize (Hheld _ Hfree eq_refl).
    + destruct (heap_caps_malloc _ _ _) as [p h'] eqn:Hm. simpl in Hin.
      subst p. by destruct (heap_caps_malloc_fresh _ _ _ _ _ Hm).
  - apply IH; try done.
    + destruct c as [o|buffer|buffer bytes n]; simpl.
      * by apply pool_inv_getBuffer.
      * by apply pool_inv_returnBuffer.
      * apply pool_inv_fill; [done|]. by apply negb_true_iff.
    + destruct c as [o|buffer|buffer bytes n]; simpl.
      * unfold getBuffer.
        destruct (getBuffer_scan (_bufferPool s)) as [[p pool']|];
          [done|].
        destruct (heap_caps_malloc _ _ _) as [p h'] eqn:Hm. simpl.
        destruct (mem s !! a) as [blk|] eqn:Hblk; [|done].
        by rewrite (heap_caps_malloc_keeps _ _ _ _ _ _ _ Hm Hblk).
      * unfold returnBuffer.
        destruct (returnBuffer_scan buffer (_bufferPool s)) as [pool'|];
          simpl.
        -- rewrite memset_lookup. case_decide; [congruence|done].
        -- rewrite heap_caps_free_lookup; [done|]. congruence.
      * rewrite memcpy_lookup. case_decide; [|done].
        by destruct (mem s !! a).
    + destruct c as [o|buffer|buffer bytes n]; simpl; [| |done].
      * unfold getBuffer.
        destruct (getBuffer_scan (_bufferPool s)) as [[p pool']|] eqn:Hscan.
        -- simpl. intros b Hb Hd.
           destruct (getBuffer_scan_elem _ _ _ _ Hscan Hb) as [Hold| ->];
             [by apply Hheld | done].
        -- by destruct (heap_caps_malloc _ _ _).
      * unfold returnBuffer.
        destruct (returnBuffer_scan buffer (_bufferPool s)) as [pool'|]
          eqn:Hscan; simpl; [|done].
        intros b Hb Hd.
        destruct (returnBuffer_scan_elem _ _ _ _ Hscan Hb) as [Hold| ->];
          [by apply Hheld|].
        simpl in Hd. congruence.
Qed.

(** The buffer [getBuffer] has just returned is held. *)
Lemma getBuffer_held o s a :
  pool_inv s -> fst (getBuffer o s) = Some a ->
  mem (snd (getBuffer o s)) !! a <> None
  /\ (forall b, b ∈ _bufferPool (snd (getBuffer o s)) -> data b = Some a ->
        inUse b = true)
  /\ (pool_buffer a s ->
      mkBuffer (Some a) true ∈ _bufferPool (snd (getBuffer o s))).
Proof.
  intros Hinv Hget.
  pose proof (pool_inv_getBuffer o s Hinv) as Hinv'.
  unfold getBuffer in *.
  destruct (getBuffer_scan (_bufferPool s)) as [[p pool']|] eqn:Hscan.
  - simpl in *. subst p.
    destruct (getBuffer_scan_found _ _ _ Hscan) as (_ & Hfree & Hmarked).
    split; [|split; [|done]].
    + destruct (pi_live s Hinv _ a Hfree eq_refl) as (blk & Hblk & _).
      by rewrite Hblk.
    + intros b Hb Hd.
      by rewrite (pool_entry_unique _ _ _ a (pi_distinct _ Hinv') Hb
                    Hmarked Hd eq_refl).
  - destruct (heap_caps_malloc _ _ _) as [p h'] eqn:Hm. simpl in *.
    subst p. destruct (heap_caps_malloc_fresh _ _ _ _ _ Hm) as [Hfresh ->].
    assert (Hnone : forall b, b ∈ _bufferPool s -> data b = Some a -> False).
    { intros b Hb Hd. destruct (pi_live s Hinv b a Hb Hd) as (blk & Hblk & _).
      congruence. }
    split; [by rewrite lookup_insert_eq|]. split.
    + intros b Hb Hd. by destruct (Hnone b Hb Hd).
    + intros (b & Hb & Hd). by destruct (Hnone b Hb Hd).
Qed.

(** C8: along every finite run of [getBuffer] and [returnBuffer] calls
    from the state the constructor leaves, with clients copying only into
    buffers they hold, [getBuffer] never returns the buffer of a pool entry
    whose in-use flag is set.  The buffer it returns has one owner: the
    pool entry that has it is marked in use by the call, and no [getBuffer]
    of any further run of calls returns that buffer unless the run passes
    it to [returnBuffer] first.  Once a pool buffer has been passed to
    [returnBuffer], it holds [_bufferSize] zero bytes (and its entry is
    free) after every further run of calls in which no [getBuffer] returns
    it. *)
Theorem pool_discipline env h0 calls :
  pool_clients_ok calls (constructor env h0) = true ->
  let s := pool_run calls (constructor env h0) in
  (forall o a b,
     fst (getBuffer o s) = Some a ->
     b ∈ _bufferPool s -> data b = Some a -> inUse b = false)
  /\ (forall o a,
        fst (getBuffer o s) = Some a ->
        (pool_buffer a s ->
         mkBuffer (Some a) true ∈ _bufferPool (snd (getBuffer o s)))
        /\ forall later,
             pool_clients_ok later (snd (getBuffer o s)) = true ->
             PoolReturn (Some a) ∉ later ->
             Some a ∉ pool_handed_out later (snd (getBuffer o s)))
  /\ (forall a later,
        pool_buffer a s ->
        pool_clients_ok later (returnBuffer (Some a) s) = true ->
        Some a ∉ pool_handed_out later (returnBuffer (Some a) s) ->
        mkBuffer (Some a) false
          ∈ _bufferPool (pool_run later (returnBuffer (Some a) s))
        /\ zeroed a (pool_run later (returnBuffer (Some a) s))).
Proof.
  intros Hok s.
  assert (Hinv : pool_inv s)
    by (apply pool_inv_run; [apply pool_inv_constructor | done]).
  split; [|split].
  - intros o a b. by apply getBuffer_not_in_use.
  - intros o a Hget.
    destruct (getBuffer_held o s a Hinv Hget) as (Hlive & Hheld & Hmarked).
    split; [done|]. intros later Hlater Hret.
    apply held_not_handed_out; try done. by apply pool_inv_getBuffer.
  - intros a later Hpool Hlater Hout.
    apply free_until_handed_out; try done.
    + by apply pool_inv_returnBuffer.
    + by apply returnBuffer_frees.
Qed.
Lemma pool_discipline_witness :
  zeroed 1%N
    (pool_run Examples.second_client
       (returnBuffer (Some 1%N)
          (pool_run Examples.two_clients
             (constructor Examples.ctor_env ∅)))).
Proof.
  destruct (pool_discipline Examples.ctor_env ∅ Examples.two_clients)
    as (_ & _ & H).
  - vm_compute. reflexivity.
  - apply H.
    + exists (mkBuffer (Some 1%N) true). split; [|reflexivity].
      vm_compute. left.
    + vm_compute. reflexivity.
    + vm_compute. apply not_elem_of_nil.
Defined.

(** C7 (as the code has it): when no pool buffer is free, [getBuffer] hands
    out no pool buffer and leaves the pool as it is; it returns what an
    ad-hoc allocation of [_bufferSize] bytes returns, which is null only if
    that allocation fails. *)
Theorem getBuffer_exhausted_allocates o s :
  pool_exhausted s -> pool_live s ->
  getBuffer o s
  = (fst (heap_caps_malloc o (_bufferSize s) (mem s)),
     set_mem (snd (heap_caps_malloc o (_bufferSize s) (mem s))) s)
  /\ _bufferPool (snd (getBuffer o s)) = _bufferPool s
  /\ (forall a junk, o = Some (a, junk) -> mem s !! a = None ->
        fst (getBuffer o s) = Some a)
  /\ (forall a, fst (getBuffer o s) = Some a -> ~ pool_buffer a s).
Proof.
  intros Hfull Hlive. apply getBuffer_scan_None in Hfull.
  unfold getBuffer. rewrite Hfull.
  destruct (heap_caps_malloc o (_bufferSize s) (mem s)) as [p h'] eqn:Hm.
  simpl. repeat split.
  - intros a junk -> Hfresh. unfold heap_caps_malloc in Hm.
    rewrite decide_True in Hm by done. congruence.
  - intros a -> (b & Hb & Hd).
    destruct (heap_caps_malloc_fresh _ _ _ _ _ Hm) as [Hfresh _].
    destruct (Hlive b a Hb Hd) as (blk & Hblk & _). congruence.
Qed.

Lemma pool_exhausted_forallb s :
  forallb (fun b => inUse b || bool_decide (data b = None)) (_bufferPool s)
  = true -> pool_exhausted s.
Proof.
  rewrite forallb_forall. intros H b Hb Hd.
  apply list_elem_of_In, H, orb_true_iff in Hb as [Hu|Hn]; [done|].
  by apply bool_decide_eq_true in Hn.
Qed.

Lemma getBuffer_exhausted_allocates_witness :
  fst (getBuffer (Some (100%N, [])) Examples.exhausted) = Some 100%N.
Proof.
  assert (Hinv : pool_inv Examples.exhausted).
  { apply pool_inv_run; [apply pool_inv_constructor | vm_compute; reflexivity]. }
  destruct (getBuffer_exhausted_allocates (Some (100%N, []))
              Examples.exhausted) as (_ & _ & Halloc & _).
  - apply pool_exhausted_forallb. vm_compute. reflexivity.
  - apply Hinv.
  - apply (Halloc 100%N []); [reflexivity | vm_compute; reflexivity].
Defined.

(** C7 as stated fails: with all six pool buffers in use and memory to
    spare, [getBuffer] returns a buffer, not null. *)
Lemma getBuffer_exhausted_returns_buffer :
  map inUse (_bufferPool Examples.exhausted)
  = [true; true; true; true; true; true]
  /\ fst (getBuffer (Some (100%N, [])) Examples.exhausted) <> None.
Proof. vm_compute. split; [reflexivity | discriminate]. Qed.

(** ** The completion callback and the bound on the receive queue *)

Lemma getBuffer_receiveQueue o s :
  _receiveQueue (snd (getBuffer o s)) = _receiveQueue s.
Proof.
  unfold getBuffer. destruct (getBuffer_scan _) as [[p pool']|]; [done|].
  by destruct (heap_caps_malloc _ _ _).
Qed.

Lemma returnBuffer_receiveQueue buffer s :
  _receiveQueue (returnBuffer buffer s) = _receiveQueue s.
Proof. unfold returnBuffer. by destruct (returnBuffer_scan _ _). Qed.

Lemma getBuffer_transactionCount o s :
  _transactionCount (snd (getBuffer o s)) = _transactionCount s.
Proof.
  unfold getBuffer. destruct (getBuffer_scan _) as [[p pool']|]; [done|].
  by destruct (heap_caps_malloc _ _ _).
Qed.

Lemma returnBuffer_transactionCount buffer s :
  _transactionCount (returnBuffer buffer s) = _transactionCount s.
Proof. unfold returnBuffer. by destruct (returnBuffer_scan _ _). Qed.

(** Every completion is counted, whatever becomes of its data. *)
Lemma onSpiTransaction_counts env trans s :
  _transactionCount (onSpiTransaction env trans s)
  = wrap32 (_transactionCount s + 1).
Proof.
  unfold onSpiTransaction. cbv zeta.
  set (s0 := set_transactionCount _ _).
  assert (H0 : _transactionCount s0 = wrap32 (_transactionCount s + 1))
    by done.
  case_if; [done|].
  cbn [_transactionCount set_needsNewTransaction set_dataReady set_mem].
  case_if; [|done].
  pose proof (getBuffer_transactionCount (isr_alloc env) s0) as Hg.
  destruct (getBuffer _ s0) as [[a|] s1]; simpl in Hg; [|congruence].
  destruct (isr_push_lock env); simpl;
    rewrite returnBuffer_transactionCount; simpl; congruence.
Qed.

(** A completion adds at most one packet to the queue, and none unless the
    capacity check read fewer than the maximum. *)
Lemma onSpiTransaction_queue env trans s :
  _receiveQueue (onSpiTransaction env trans s) = _receiveQueue s
  \/ exists packet,
       _receiveQueue (onSpiTransaction env trans s)
       = _receiveQueue s ++ [packet]
       /\ pendingReceiveCount (isr_count_lock env) s < _maxQueueSize.
Proof.
  unfold onSpiTransaction. cbv zeta.
  set (s0 := set_transactionCount _ _).
  assert (H0 : _receiveQueue s0 = _receiveQueue s) by done.
  assert (Hp : pendingReceiveCount (isr_count_lock env) s0
               = pendingReceiveCount (isr_count_lock env) s) by done.
  case_if; [by left|].
  cbn [_receiveQueue set_needsNewTransaction set_dataReady set_mem].
  rewrite Hp.
  destruct (_maxQueueSize <=? _) eqn:Hfull; [by left|].
  apply Z.leb_gt in Hfull. simpl.
  pose proof (getBuffer_receiveQueue (isr_alloc env) s0) as Hg.
  destruct (getBuffer _ s0) as [[a|] s1]; simpl in Hg;
    [|left; congruence].
  destruct (isr_push_lock env).
  - right. eexists. split; [|exact Hfull].
    cbn [_receiveQueue set_receiveQueue].
    rewrite returnBuffer_receiveQueue. simpl. by rewrite Hg.
  - left. rewrite returnBuffer_receiveQueue. simpl. congruence.
Qed.

(** When the capacity check obtains the semaphore, the bound holds: a queue
    within the maximum stays within it, and a full queue is left as it is
    while the transfer is still counted. *)
Lemma onSpiTransaction_bounded env trans s :
  isr_count_lock env = true ->
  Z.of_nat (length (_receiveQueue s)) <= _maxQueueSize ->
  Z.of_nat (length (_receiveQueue (onSpiTransaction env trans s)))
  <= _maxQueueSize.
Proof.
  intros Hlock Hlen.
  destruct (onSpiTransaction_queue env trans s) as [->|(pkt & -> & Hroom)];
    [done|].
  rewrite Hlock in Hroom. unfold pendingReceiveCount in Hroom.
  rewrite wrap32_small in Hroom by (unfold _maxQueueSize in *; lia).
  rewrite length_app. simpl. lia.
Qed.

Lemma onSpiTransaction_drops_when_full env trans s :
  isr_count_lock env = true ->
  _maxQueueSize <= Z.of_nat (length (_receiveQueue s)) < 2 ^ 32 ->
  _receiveQueue (onSpiTransaction env trans s) = _receiveQueue s
  /\ _transactionCount (onSpiTransaction env trans s)
     = wrap32 (_transactionCount s + 1).
Proof.
  intros Hlock Hlen. split; [|apply onSpiTransaction_counts].
  destruct (onSpiTransaction_queue env trans s) as [->|(pkt & _ & Hroom)];
    [done|].
  rewrite Hlock in Hroom. unfold pendingReceiveCount in Hroom.
  rewrite wrap32_small in Hroom by lia. lia.
Qed.

(** C1 at its failing input.  Ten five-byte transfers fill the queue.  The
    eleventh completes while a task holds the queue semaphore: the take in
    [pendingReceiveCount] times out, the count reads 0, the queue is taken
    for not full, and the push, for which the semaphore is free again, makes
    it eleven packets long. *)
Theorem queue_overflows_when_count_lock_times_out :
  length (_receiveQueue Examples.full) = 10%nat
  /\ _transactionCount Examples.full = 10
  /\ length (_receiveQueue
               (post_trans_cb (Examples.isr_contended 11) Examples.ping
                  Examples.full))
     = 11%nat
  /\ _transactionCount
       (post_trans_cb (Examples.isr_contended 11) Examples.ping
                  Examples.full) = 11.
Proof. vm_compute. repeat split. Qed.

(** ** A refused descriptor during initialisation *)

Lemma init_queue_loop_installed q n i d :
  drv_installed (snd (init_queue_loop q n i d)) = drv_installed d.
Proof.
  revert i d. induction n as [|n IH]; intros i d; [done|].
  simpl. unfold spi_slave_queue_trans.
  destruct (q i =? ESP_OK) eqn:Hq; simpl; [|done]. by rewrite IH.
Qed.

(** The loop stops at the first submission that is refused, with the
    earlier ones accepted. *)
Lemma init_queue_loop_first_refusal q n i d m :
  (m < n)%nat -> (forall j, (j < m)%nat -> q (i + j)%nat = ESP_OK) ->
  q (i + m)%nat <> ESP_OK ->
  init_queue_loop q n i d
  = (false, mkDriver (drv_installed d) (drv_queued d + m)).
Proof.
  revert i d m. induction n as [|n IH]; intros i d m Hm Hok Hno; [lia|].
  simpl. unfold spi_slave_queue_trans. destruct m as [|m].
  - rewrite Nat.add_0_r in Hno. apply Z.eqb_neq in Hno. rewrite Hno. simpl.
    destruct d. simpl. do 2 f_equal. lia.
  - pose proof (Hok 0%nat ltac:(lia)) as H0. rewrite Nat.add_0_r in H0.
    rewrite H0. simpl.
    rewrite (IH (S i) _ m).
    + simpl. do 2 f_equal. lia.
    + lia.
    + intros j Hj. replace (S i + j)%nat with (i + S j)%nat by lia.
      apply Hok. lia.
    + by replace (S i + m)%nat with (i + S m)%nat by lia.
Qed.

Lemma first_refusal (q : nat -> Z) :
  (exists k, (k < 3)%nat /\ q k <> ESP_OK) ->
  exists n, (n < 3)%nat /\ (forall j, (j < n)%nat -> q j = ESP_OK)
            /\ q n <> ESP_OK.
Proof.
  intros (k & Hk & Hq).
  destruct (decide (q 0%nat = ESP_OK)) as [H0|H0].
  2: { exists 0%nat. split; [lia|]. split; [|done]. intros j Hj. lia. }
  destruct (decide (q 1%nat = ESP_OK)) as [H1|H1].
  2: { exists 1%nat. split; [lia|]. split; [|done]. intros j Hj.
       by replace j with 0%nat by lia. }
  destruct (decide (q 2%nat = ESP_OK)) as [H2|H2].
  2: { exists 2%nat. split; [lia|]. split; [|done]. intros j Hj.
       destruct j as [|[|j]]; [done | done | lia]. }
  destruct k as [|[|[|k]]]; [done | done | done | lia].
Qed.

(** C6 (as the code has it): when [init] on a handler that is not
    initialised starts the driver but one of the three first submissions is
    refused, [init] returns false and [_initialized] stays false, but the
    call is not without effect: the driver is left installed, holding the
    descriptors it accepted before the first refusal; the stored mode and
    pins are those of the call, and so are the bus and slave configuration
    and the descriptor built from them.  Memory, the buffers, the staged
    data, the queue, the pool, the watchdog state and the callback are as
    before. *)
Theorem init_refused_descriptor env sck miso mosi cs mode s :
  _initialized s = false -> ie_initialize env = ESP_OK ->
  (exists k, (k < 3)%nat /\ ie_queue_trans env k <> ESP_OK) ->
  fst (init env sck miso mosi cs mode s) = false
  /\ _initialized (snd (init env sck miso mosi cs mode s)) = false
  /\ same_engine_state s (snd (init env sck miso mosi cs mode s))
  /\ drv_installed (driver (snd (init env sck miso mosi cs mode s))) = true
  /\ _mode (snd (init env sck miso mosi cs mode s)) = wrap8 mode
  /\ _sckPin (snd (init env sck miso mosi cs mode s))
     = choose_pin sck SPI_SCK_PIN
  /\ _misoPin (snd (init env sck miso mosi cs mode s))
     = choose_pin miso SPI_MISO_PIN
  /\ _mosiPin (snd (init env sck miso mosi cs mode s))
     = choose_pin mosi SPI_MOSI_PIN
  /\ _csPin (snd (init env sck miso mosi cs mode s))
     = choose_pin cs SPI_ESP32_SS
  /\ (exists n,
        (n < 3)%nat
        /\ (forall j, (j < n)%nat -> ie_queue_trans env j = ESP_OK)
        /\ ie_queue_trans env n <> ESP_OK
        /\ driver (snd (init env sck miso mosi cs mode s))
           = mkDriver true n)
  /\ _busConfig (snd (init env sck miso mosi cs mode s))
     = Some {| mosi_io_num := choose_pin mosi SPI_MOSI_PIN;
               miso_io_num := choose_pin miso SPI_MISO_PIN;
               sclk_io_num := choose_pin sck SPI_SCK_PIN;
               quadwp_io_num := -1;
               quadhd_io_num := -1;
               max_transfer_sz := _bufferSize s;
               bus_flags := 0;
               intr_flags := 0 |}
  /\ _slaveConfig (snd (init env sck miso mosi cs mode s))
     = Some {| spics_io_num := choose_pin cs SPI_ESP32_SS;
               slave_flags := 0;
               queue_size := 5;
               slave_mode := wrap8 mode |}
  /\ _transaction (snd (init env sck miso mosi cs mode s))
     = Some {| length_bits := wrap32 (_bufferSize s * 8);
               trans_len := 0;
               tx_buffer := _txBuffer s;
               rx_buffer := _rxBuffer s |}.
Proof.
  intros Hinit Hstart Hrefused.
  destruct (first_refusal _ Hrefused) as (n & Hn & Hbefore & Hat).
  assert (Hengine := init_engine_state env sck miso mosi cs mode s).
  assert (Hloop : forall d,
            init_queue_loop (ie_queue_trans env) 3 0 d
            = (false, mkDriver (drv_installed d) (drv_queued d + n))).
  { intros d. by apply init_queue_loop_first_refusal. }
  revert Hengine. unfold init. rewrite Hinit, Hstart. cbv zeta.
  cbn [negb Z.eqb ESP_OK]. rewrite Hloop.
  cbn [fst snd _initialized _mode _sckPin _misoPin _mosiPin _csPin driver
       _busConfig _slaveConfig _transaction _bufferSize _txBuffer _rxBuffer
       set_driver set_transaction set_slaveConfig set_busConfig set_csPin
       set_mosiPin set_misoPin set_sckPin set_mode spi_slave_initialize
       drv_installed drv_queued Z.eqb ESP_OK].
  intros Hengine. rewrite Hinit.
  repeat (split; [done|]).
  split; [|by repeat split].
  exists n. by repeat split.
Qed.

Lemma init_refused_descriptor_witness :
  fst (init Examples.init_refused (-1) (-1) (-1) (-1) SPI_MODE0
         Examples.fresh) = false
  /\ _initialized (snd (init Examples.init_refused (-1) (-1) (-1) (-1)
                          SPI_MODE0 Examples.fresh)) = false.
Proof.
  destruct (init_refused_descriptor Examples.init_refused (-1) (-1) (-1) (-1)
              SPI_MODE0 Examples.fresh) as (Hret & Hinit & _).
  - vm_compute. reflexivity.
  - reflexivity.
  - exists 1%nat. split; [lia | vm_compute; discriminate].
  - split; [exact Hret | exact Hinit].
Defined.

(** C6 as stated fails: on a fresh handler, a driver that starts and then
    refuses the second descriptor makes [init] return false with the driver
    installed and one descriptor queued, which was not so before, and with
    the clock pin changed from 0 to 12. *)
Lemma init_refused_leaves_driver_installed :
  fst (init Examples.init_refused (-1) (-1) (-1) (-1) SPI_MODE0
         Examples.fresh) = false
  /\ driver Examples.fresh = mkDriver false 0
  /\ driver (snd (init Examples.init_refused (-1) (-1) (-1) (-1) SPI_MODE0
                    Examples.fresh)) = mkDriver true 1
  /\ _sckPin Examples.fresh = 0
  /\ _sckPin (snd (init Examples.init_refused (-1) (-1) (-1) (-1) SPI_MODE0
                     Examples.fresh)) = 12.
Proof. vm_compute. repeat split. Qed.

(** ** The persistent buffers along a run *)

Lemma buffers_kept_refl s : buffers_kept s s.
Proof. by repeat split. Qed.

Lemma buffers_kept_trans s1 s2 s3 :
  buffers_kept s1 s2 -> buffers_kept s2 s3 -> buffers_kept s1 s3.
Proof.
  intros (Ht & Hr & Hb & Hl) (Ht' & Hr' & Hb' & Hl').
  repeat split; try congruence.
  intros a Ha Hlive. apply Hl'; [|by apply Hl].
  rewrite Ht, Hr. done.
Qed.

Lemma buffers_kept_ok s s' : buffers_kept s s' -> buffers_ok s -> buffers_ok s'.
Proof.
  intros (Ht & Hr & Hb & Hl) [(tx & Htx & Ltx) (rx & Hrx & Lrx) Hapart Hsize].
  split.
  - exists tx. split; [congruence|]. apply Hl; auto.
  - exists rx. split; [congruence|]. apply Hl; auto.
  - congruence.
  - congruence.
Qed.

(** Steps that leave memory alone. *)
Lemma buffers_kept_same_mem s s' :
  mem s' = mem s -> _txBuffer s' = _txBuffer s -> _rxBuffer s' = _rxBuffer s ->
  _bufferSize s' = _bufferSize s -> buffers_kept s s'.
Proof.
  intros Hm Ht Hr Hb. repeat split; try done.
  intros a _ (blk & Hblk & Hlen). exists blk. by rewrite Hm, Hb.
Qed.

(** Steps that overwrite bytes in place. *)
Lemma buffers_kept_memset p c n s :
  buffers_kept s (set_mem (memset p c n (mem s)) s).
Proof.
  repeat split. intros a _ (blk & Hblk & Hlen). unfold live. simpl.
  rewrite memset_lookup, Hblk. case_decide; simpl; eexists; split; try done.
  by rewrite length_store_bytes.
Qed.

Lemma buffers_kept_memcpy p src n s :
  buffers_kept s (set_mem (memcpy p src n (mem s)) s).
Proof.
  repeat split. intros a _ (blk & Hblk & Hlen). unfold live. simpl.
  rewrite memcpy_lookup, Hblk. case_decide; simpl; eexists; split; try done.
  by rewrite length_store_bytes.
Qed.

Lemma buffers_kept_getBuffer o s : buffers_kept s (snd (getBuffer o s)).
Proof.
  unfold getBuffer. destruct (getBuffer_scan _) as [[p pool']|].
  - by apply buffers_kept_same_mem.
  - destruct (heap_caps_malloc _ _ _) as [p h'] eqn:Hm. repeat split.
    intros a _ (blk & Hblk & Hlen). exists blk. split; [|done]. simpl.
    by eapply heap_caps_malloc_keeps.
Qed.

(** Giving a buffer back keeps the persistent buffers, unless it is one of
    them and the pool does not know it. *)
Lemma buffers_kept_returnBuffer buffer s :
  returnBuffer_scan buffer (_bufferPool s) <> None
  \/ (buffer <> _txBuffer s /\ buffer <> _rxBuffer s) ->
  buffers_kept s (returnBuffer buffer s).
Proof.
  intros Hcase. unfold returnBuffer.
  destruct (returnBuffer_scan buffer (_bufferPool s)) as [pool'|] eqn:Hscan.
  - eapply buffers_kept_trans; [|apply buffers_kept_memset].
    by apply buffers_kept_same_mem.
  - destruct Hcase as [|[Htx Hrx]]; [done|]. repeat split.
    intros a Ha (blk & Hblk & Hlen). exists blk. split; [|done]. simpl.
    rewrite heap_caps_free_lookup; [done|].
    intros ->. by destruct Ha.
Qed.

(** What [getBuffer] returns is known to the pool afterwards, or was not
    live before. *)
Lemma getBuffer_returned o s a :
  fst (getBuffer o s) = Some a ->
  returnBuffer_scan (Some a) (_bufferPool (snd (getBuffer o s))) <> None
  \/ mem s !! a = None.
Proof.
  unfold getBuffer.
  destruct (getBuffer_scan (_bufferPool s)) as [[p pool']|] eqn:Hscan.
  - simpl. intros ->. left.
    destruct (getBuffer_scan_found _ _ _ Hscan) as (_ & _ & Hin).
    intros Hnone.
    pose proof (proj1 (returnBuffer_scan_None _ _) Hnone _ Hin) as Hd.
    by apply Hd.
  - destruct (heap_caps_malloc _ _ _) as [p h'] eqn:Hm. simpl. intros ->.
    right. by destruct (heap_caps_malloc_fresh _ _ _ _ _ Hm).
Qed.

Lemma buffers_kept_onSpiTransaction env trans s :
  buffers_ok s -> buffers_kept s (onSpiTransaction env trans s).
Proof.
  intros Hok. unfold onSpiTransaction. cbv zeta.
  set (s0 := set_transactionCount _ _).
  assert (H0 : buffers_kept s s0) by (by apply buffers_kept_same_mem).
  case_if; [done|].
  eapply buffers_kept_trans;
    [|apply (buffers_kept_same_mem _ (set_needsNewTransaction true _));
      reflexivity].
  eapply buffers_kept_trans;
    [|apply (buffers_kept_same_mem _ (set_dataReady false _)); reflexivity].
  eapply buffers_kept_trans; [|apply buffers_kept_memset].
  case_if; [|done].
  pose proof (buffers_kept_getBuffer (isr_alloc env) s0) as Hg.
  pose proof (getBuffer_returned (isr_alloc env) s0) as Hret.
  destruct (getBuffer _ s0) as [[a|] s1]; simpl in Hg, Hret;
    [|by eapply buffers_kept_trans].
  specialize (Hret a eq_refl).
  eapply buffers_kept_trans; [exact H0|].
  eapply buffers_kept_trans; [exact Hg|].
  set (s2 := set_mem _ s1).
  assert (H2 : buffers_kept s1 s2) by apply buffers_kept_memcpy.
  eapply buffers_kept_trans; [exact H2|].
  assert (H3 : buffers_kept s2 (returnBuffer (Some a) s2)).
  { apply buffers_kept_returnBuffer. destruct Hret as [Hknown|Hfresh].
    - by left.
    - right. destruct Hok as [(tx & Htx & Ltx) (rx & Hrx & Lrx) _ _].
      destruct Ltx as (? & Etx & _), Lrx as (? & Erx & _).
      destruct Hg as (Gt & Gr & _). simpl. rewrite Gt, Gr.
      change (_txBuffer s0) with (_txBuffer s).
      change (_rxBuffer s0) with (_rxBuffer s).
      change (mem s0) with (mem s) in Hfresh.
      rewrite Htx, Hrx. split; intros [= ->]; congruence. }
  destruct (isr_push_lock env); [|done].
  eapply buffers_kept_trans; [exact H3|]. by apply buffers_kept_same_mem.
Qed.

Lemma buffers_kept_post_trans_cb env received s :
  buffers_ok s -> buffers_kept s (post_trans_cb env received s).
Proof.
  intros Hok. unfold post_trans_cb.
  destruct (_transaction s) as [t|]; [|apply buffers_kept_refl].
  destruct (drv_installed (driver s)); [|apply buffers_kept_refl].
  cbv zeta. eapply buffers_kept_trans; [apply buffers_kept_memcpy|].
  apply buffers_kept_onSpiTransaction.
  eapply buffers_kept_ok; [apply buffers_kept_memcpy | done].
Qed.

Lemma buffers_kept_init env sck miso mosi cs mode s :
  buffers_kept s (snd (init env sck miso mosi cs mode s)).
Proof.
  destruct (init_engine_state env sck miso mosi cs mode s)
    as (Hm & Ht & Hr & Hb & _).
  by apply buffers_kept_same_mem.
Qed.

Lemma buffers_kept_prepareDataToSend txData len s :
  buffers_kept s (snd (prepareDataToSend txData len s)).
Proof.
  unfold prepareDataToSend. case_if; [apply buffers_kept_refl|].
  destruct txData as [bytes|]; [|apply buffers_kept_refl].
  case_if; [apply buffers_kept_refl|]. cbv zeta. simpl snd.
  eapply buffers_kept_trans; [apply buffers_kept_memset|].
  eapply buffers_kept_trans; [apply buffers_kept_memcpy|].
  by apply buffers_kept_same_mem.
Qed.

Lemma buffers_kept_ensureTransactionQueued ret s :
  buffers_kept s (snd (ensureTransactionQueued ret s)).
Proof.
  unfold ensureTransactionQueued. repeat case_if;
    by apply buffers_kept_same_mem.
Qed.

Lemma buffers_kept_resetSPIInterface env s :
  buffers_kept s (snd (resetSPIInterface env s)).
Proof.
  unfold resetSPIInterface.
  set (s1 := set_recoveryAttempts _ s).
  set (s2 := if _initialized s1 then _ else s1).
  assert (H2 : buffers_kept s s2).
  { subst s2. destruct (_initialized s1); by apply buffers_kept_same_mem. }
  pose proof (buffers_kept_init (re_init env) (_sckPin s2) (_misoPin s2)
                (_mosiPin s2) (_csPin s2) (_mode s2) s2) as H3.
  destruct (init _ _ _ _ _ _ s2) as [[] s3]; simpl in H3;
    [|by eapply buffers_kept_trans].
  simpl snd.
  eapply buffers_kept_trans; [exact H2|].
  eapply buffers_kept_trans; [exact H3|].
  eapply buffers_kept_trans; [|apply buffers_kept_prepareDataToSend].
  set (s4 := set_lastTransactionTime _ _).
  eapply (buffers_kept_trans _ s4); [by apply buffers_kept_same_mem|].
  eapply buffers_kept_trans; [apply buffers_kept_memset|].
  eapply buffers_kept_trans; [apply buffers_kept_memset|].
  destruct (re_drain_lock env); by apply buffers_kept_same_mem.
Qed.

Lemma buffers_kept_watchdog env s :
  buffers_kept s (snd (checkAndRecoverFromStalledTransaction env s)).
Proof.
  unfold checkAndRecoverFromStalledTransaction.
  repeat case_if; try apply buffers_kept_refl;
    try apply buffers_kept_resetSPIInterface.
  apply buffers_kept_ensureTransactionQueued.
Qed.

Section Run.

Variable run_callback :
callback_id -> list Z -> Z -> SPISlaveHandler -> SPISlaveHandler.

(** The application's callbacks use the handler through its interface;
  they leave its persistent buffers in place. *)
Hypothesis run_callback_kept :
forall cb bytes len s, buffers_kept s (run_callback cb bytes len s).

Lemma buffers_kept_handleReceivedData lock bytes len s :
buffers_kept s (handleReceivedData run_callback lock bytes len s).
Proof.
unfold handleReceivedData.
destruct (_receiveCallback s); [apply run_callback_kept|].
case_if; [|apply buffers_kept_refl].
destruct bytes as [|cmd rest]; [apply buffers_kept_refl|].
repeat case_if; try apply buffers_kept_refl.
apply buffers_kept_prepareDataToSend.
Qed.

Lemma buffers_kept_processNextReceive env s :
buffers_kept s (snd (processNextReceive run_callback env s)).
Proof.
unfold processNextReceive.
destruct (_receiveQueue s) as [|packet rest]; [apply buffers_kept_refl|].
case_if; [apply buffers_kept_refl|]. simpl snd.
eapply buffers_kept_trans; [|apply buffers_kept_handleReceivedData].
by apply buffers_kept_same_mem.
Qed.

Lemma buffers_kept_step ev s :
buffers_ok s -> buffers_kept s (step run_callback ev s).
Proof.
intros Hok. destruct ev; simpl.
- apply buffers_kept_init.
- apply buffers_kept_prepareDataToSend.
- apply buffers_kept_processNextReceive.
- by apply buffers_kept_same_mem.
- apply buffers_kept_ensureTransactionQueued.
- apply buffers_kept_watchdog.
- apply buffers_kept_resetSPIInterface.
- unfold post_setup_cb. case_if; by apply buffers_kept_same_mem.
- by apply buffers_kept_post_trans_cb.
Qed.

(** The persistent buffers stay two distinct live blocks of [_bufferSize]
  bytes along every run of the handler. *)
Lemma buffers_ok_run evs s :
buffers_ok s -> buffers_ok (run run_callback evs s).
Proof.
revert s. induction evs as [|ev evs IH]; intros s Hok; [done|].
simpl. apply IH. eapply buffers_kept_ok; [|done].
by apply buffers_kept_step.
Qed.

End Run.

(** A constructor that got memory for both persistent buffers leaves them
    as two distinct zeroed blocks. *)
Lemma buffers_ok_constructor env h0 :
  _txBuffer (constructor env h0) <> None ->
  _rxBuffer (constructor env h0) <> None ->
  buffers_ok (constructor env h0).
Proof.
  unfold constructor. cbv zeta.
  assert (Hsize : 4 <= SPI_BUFFER_SIZE) by done.
  revert Hsize. generalize SPI_BUFFER_SIZE. intros size Hsize.
  destruct (construct_pool _ _ _ _ _) as [pool h1].
  destruct (heap_caps_malloc _ _ h1) as [tx h2] eqn:Htx.
  destruct (heap_caps_malloc _ _ h2) as [rx h3] eqn:Hrx.
  cbn [_txBuffer _rxBuffer]. intros Htx' Hrx'.
  destruct tx as [tx|]; [|done]. destruct rx as [rx|]; [|done].
  destruct (heap_caps_malloc_fresh _ _ _ _ _ Htx) as [Ftx ->].
  destruct (heap_caps_malloc_fresh _ _ _ _ _ Hrx) as [Frx ->].
  assert (Hne : tx <> rx).
  { intros ->. by rewrite lookup_insert_eq in Frx. }
  split; cbn [_txBuffer _rxBuffer _bufferSize mem]; try done.
  - exists tx. split; [done|]. unfold live. cbn [mem _bufferSize].
    rewrite !memset_lookup, decide_False, decide_True by congruence.
    rewrite lookup_insert_ne, lookup_insert_eq by done. simpl.
    eexists. split; [done|].
    by rewrite length_store_bytes, length_resize.
  - exists rx. split; [done|]. unfold live. cbn [mem _bufferSize].
    rewrite !memset_lookup, decide_True, decide_False by congruence.
    rewrite lookup_insert_eq. simpl.
    eexists. split; [done|].
    by rewrite length_store_bytes, length_resize.
  - congruence.
Qed.

(** ** The bound on the receive queue along a run *)

Lemma init_receiveQueue env sck miso mosi cs mode s :
  _receiveQueue (snd (init env sck miso mosi cs mode s)) = _receiveQueue s.
Proof.
  by destruct (init_engine_state env sck miso mosi cs mode s)
    as (_ & _ & _ & _ & _ & _ & _ & _ & _ & _ & _ & _ & Hq & _).
Qed.

Lemma prepareDataToSend_receiveQueue txData len s :
  _receiveQueue (snd (prepareDataToSend txData len s)) = _receiveQueue s.
Proof.
  unfold prepareDataToSend. case_if; [done|].
  destruct txData; [|done]. by case_if.
Qed.

Lemma ensureTransactionQueued_receiveQueue ret s :
  _receiveQueue (snd (ensureTransactionQueued ret s)) = _receiveQueue s.
Proof. unfold ensureTransactionQueued. by repeat case_if. Qed.

Lemma resetSPIInterface_receiveQueue env s :
  (length (_receiveQueue (snd (resetSPIInterface env s)))
   <= length (_receiveQueue s))%nat.
Proof.
  unfold resetSPIInterface.
  set (s1 := set_recoveryAttempts _ s).
  set (s2 := if _initialized s1 then _ else s1).
  assert (H2 : _receiveQueue s2 = _receiveQueue s).
  { subst s2. by destruct (_initialized s1). }
  pose proof (init_receiveQueue (re_init env) (_sckPin s2) (_misoPin s2)
                (_mosiPin s2) (_csPin s2) (_mode s2) s2) as H3.
  destruct (init _ _ _ _ _ _ s2) as [[] s3]; simpl in H3; simpl snd;
    [|by rewrite H3, H2].
  rewrite prepareDataToSend_receiveQueue.
  destruct (re_drain_lock env); simpl.
  - rewrite drain_queue_empty. simpl. lia.
  - by rewrite H3, H2.
Qed.

Lemma watchdog_receiveQueue env s :
  (length (_receiveQueue
             (snd (checkAndRecoverFromStalledTransaction env s)))
   <= length (_receiveQueue s))%nat.
Proof.
  unfold checkAndRecoverFromStalledTransaction.
  repeat case_if; try done; try apply resetSPIInterface_receiveQueue.
  simpl. by rewrite ensureTransactionQueued_receiveQueue.
Qed.

Lemma post_trans_cb_bounded env received s :
  isr_count_lock env = true ->
  Z.of_nat (length (_receiveQueue s)) <= _maxQueueSize ->
  Z.of_nat (length (_receiveQueue (post_trans_cb env received s)))
  <= _maxQueueSize.
Proof.
  intros Hlock Hlen. unfold post_trans_cb.
  destruct (_transaction s) as [t|]; [|done].
  destruct (drv_installed (driver s)); [|done].
  by apply onSpiTransaction_bounded.
Qed.

Section Bound.

Variable run_callback :
callback_id -> list Z -> Z -> SPISlaveHandler -> SPISlaveHandler.

(** The queue is private to the handler: a callback of the application can
  at most have it drained through the interface. *)
Hypothesis run_callback_queue :
forall cb bytes len s,
  (length (_receiveQueue (run_callback cb bytes len s))
   <= length (_receiveQueue s))%nat.

Lemma handleReceivedData_receiveQueue lock bytes len s :
(length (_receiveQueue (handleReceivedData run_callback lock bytes len s))
 <= length (_receiveQueue s))%nat.
Proof.
unfold handleReceivedData.
destruct (_receiveCallback s); [apply run_callback_queue|].
case_if; [|done]. destruct bytes as [|cmd rest]; [done|].
repeat case_if; try done.
by rewrite prepareDataToSend_receiveQueue.
Qed.

Lemma processNextReceive_receiveQueue env s :
(length (_receiveQueue (snd (processNextReceive run_callback env s)))
 <= length (_receiveQueue s))%nat.
Proof.
unfold processNextReceive.
destruct (_receiveQueue s) as [|packet rest] eqn:Hq;
  [simpl; by rewrite Hq|].
case_if; [simpl; by rewrite Hq|]. simpl snd.
etransitivity; [apply handleReceivedData_receiveQueue|]. simpl. lia.
Qed.

(** Along every run in which each capacity check obtains the semaphore, the
  receive queue never grows beyond [_maxQueueSize]. *)
Lemma receiveQueue_bounded_run evs s :
count_locks_taken evs ->
Z.of_nat (length (_receiveQueue s)) <= _maxQueueSize ->
Z.of_nat (length (_receiveQueue (run run_callback evs s)))
<= _maxQueueSize.
Proof.
revert s. induction evs as [|ev evs IH]; intros s Hlocks Hlen; [done|].
simpl. apply IH.
{ intros env received Hin. apply (Hlocks env received). by right. }
assert (Hshrink : forall s', (length (_receiveQueue s')
                              <= length (_receiveQueue s))%nat ->
          Z.of_nat (length (_receiveQueue s')) <= _maxQueueSize)
  by (intros s' H; lia).
destruct ev; simpl.
- by rewrite init_receiveQueue.
- by rewrite prepareDataToSend_receiveQueue.
- apply Hshrink, processNextReceive_receiveQueue.
- done.
- by rewrite ensureTransactionQueued_receiveQueue.
- apply Hshrink, watchdog_receiveQueue.
- apply Hshrink, resetSPIInterface_receiveQueue.
- unfold post_setup_cb. by case_if.
- apply post_trans_cb_bounded; [|done]. apply (Hlocks env received).
  by left.
Qed.

End Bound.

(** ** Taking a buffer and giving it back *)

Lemma scan_round_trip (pool : list SPIBuffer) p pool' :
  NoDup (omap data pool) ->
  getBuffer_scan pool = Some (p, pool') ->
  returnBuffer_scan p pool' = Some pool.
Proof.
  revert p pool'. induction pool as [|b0 pool IH]; intros p pool' Hnd;
    [done|].
  simpl.
  destruct (negb (inUse b0) && bool_decide (data b0 <> None)) eqn:Hfree.
  - intros [= <- <-]. simpl. rewrite decide_True by done.
    apply andb_true_iff in Hfree as [Huse _].
    apply negb_true_iff in Huse. destruct b0 as [d u]. simpl in *.
    by subst u.
  - destruct (getBuffer_scan pool) as [[q rest]|] eqn:Hscan; [|done].
    intros [= <- <-]. simpl.
    destruct (getBuffer_scan_found _ _ _ Hscan) as (Hq & Hin & _).
    assert (Hnd' : NoDup (omap data pool)).
    { csimpl in Hnd. destruct (data b0); [|done].
      by apply NoDup_cons in Hnd as [_ ?]. }
    rewrite decide_False.
    + by rewrite (IH _ _ Hnd' eq_refl).
    + intros Heq. destruct q as [a|]; [|done].
      csimpl in Hnd. rewrite Heq in Hnd.
      apply NoDup_cons in Hnd as [Hnot _]. apply Hnot.
      apply list_elem_of_omap. by exists (mkBuffer (Some a) false).
Qed.

Lemma set_mem_pool_same s :
  set_mem (mem s) (set_bufferPool (_bufferPool s) s) = s.
Proof. by destruct s. Qed.

Lemma set_mem_same s : set_mem (mem s) s = s.
Proof. by destruct s. Qed.

(** Taking a buffer, copying into it and giving it back undoes itself: a
    pool buffer is zeroed again and marked free, a fallback allocation is
    freed. *)
Lemma take_fill_return o s a src n :
  pool_inv s -> fst (getBuffer o s) = Some a ->
  returnBuffer (Some a)
    (set_mem (memcpy (Some a) src n (mem (snd (getBuffer o s))))
       (snd (getBuffer o s)))
  = s.
Proof.
  intros [Hlive Hdistinct Hzero]. unfold getBuffer.
  destruct (getBuffer_scan (_bufferPool s)) as [[p pool']|] eqn:Hscan.
  - cbn [fst snd]. intros ->. unfold returnBuffer.
    cbn [_bufferPool set_mem set_bufferPool _bufferSize mem].
    rewrite (scan_round_trip _ _ _ Hdistinct Hscan).
    cbn [_bufferPool set_mem set_bufferPool _bufferSize mem].
    destruct (getBuffer_scan_found _ _ _ Hscan) as (_ & Hfree & _).
    pose proof (Hzero _ a Hfree eq_refl eq_refl) as Hz. unfold zeroed in Hz.
    assert (Hm : memset (Some a) 0 (_bufferSize s)
                   (memcpy (Some a) src n (mem s)) = mem s).
    { apply map_eq. intros a'. rewrite memset_lookup, memcpy_lookup.
      case_decide as Ha; [|done]. injection Ha as <-. rewrite Hz. simpl.
      f_equal. apply store_bytes_whole.
      by rewrite length_replicate, length_store_bytes, length_replicate. }
    rewrite Hm. by destruct s.
  - destruct (heap_caps_malloc o (_bufferSize s) (mem s)) as [p h'] eqn:Hm.
    cbn [fst snd]. intros ->.
    destruct (heap_caps_malloc_fresh _ _ _ _ _ Hm) as [Hfresh ->].
    unfold returnBuffer.
    cbn [_bufferPool set_mem set_bufferPool _bufferSize mem].
    assert (Hnone : returnBuffer_scan (Some a) (_bufferPool s) = None).
    { apply returnBuffer_scan_None. intros b Hb Hd.
      destruct (Hlive b a Hb Hd) as (blk & Hblk & _). congruence. }
    rewrite Hnone. unfold heap_caps_free, memcpy.
    cbn [_bufferPool set_mem set_bufferPool _bufferSize mem].
    assert (Hmem : delete a
                     (alter (store_bytes (take (Z.to_nat n) src)) a
                        (<[a := resize (Z.to_nat (_bufferSize s)) 0
                                  (default [] (snd <$> o))]> (mem s)))
                   = mem s).
    { apply map_eq. intros a'. destruct (decide (a = a')) as [<-|Hne].
      - by rewrite lookup_delete_eq.
      - by rewrite lookup_delete_ne, lookup_alter_ne, lookup_insert_ne. }
    rewrite Hmem. by destruct s.
Qed.

(** The bytes of a buffer right after [n] bytes were copied into it. *)
Lemma take_store_bytes (src blk : list Z) n :
  (n <= length src)%nat -> (n <= length blk)%nat ->
  take n (store_bytes (take n src) blk) = take n src.
Proof.
  intros Hsrc Hblk. unfold store_bytes.
  rewrite take_take, Nat.min_l by lia.
  rewrite take_app_le by (rewrite length_take; lia).
  rewrite take_take. f_equal. lia.
Qed.

Lemma getBuffer_block o s a :
  pool_inv s -> fst (getBuffer o s) = Some a ->
  exists blk, mem (snd (getBuffer o s)) !! a = Some blk
              /\ length blk = Z.to_nat (_bufferSize s).
Proof.
  intros [Hlive _ _]. unfold getBuffer.
  destruct (getBuffer_scan (_bufferPool s)) as [[p pool']|] eqn:Hscan.
  - simpl. intros ->.
    destruct (getBuffer_scan_found _ _ _ Hscan) as (_ & Hfree & _).
    apply (Hlive _ a Hfree eq_refl).
  - destruct (heap_caps_malloc o (_bufferSize s) (mem s)) as [p h'] eqn:Hm.
    simpl. intros ->.
    destruct (heap_caps_malloc_fresh _ _ _ _ _ Hm) as [Hfresh ->].
    eexists. rewrite lookup_insert_eq. split; [done|].
    by rewrite length_resize.
Qed.

Lemma getBuffer_keeps_block o s r blk :
  mem s !! r = Some blk -> mem (snd (getBuffer o s)) !! r = Some blk.
Proof.
  intros Hr. unfold getBuffer.
  destruct (getBuffer_scan (_bufferPool s)) as [[p pool']|]; [done|].
  destruct (heap_caps_malloc o (_bufferSize s) (mem s)) as [p h'] eqn:Hm.
  simpl. by eapply heap_caps_malloc_keeps.
Qed.

(** ** The net effect of a completion *)

(** What [onSpiTransaction] amounts to on a handler whose pool is in order:
    the transfer is counted; if it carried at least one byte, the receive
    buffer is zeroed, [_dataReady] cleared and a new descriptor asked for;
    and a packet with the first [rxBytes] bytes of the receive buffer is put
    at the back of the queue if the capacity check passed, a buffer could be
    had and the semaphore was free.  The pool and the rest of memory end up
    as they were. *)
Lemma onSpiTransaction_effect env trans s r :
  pool_inv s -> rx_buffer trans = Some r -> live r s ->
  trans_len trans / 8 <= _bufferSize s ->
  let rxBytes := trans_len trans / 8 in
  let s0 :=
    set_transactionCount (wrap32 (_transactionCount s + 1))
      (set_transactionActive false
         (set_lastTransactionTime (wrap32 (isr_millis env)) s)) in
  let pushed :=
    negb (_maxQueueSize <=? pendingReceiveCount (isr_count_lock env) s)
    && bool_decide (fst (getBuffer (isr_alloc env) s) <> None)
    && isr_push_lock env in
  let packet := new_SPIDataPacket (load (Some r) (mem s)) rxBytes in
  onSpiTransaction env trans s
  = if rxBytes =? 0 then s0
    else
      set_needsNewTransaction true
        (set_dataReady false
           (set_mem (memset (Some r) 0 (_bufferSize s) (mem s))
              (if pushed
               then set_receiveQueue (_receiveQueue s ++ [packet]) s0
               else s0))).
Proof.
  intros Hinv Hrx (rblk & Hrblk & Hrlen) Hfits rxBytes s0 pushed packet.
  unfold onSpiTransaction. cbv zeta.
  set (s0' := set_transactionCount _ _).
  assert (Hs0 : s0' = s0) by reflexivity. clearbody s0'. subst s0'.
  fold rxBytes. rewrite Hrx.
  destruct (rxBytes =? 0) eqn:Hzero; [done|].
  change (pendingReceiveCount (isr_count_lock env) s0)
    with (pendingReceiveCount (isr_count_lock env) s).
  subst pushed.
  destruct (_maxQueueSize <=? pendingReceiveCount (isr_count_lock env) s);
    [done|].
  cbn [negb andb].
  assert (Hinv0 : pool_inv s0) by (by destruct Hinv).
  assert (Hget : fst (getBuffer (isr_alloc env) s0)
                 = fst (getBuffer (isr_alloc env) s)).
  { unfold getBuffer. change (_bufferPool s0) with (_bufferPool s).
    destruct (getBuffer_scan (_bufferPool s)) as [[p pool']|]; [done|].
    change (mem s0) with (mem s). change (_bufferSize s0) with (_bufferSize s).
    by destruct (heap_caps_malloc _ _ _). }
  rewrite <- Hget.
  pose proof (take_fill_return (isr_alloc env) s0) as Hround.
  pose proof (getBuffer_block (isr_alloc env) s0) as Hblock.
  pose proof (getBuffer_keeps_block (isr_alloc env) s0 r rblk Hrblk) as Hkeep.
  assert (Hnull : fst (getBuffer (isr_alloc env) s0) = None ->
                  snd (getBuffer (isr_alloc env) s0) = s0).
  { unfold getBuffer.
    destruct (getBuffer_scan (_bufferPool s0)) as [[p pool']|] eqn:Hscan.
    - simpl. intros ->. by destruct (getBuffer_scan_found _ _ _ Hscan).
    - destruct (heap_caps_malloc _ _ _) as [p h'] eqn:Hm. simpl. intros ->.
      rewrite (heap_caps_malloc_null _ _ _ _ Hm). apply set_mem_same. }
  destruct (getBuffer (isr_alloc env) s0) as [[a|] s1]; cbn [fst snd] in *.
  - rewrite bool_decide_true by done. cbn [andb].
    specialize (Hround a (load (Some r) (mem s1)) rxBytes Hinv0 eq_refl).
    destruct (Hblock a Hinv0 eq_refl) as (ablk & Hablk & Halen).
    set (s2 := set_mem _ s1) in *.
    assert (Hpacket : new_SPIDataPacket (load (Some a) (mem s2)) rxBytes
                      = packet).
    { subst packet s2. unfold new_SPIDataPacket. f_equal. simpl.
      rewrite lookup_alter_eq, Hablk, Hkeep, Hrblk. simpl.
      change (_bufferSize s0) with (_bufferSize s) in Halen.
      assert (Z.to_nat rxBytes <= Z.to_nat (_bufferSize s))%nat
        by (subst rxBytes; lia).
      apply take_store_bytes; lia. }
    rewrite Hpacket, Hround.
    by destruct (isr_push_lock env).
  - rewrite bool_decide_false by (intros H; by apply H).
    by rewrite (Hnull eq_refl).
Qed.

(** ** The invariant of the handler *)

Lemma pool_inv_same s s' :
  mem s' = mem s -> _bufferPool s' = _bufferPool s ->
  _bufferSize s' = _bufferSize s -> pool_inv s -> pool_inv s'.
Proof.
  intros Hm Hp Hb [Hlive Hdistinct Hzero]. split.
  - intros b a Hb' Hd. unfold live. rewrite Hm, Hb.
    rewrite Hp in Hb'. by apply (Hlive b a).
  - by rewrite Hp.
  - intros b a Hb' Hd Hfree. unfold zeroed. rewrite Hm, Hb.
    rewrite Hp in Hb'. by apply (Hzero b a).
Qed.

(** Writing in place into a block that is no buffer of the pool. *)
Lemma pool_inv_write_outside s h' :
  (forall a, a ∈ omap data (_bufferPool s) -> h' !! a = mem s !! a) ->
  pool_inv s -> pool_inv (set_mem h' s).
Proof.
  intros Hsame [Hlive Hdistinct Hzero].
  assert (Hin : forall b a, b ∈ _bufferPool s -> data b = Some a ->
                            h' !! a = mem s !! a).
  { intros b a Hb Hd. apply Hsame, list_elem_of_omap. by exists b. }
  split.
  - intros b a Hb Hd. unfold live. cbn [mem set_mem _bufferSize].
    rewrite (Hin b a Hb Hd). by apply (Hlive b a).
  - done.
  - intros b a Hb Hd Hfree. unfold zeroed. cbn [mem set_mem _bufferSize].
    rewrite (Hin b a Hb Hd). by apply (Hzero b a).
Qed.

Lemma buffers_ok_same s s' :
  mem s' = mem s -> _txBuffer s' = _txBuffer s -> _rxBuffer s' = _rxBuffer s ->
  _bufferSize s' = _bufferSize s -> buffers_ok s -> buffers_ok s'.
Proof.
  intros. eapply buffers_kept_ok; [|done]. by apply buffers_kept_same_mem.
Qed.

(** A step that leaves memory, the pool and the buffers alone. *)
Lemma handler_inv_same s s' :
  mem s' = mem s -> _bufferPool s' = _bufferPool s ->
  _txBuffer s' = _txBuffer s -> _rxBuffer s' = _rxBuffer s ->
  _bufferSize s' = _bufferSize s -> descriptor_ok s' ->
  handler_inv s -> handler_inv s'.
Proof.
  intros Hm Hp Ht Hr Hb Hd [Hpool Hbuf Hapart Hfree _ Hsize]. split.
  - by apply (pool_inv_same s).
  - by apply (buffers_ok_same s).
  - intros a. rewrite Ht, Hr, Hp. apply Hapart.
  - intros b. rewrite Hp. apply Hfree.
  - done.
  - congruence.
Qed.

(** A store into one of the two persistent buffers. *)
Lemma handler_inv_store s p (f : list Z -> list Z) :
  p = _txBuffer s \/ p = _rxBuffer s ->
  (forall blk, length (f blk) = length blk) ->
  handler_inv s ->
  handler_inv
    (set_mem (match p with Some a => alter f a (mem s) | None => mem s end) s).
Proof.
  intros Hp Hlen [Hpool Hbuf Hapart Hfree Hdesc Hsize].
  destruct p as [a0|]; [|by rewrite set_mem_same].
  split; try done.
  - apply pool_inv_write_outside; [|done]. intros a Ha.
    apply lookup_alter_ne. intros ->.
    apply (Hapart a); [|done]. destruct Hp as [<-|<-]; auto.
  - eapply buffers_kept_ok; [|done]. repeat split.
    intros a _ (blk & Hblk & Hl). unfold live. cbn [mem set_mem _bufferSize].
    destruct (decide (a0 = a)) as [->|Hne].
    + rewrite lookup_alter_eq, Hblk. simpl. eexists. split; [done|].
      by rewrite Hlen.
    + rewrite lookup_alter_ne by done. by exists blk.
Qed.

Lemma handler_inv_memset s p c n :
  p = _txBuffer s \/ p = _rxBuffer s -> handler_inv s ->
  handler_inv (set_mem (memset p c n (mem s)) s).
Proof.
  intros Hp. apply (handler_inv_store s p _ Hp).
  intros blk. apply length_store_bytes.
Qed.

Lemma handler_inv_memcpy s p src n :
  p = _txBuffer s \/ p = _rxBuffer s -> handler_inv s ->
  handler_inv (set_mem (memcpy p src n (mem s)) s).
Proof.
  intros Hp. apply (handler_inv_store s p _ Hp).
  intros blk. apply length_store_bytes.
Qed.

Lemma descriptor_ok_built s :
  descriptor_ok
    (set_transaction
       (Some {| length_bits := wrap32 (_bufferSize s * 8);
                trans_len := 0;
                tx_buffer := _txBuffer s;
                rx_buffer := _rxBuffer s |}) s).
Proof. intros t [= <-]. by repeat split. Qed.

Lemma handler_inv_init env sck miso mosi cs mode s :
  handler_inv s -> handler_inv (snd (init env sck miso mosi cs mode s)).
Proof.
  intros Hinv.
  destruct (init_engine_state env sck miso mosi cs mode s)
    as (Hm & Ht & Hr & Hb & _ & _ & _ & _ & _ & _ & _ & _ & _ & Hp & _).
  apply (handler_inv_same s); try done.
  unfold init. case_if; [apply Hinv|]. cbv zeta.
  case_if; [apply Hinv|].
  destruct (init_queue_loop _ _ _ _) as [[] d];
    cbn [snd]; intros t [= <-]; by repeat split.
Qed.

Lemma handler_inv_prepareDataToSend txData len s :
  handler_inv s -> handler_inv (snd (prepareDataToSend txData len s)).
Proof.
  intros Hinv. unfold prepareDataToSend. case_if; [done|].
  destruct txData as [bytes|]; [|done]. case_if; [done|]. cbv zeta.
  cbn [snd].
  apply (handler_inv_same
           (set_mem (memcpy (_txBuffer s) bytes len
                       (memset (_txBuffer s) 0 (_bufferSize s) (mem s)))
              s)); try done.
  - apply Hinv.
  - apply (handler_inv_memcpy
             (set_mem (memset (_txBuffer s) 0 (_bufferSize s) (mem s)) s));
      [by left|].
    apply handler_inv_memset; [by left | done].
Qed.

Lemma handler_inv_ensureTransactionQueued ret s :
  handler_inv s -> handler_inv (snd (ensureTransactionQueued ret s)).
Proof.
  intros Hinv. unfold ensureTransactionQueued. case_if; [done|].
  case_if; [|done]. cbv zeta.
  case_if; cbn [snd]; apply (handler_inv_same s); try done;
    intros t [= <-]; by repeat split.
Qed.

Lemma handler_inv_resetSPIInterface env s :
  handler_inv s -> handler_inv (snd (resetSPIInterface env s)).
Proof.
  intros Hinv. unfold resetSPIInterface.
  set (s1 := set_recoveryAttempts _ s).
  set (s2 := if _initialized s1 then _ else s1).
  assert (H2 : handler_inv s2).
  { subst s2. destruct (_initialized s1);
      apply (handler_inv_same s); try done; apply Hinv. }
  pose proof (handler_inv_init (re_init env) (_sckPin s2) (_misoPin s2)
                (_mosiPin s2) (_csPin s2) (_mode s2) s2 H2) as H3.
  destruct (init _ _ _ _ _ _ s2) as [[] s3]; cbn [snd] in *; [|done].
  apply handler_inv_prepareDataToSend.
  set (s4 := set_lastTransactionTime _ _).
  assert (H4 : handler_inv s4)
    by (apply (handler_inv_same s3); try done; apply H3).
  set (s5 := set_mem (memset (_txBuffer s4) _ _ _) s4).
  assert (H5 : handler_inv s5)
    by (apply handler_inv_memset; [by left | done]).
  set (s6 := set_mem (memset (_rxBuffer s5) _ _ _) s5).
  assert (H6 : handler_inv s6)
    by (apply handler_inv_memset; [by right | done]).
  destruct (re_drain_lock env);
    apply (handler_inv_same s6); try done; apply H6.
Qed.

Lemma handler_inv_watchdog env s :
  handler_inv s ->
  handler_inv (snd (checkAndRecoverFromStalledTransaction env s)).
Proof.
  intros Hinv. unfold checkAndRecoverFromStalledTransaction.
  repeat case_if; try done; try by apply handler_inv_resetSPIInterface.
  by apply handler_inv_ensureTransactionQueued.
Qed.

(** The completion callback keeps the invariant: it gives back the buffer
    it took. *)
Lemma handler_inv_onSpiTransaction env trans s :
  handler_inv s -> rx_buffer trans = _rxBuffer s ->
  trans_len trans / 8 <= _bufferSize s ->
  handler_inv (onSpiTransaction env trans s).
Proof.
  intros Hinv Hrx Hfits.
  destruct (hi_buffers s Hinv) as [_ (r & Hr & Hlive) _ _].
  rewrite Hr in Hrx.
  rewrite (onSpiTransaction_effect env trans s r (hi_pool s Hinv) Hrx Hlive
             Hfits).
  cbv zeta. case_if; [apply (handler_inv_same s); try done; apply Hinv|].
  assert (Hgen : forall X, handler_inv X -> mem X = mem s ->
            _rxBuffer X = _rxBuffer s -> _bufferSize X = _bufferSize s ->
            handler_inv
              (set_needsNewTransaction true
                 (set_dataReady false
                    (set_mem (memset (Some r) 0 (_bufferSize s) (mem s))
                       X)))).
  { intros X HX Em Er Eb.
    apply (handler_inv_same
             (set_mem (memset (Some r) 0 (_bufferSize s) (mem s)) X));
      try done.
    - apply handler_inv_memset
        with (s := X) (p := Some r) (c := 0) (n := _bufferSize s) in HX.
      + rewrite Em in HX. apply HX.
      + right. congruence.
    - rewrite <- Em, <- Eb. apply handler_inv_memset; [|done].
      right. congruence. }
  case_if; apply Hgen; try done;
    apply (handler_inv_same s); try done; apply Hinv.
Qed.

Lemma handler_inv_post_trans_cb env received s :
  handler_inv s -> handler_inv (post_trans_cb env received s).
Proof.
  intros Hinv. unfold post_trans_cb.
  destruct (_transaction s) as [t|] eqn:Ht; [|done].
  destruct (drv_installed (driver s)); [|done]. cbv zeta.
  destruct (hi_descriptor s Hinv t Ht) as (_ & Hrx & Hbits).
  apply handler_inv_onSpiTransaction.
  - apply handler_inv_memcpy; [by right | done].
  - done.
  - cbn [trans_len _bufferSize set_mem]. rewrite Hbits.
    rewrite (hi_size s Hinv). unfold SPI_BUFFER_SIZE.
    rewrite wrap32_small by done.
    apply Z.div_le_upper_bound; lia.
Qed.

Section Invariant.

Variable run_callback :
callback_id -> list Z -> Z -> SPISlaveHandler -> SPISlaveHandler.

(** The application's callbacks use the handler through its interface. *)
Hypothesis run_callback_inv :
forall cb bytes len s,
  handler_inv s -> handler_inv (run_callback cb bytes len s).

Lemma handler_inv_handleReceivedData lock bytes len s :
handler_inv s ->
handler_inv (handleReceivedData run_callback lock bytes len s).
Proof.
intros Hinv. unfold handleReceivedData.
destruct (_receiveCallback s); [by apply run_callback_inv|].
case_if; [|done]. destruct bytes as [|cmd rest]; [done|].
repeat case_if; try done. by apply handler_inv_prepareDataToSend.
Qed.

Lemma handler_inv_step ev s :
handler_inv s -> handler_inv (step run_callback ev s).
Proof.
intros Hinv. destruct ev; simpl.
- by apply handler_inv_init.
- by apply handler_inv_prepareDataToSend.
- unfold processNextReceive.
  destruct (_receiveQueue s) as [|packet rest]; [done|].
  case_if; [done|]. cbn [snd]. apply handler_inv_handleReceivedData.
  apply (handler_inv_same s); try done; apply Hinv.
- apply (handler_inv_same s); try done; apply Hinv.
- by apply handler_inv_ensureTransactionQueued.
- by apply handler_inv_watchdog.
- by apply handler_inv_resetSPIInterface.
- unfold post_setup_cb. case_if; [|done].
  apply (handler_inv_same s); try done; apply Hinv.
- by apply handler_inv_post_trans_cb.
Qed.

Lemma handler_inv_run evs s :
handler_inv s -> handler_inv (run run_callback evs s).
Proof.
revert s. induction evs as [|ev evs IH]; intros s Hinv; [done|].
simpl. by apply IH, handler_inv_step.
Qed.

End Invariant.

Lemma handler_inv_constructor env h0 :
  _txBuffer (constructor env h0) <> None ->
  _rxBuffer (constructor env h0) <> None ->
  handler_inv (constructor env h0).
Proof.
  intros Htx Hrx. split.
  - apply pool_inv_constructor.
  - by apply buffers_ok_constructor.
  - revert Htx Hrx. unfold constructor. cbv zeta.
    generalize SPI_BUFFER_SIZE. intros size.
    destruct (construct_pool _ _ _ _ _) as [pool h1] eqn:Hpool.
    destruct (heap_caps_malloc _ _ h1) as [tx h2] eqn:Htx.
    destruct (heap_caps_malloc _ _ h2) as [rx h3] eqn:Hrx.
    cbn [_txBuffer _rxBuffer _bufferPool]. intros Htx' Hrx'.
    destruct tx as [tx|]; [|done]. destruct rx as [rx|]; [|done].
    destruct (construct_pool_spec _ _ _ _ _ _ _ Hpool)
      as (_ & _ & Hblocks & _).
    destruct (heap_caps_malloc_fresh _ _ _ _ _ Htx) as [Ftx ->].
    destruct (heap_caps_malloc_fresh _ _ _ _ _ Hrx) as [Frx _].
    intros a Ha (b & Hb & Hd)%list_elem_of_omap.
    destruct (Hblocks b a Hb Hd) as [_ Hlive].
    destruct Ha as [[= <-]|[= <-]]; [congruence|].
    destruct (decide (tx = rx)) as [<-|Hne].
    + by rewrite lookup_insert_eq in Frx.
    + rewrite lookup_insert_ne in Frx by done. congruence.
  - unfold constructor. cbv zeta. generalize SPI_BUFFER_SIZE. intros size.
    destruct (construct_pool _ _ _ _ _) as [pool h1] eqn:Hpool.
    destruct (heap_caps_malloc _ _ h1) as [tx h2].
    destruct (heap_caps_malloc _ _ h2) as [rx h3].
    cbn [_bufferPool].
    by destruct (construct_pool_spec _ _ _ _ _ _ _ Hpool) as (_ & Hfree & _).
  - unfold constructor. cbv zeta.
    destruct (construct_pool _ _ _ _ _) as [pool h1].
    destruct (heap_caps_malloc _ _ h1) as [tx h2].
    by destruct (heap_caps_malloc _ _ h2) as [rx h3].
  - unfold constructor. cbv zeta.
    destruct (construct_pool _ _ _ _ _) as [pool h1].
    destruct (heap_caps_malloc _ _ h1) as [tx h2].
    by destruct (heap_caps_malloc _ _ h2) as [rx h3].
Qed.

(** X1: in every state the handler reaches from a constructor that got
    memory for both persistent buffers, whatever the events and their
    outcomes, the pool is in order and idle: its buffers are live, pairwise
    distinct, all free and zeroed; the two persistent buffers are live
    blocks of [_bufferSize] bytes that are no pool buffers; and the
    descriptor, once built, refers to them.  Callbacks of the application
    are taken to keep this. *)
Theorem handler_inv_reachable
    (run_callback : callback_id -> list Z -> Z -> SPISlaveHandler
                    -> SPISlaveHandler)
    env h0 evs :
  (forall cb bytes len s,
     handler_inv s -> handler_inv (run_callback cb bytes len s)) ->
  _txBuffer (constructor env h0) <> None ->
  _rxBuffer (constructor env h0) <> None ->
  handler_inv (run run_callback evs (constructor env h0)).
Proof.
  intros Hcb Htx Hrx. apply handler_inv_run; [done|].
  by apply handler_inv_constructor.
Qed.

Lemma handler_inv_reachable_witness :
  handler_inv
    (run (fun _ _ _ s => s)
       [EvInit Examples.init_ok (-1) (-1) (-1) (-1) SPI_MODE0;
        EvTransferStart;
        EvTransferDone (Examples.isr_quiet 5) Examples.ping;
        EvProcessNextReceive (mkProcessEnv true true);
        EvWatchdog (Examples.watchdog_env 7000)]
       (constructor Examples.ctor_env ∅)).
Proof.
  apply (handler_inv_reachable (fun _ _ _ s => s) Examples.ctor_env ∅).
  - intros _ _ _ s Hs. exact Hs.
  - vm_compute. discriminate.
  - vm_compute. discriminate.
Defined.

(** X2: a completion on a handler whose pool is in order leaves the pool
    exactly as it was, every flag included: the buffer it took is given
    back.  Memory is as before, except that the receive buffer is zeroed
    when the transfer carried at least one byte. *)
Theorem completion_leaves_pool_clean env trans s r :
  pool_inv s -> rx_buffer trans = Some r -> live r s ->
  trans_len trans / 8 <= _bufferSize s ->
  _bufferPool (onSpiTransaction env trans s) = _bufferPool s
  /\ mem (onSpiTransaction env trans s)
     = (if trans_len trans / 8 =? 0 then mem s
        else memset (Some r) 0 (_bufferSize s) (mem s)).
Proof.
  intros Hinv Hrx Hlive Hfits.
  rewrite (onSpiTransaction_effect env trans s r Hinv Hrx Hlive Hfits).
  cbv zeta. case_if; [done|]. by case_if.
Qed.

Lemma pool_inv_full : pool_inv Examples.full.
Proof.
  assert (H : handler_inv Examples.full);
    [|apply H].
  change Examples.full
    with (completions Examples.ten_quiet
            (snd (init Examples.init_ok (-1) (-1) (-1) (-1) SPI_MODE0
                    (constructor Examples.ctor_env ∅)))).
  assert (H0 : handler_inv
                 (snd (init Examples.init_ok (-1) (-1) (-1) (-1) SPI_MODE0
                         (constructor Examples.ctor_env ∅)))).
  { apply handler_inv_init, handler_inv_constructor;
      vm_compute; discriminate. }
  revert H0. generalize Examples.ten_quiet.
  generalize (snd (init Examples.init_ok (-1) (-1) (-1) (-1) SPI_MODE0
                     (constructor Examples.ctor_env ∅))).
  intros s evs. revert s.
  induction evs as [|[env received] evs IH]; intros s Hs; [done|].
  simpl. by apply IH, handler_inv_post_trans_cb.
Qed.

Lemma completion_leaves_pool_clean_witness :
  _bufferPool
    (onSpiTransaction (Examples.isr_quiet 20) (mkTrans 64768 40 (Some 7%N) (Some 8%N))
       Examples.full)
  = _bufferPool Examples.full.
Proof.
  apply (completion_leaves_pool_clean (Examples.isr_quiet 20)
           (mkTrans 64768 40 (Some 7%N) (Some 8%N)) Examples.full 8%N).
  - apply pool_inv_full.
  - reflexivity.
  - exists (replicate (Z.to_nat 8096) 0). split; vm_compute; reflexivity.
  - vm_compute. discriminate.
Defined.

(** ** From the wire to the callback *)

Lemma getBuffer_available o s :
  (exists b, b ∈ _bufferPool s /\ inUse b = false /\ data b <> None) ->
  fst (getBuffer o s) <> None.
Proof.
  intros (b & Hb & Hfree & Hd). unfold getBuffer.
  destruct (getBuffer_scan (_bufferPool s)) as [[p pool']|] eqn:Hscan.
  - simpl. by destruct (getBuffer_scan_found _ _ _ Hscan).
  - exfalso.
    pose proof (proj1 (getBuffer_scan_None _) Hscan b Hb Hd). congruence.
Qed.

(** A completed transfer of [received], with the queue below its maximum,
    the semaphore free and a pool buffer to be had, puts one packet at the
    back of the queue: exactly the bytes received. *)
Lemma post_trans_cb_enqueues env received s t :
  handler_inv s -> _transaction s = Some t ->
  drv_installed (driver s) = true ->
  0 < Z.of_nat (length received) <= _bufferSize s ->
  isr_count_lock env = true -> isr_push_lock env = true ->
  Z.of_nat (length (_receiveQueue s)) < _maxQueueSize ->
  (exists b, b ∈ _bufferPool s /\ data b <> None) ->
  post_trans_cb env received s
  = set_needsNewTransaction true
      (set_dataReady false
         (set_mem (memset (_rxBuffer s) 0 (_bufferSize s)
                     (memcpy (_rxBuffer s) received
                        (Z.of_nat (length received)) (mem s)))
            (set_receiveQueue
               (_receiveQueue s
                ++ [mkPacket received (Z.of_nat (length received)) false])
               (set_transactionCount (wrap32 (_transactionCount s + 1))
                  (set_transactionActive false
                     (set_lastTransactionTime (wrap32 (isr_millis env))
                        s)))))).
Proof.
  intros Hinv Ht Hdrv Hlen Hcount Hpush Hroom (b & Hb & Hd).
  unfold post_trans_cb. rewrite Ht, Hdrv. cbv zeta.
  destruct (hi_descriptor s Hinv t Ht) as (_ & Hrx & Hbits).
  pose proof (hi_size s Hinv) as Hsize.
  destruct (hi_buffers s Hinv) as [_ (r & Hr & rblk & Hrblk & Hrlen) _ _].
  set (n := Z.of_nat (length received)) in *.
  assert (Hmin : Z.min (8 * n) (length_bits t) = 8 * n).
  { rewrite Hbits, Hsize. unfold SPI_BUFFER_SIZE in *.
    rewrite wrap32_small by done. lia. }
  rewrite Hmin.
  assert (Hdiv : 8 * n / 8 = n) by (rewrite Z.mul_comm; by apply Z.div_mul).
  rewrite Hdiv, Hrx, Hr.
  set (s1 := set_mem (memcpy (Some r) received n (mem s)) s).
  assert (H1 : handler_inv s1)
    by (apply handler_inv_memcpy; [right; congruence | done]).
  assert (Hr1 : mem s1 !! r = Some (received ++ drop (length received) rblk)).
  { subst s1. cbn [mem set_mem]. rewrite memcpy_lookup, decide_True by done.
    rewrite Hrblk. simpl. f_equal. subst n. rewrite Nat2Z.id.
    rewrite firstn_all. apply store_bytes_prefix. lia. }
  rewrite (onSpiTransaction_effect env
             (mkTrans (length_bits t) (8 * n) (tx_buffer t) (Some r)) s1 r
             (hi_pool s1 H1) eq_refl).
  - cbn [trans_len rx_buffer]. rewrite Hdiv. cbv zeta.
    replace (n =? 0) with false by (symmetry; apply Z.eqb_neq; lia).
    rewrite Hcount, Hpush.
    replace (_maxQueueSize <=? pendingReceiveCount true s1) with false.
    2: { symmetry. apply Z.leb_gt. unfold pendingReceiveCount.
         subst s1. cbn [_receiveQueue set_mem].
         rewrite wrap32_small; [done|]. unfold _maxQueueSize in *. lia. }
    rewrite bool_decide_true.
    2: { apply getBuffer_available. exists b. split; [done|].
         split; [|done]. by apply (hi_free s Hinv). }
    cbn [negb andb].
    assert (Hpkt : new_SPIDataPacket (load (Some r) (mem s1)) n
                   = mkPacket received n false).
    { unfold new_SPIDataPacket. f_equal. cbn [load]. rewrite Hr1. simpl.
      subst n. rewrite Nat2Z.id. by rewrite take_app_length. }
    rewrite Hpkt. reflexivity.
  - exists (received ++ drop (length received) rblk). split; [done|].
    rewrite length_app, length_drop. subst s1. cbn [_bufferSize set_mem]. lia.
  - cbn [trans_len]. rewrite Hdiv. subst s1. cbn [_bufferSize set_mem]. lia.
Qed.

(** X3: what the driver received is what the application gets.  On a
    handler in order, with a callback registered, the queue empty, a
    descriptor built, a pool buffer to be had and the semaphore free, a
    completed transfer of [received] (at least one byte, at most
    [_bufferSize]) queues exactly one packet holding [received], and the
    next [processNextReceive] returns true, empties the queue and calls the
    callback with [received] and its length. *)
Theorem received_bytes_reach_callback
    (run_callback : callback_id -> list Z -> Z -> SPISlaveHandler
                    -> SPISlaveHandler)
    env penv received s t cb :
  handler_inv s -> _transaction s = Some t ->
  drv_installed (driver s) = true ->
  _receiveCallback s = Some cb -> _receiveQueue s = [] ->
  (exists b, b ∈ _bufferPool s /\ data b <> None) ->
  0 < Z.of_nat (length received) <= _bufferSize s ->
  isr_count_lock env = true -> isr_push_lock env = true ->
  pe_queue_lock penv = true ->
  let s' := post_trans_cb env received s in
  _receiveQueue s' = [mkPacket received (Z.of_nat (length received)) false]
  /\ processNextReceive run_callback penv s'
     = (true,
        run_callback cb received (Z.of_nat (length received))
          (set_receiveQueue [] s')).
Proof.
  intros Hinv Ht Hdrv Hcb Hq Hpool Hlen Hcount Hpush Hlock s'.
  assert (Hs' := post_trans_cb_enqueues env received s t Hinv Ht Hdrv Hlen
                   Hcount Hpush).
  rewrite Hq in Hs'. specialize (Hs' ltac:(done) Hpool). fold s' in Hs'.
  assert (Hq' : _receiveQueue s'
                = [mkPacket received (Z.of_nat (length received)) false])
    by (by rewrite Hs').
  assert (Hcb' : _receiveCallback s' = Some cb) by (by rewrite Hs').
  split; [done|].
  unfold processNextReceive. rewrite Hq', Hlock. cbn [negb].
  unfold handleReceivedData. cbn [_receiveCallback set_receiveQueue].
  by rewrite Hcb'.
Qed.

Lemma handler_inv_listening : handler_inv Scenes.listening.
Proof.
  apply handler_inv_run; [by intros|].
  apply handler_inv_constructor; vm_compute; discriminate.
Qed.

Lemma received_bytes_reach_callback_witness :
  _receiveQueue
    (post_trans_cb (Examples.isr_quiet 9) Examples.ping Scenes.listening)
  = [mkPacket Examples.ping (Z.of_nat (length Examples.ping)) false].
Proof.
  apply (received_bytes_reach_callback Scenes.idle_callback
           (Examples.isr_quiet 9) Scenes.process_ok Examples.ping
           Scenes.listening Scenes.descriptor 0%nat).
  - apply handler_inv_listening.
  - vm_compute. reflexivity.
  - vm_compute. reflexivity.
  - vm_compute. reflexivity.
  - vm_compute. reflexivity.
  - exists (mkBuffer (Some 1%N) false). split; [vm_compute; left | done].
  - vm_compute. split; [reflexivity | discriminate].
  - reflexivity.
  - reflexivity.
  - reflexivity.
Defined.

(** ** What the handler leaves alone *)

Lemma confined_refl s : confined s s.
Proof. by split. Qed.

Lemma confined_trans s1 s2 s3 :
  confined s1 s2 -> confined s2 s3 -> confined s1 s3.
Proof.
  intros [Ht Hr Hp Hm] [Ht' Hr' Hp' Hm']. split; try congruence.
  intros a Ha Hb. rewrite Hm' by congruence. by apply Hm.
Qed.

Lemma confined_same s s' :
  mem s' = mem s -> _bufferPool s' = _bufferPool s ->
  _txBuffer s' = _txBuffer s -> _rxBuffer s' = _rxBuffer s -> confined s s'.
Proof. intros Hm Hp Ht Hr. split; try done. intros. by rewrite Hm. Qed.

Lemma confined_memset s p c n :
  p = _txBuffer s \/ p = _rxBuffer s ->
  confined s (set_mem (memset p c n (mem s)) s).
Proof.
  intros Hp. split; try done. intros a Ht Hr. cbn [mem set_mem].
  rewrite memset_lookup, decide_False; [done|].
  destruct Hp; congruence.
Qed.

Lemma confined_memcpy s p src n :
  p = _txBuffer s \/ p = _rxBuffer s ->
  confined s (set_mem (memcpy p src n (mem s)) s).
Proof.
  intros Hp. split; try done. intros a Ht Hr. cbn [mem set_mem].
  rewrite memcpy_lookup, decide_False; [done|].
  destruct Hp; congruence.
Qed.

Lemma confined_init env sck miso mosi cs mode s :
  confined s (snd (init env sck miso mosi cs mode s)).
Proof.
  destruct (init_engine_state env sck miso mosi cs mode s)
    as (Hm & Ht & Hr & _ & _ & _ & _ & _ & _ & _ & _ & _ & _ & Hp & _).
  by apply confined_same.
Qed.

Lemma confined_prepareDataToSend txData len s :
  confined s (snd (prepareDataToSend txData len s)).
Proof.
  unfold prepareDataToSend. case_if; [apply confined_refl|].
  destruct txData as [bytes|]; [|apply confined_refl].
  case_if; [apply confined_refl|]. cbv zeta. cbn [snd].
  eapply confined_trans; [apply (confined_memset s (_txBuffer s)); by left|].
  eapply confined_trans; [apply confined_memcpy; by left|].
  by apply confined_same.
Qed.

Lemma confined_ensureTransactionQueued ret s :
  confined s (snd (ensureTransactionQueued ret s)).
Proof.
  unfold ensureTransactionQueued. repeat case_if; by apply confined_same.
Qed.

Lemma confined_resetSPIInterface env s :
  confined s (snd (resetSPIInterface env s)).
Proof.
  unfold resetSPIInterface.
  set (s1 := set_recoveryAttempts _ s).
  set (s2 := if _initialized s1 then _ else s1).
  assert (H2 : confined s s2).
  { subst s2. destruct (_initialized s1); by apply confined_same. }
  pose proof (confined_init (re_init env) (_sckPin s2) (_misoPin s2)
                (_mosiPin s2) (_csPin s2) (_mode s2) s2) as H3.
  destruct (init _ _ _ _ _ _ s2) as [[] s3]; cbn [snd] in *;
    [|by eapply confined_trans].
  eapply confined_trans; [exact H2|].
  eapply confined_trans; [exact H3|].
  eapply confined_trans; [|apply confined_prepareDataToSend].
  set (s4 := set_lastTransactionTime _ _).
  eapply (confined_trans _ s4); [by apply confined_same|].
  eapply confined_trans; [apply (confined_memset s4 (_txBuffer s4)); by left|].
  eapply confined_trans; [apply confined_memset; by right|].
  destruct (re_drain_lock env); by apply confined_same.
Qed.

Lemma confined_watchdog env s :
  confined s (snd (checkAndRecoverFromStalledTransaction env s)).
Proof.
  unfold checkAndRecoverFromStalledTransaction.
  repeat case_if; try apply confined_refl;
    try apply confined_resetSPIInterface.
  apply confined_ensureTransactionQueued.
Qed.

Lemma confined_post_trans_cb env received s :
  handler_inv s -> confined s (post_trans_cb env received s).
Proof.
  intros Hinv. unfold post_trans_cb.
  destruct (_transaction s) as [t|] eqn:Ht; [|apply confined_refl].
  destruct (drv_installed (driver s)); [|apply confined_refl]. cbv zeta.
  destruct (hi_descriptor s Hinv t Ht) as (_ & Hrx & Hbits).
  destruct (hi_buffers s Hinv) as [_ (r & Hr & Hlive) _ _].
  set (s1 := set_mem _ s).
  assert (H1 : handler_inv s1)
    by (apply handler_inv_memcpy; [by right | done]).
  assert (C1 : confined s s1) by (apply confined_memcpy; by right).
  eapply confined_trans; [exact C1|].
  assert (Hlive1 : live r s1).
  { destruct (hi_buffers s1 H1) as [_ (r' & Hr' & Hl) _ _].
    subst s1. cbn [_rxBuffer set_mem] in Hr'. congruence. }
  set (trans := mkTrans _ _ _ _).
  assert (Hfits : trans_len trans / 8 <= _bufferSize s1).
  { subst trans s1. cbn [trans_len _bufferSize set_mem]. rewrite Hbits.
    rewrite (hi_size s Hinv). unfold SPI_BUFFER_SIZE.
    rewrite wrap32_small by done. apply Z.div_le_upper_bound; lia. }
  rewrite (onSpiTransaction_effect env trans s1 r (hi_pool s1 H1)
             ltac:(subst trans; simpl; congruence) Hlive1 Hfits).
  cbv zeta. case_if; [by apply confined_same|].
  split.
  - by case_if.
  - by case_if.
  - by case_if.
  - intros a _ Hnot. cbn [mem set_needsNewTransaction set_dataReady set_mem].
    rewrite memset_lookup, decide_False; [done|].
    subst s1. cbn [_rxBuffer set_mem] in Hnot. congruence.
Qed.

Section Frame.

Variable run_callback :
callback_id -> list Z -> Z -> SPISlaveHandler -> SPISlaveHandler.

(** The application's callbacks use the handler through its interface. *)
Hypothesis run_callback_inv :
forall cb bytes len s,
  handler_inv s -> handler_inv (run_callback cb bytes len s).
Hypothesis run_callback_confined :
forall cb bytes len s,
  handler_inv s -> confined s (run_callback cb bytes len s).

Lemma confined_step ev s :
handler_inv s -> confined s (step run_callback ev s).
Proof.
intros Hinv. destruct ev; simpl.
- apply confined_init.
- apply confined_prepareDataToSend.
- unfold processNextReceive.
  destruct (_receiveQueue s) as [|packet rest]; [apply confined_refl|].
  case_if; [apply confined_refl|]. cbn [snd].
  eapply confined_trans; [apply (confined_same s (set_receiveQueue rest s));
                          reflexivity|].
  unfold handleReceivedData.
  destruct (_receiveCallback _).
  { apply run_callback_confined.
    apply (handler_inv_same s); try done; apply Hinv. }
  case_if; [|apply confined_refl].
  destruct (pkt_data packet) as [|cmd more]; [apply confined_refl|].
  repeat case_if; try apply confined_refl.
  apply confined_prepareDataToSend.
- by apply confined_same.
- apply confined_ensureTransactionQueued.
- apply confined_watchdog.
- apply confined_resetSPIInterface.
- unfold post_setup_cb. case_if; by apply confined_same.
- by apply confined_post_trans_cb.
Qed.

Lemma confined_run evs s :
handler_inv s -> confined s (run run_callback evs s).
Proof.
revert s. induction evs as [|ev evs IH]; intros s Hinv;
  [apply confined_refl|].
simpl. eapply confined_trans; [by apply confined_step|].
apply IH. by apply handler_inv_step.
Qed.

End Frame.

(** X4: the handler writes nowhere but into its two persistent buffers.
    Along every run of events from a state in order, the buffer pointers
    and the whole pool stay as they are, and every block of memory other
    than the transmit and the receive buffer, the pool buffers and the
    memory of the rest of the program included, holds in the end what it
    held at the start.  Callbacks of the application are taken to do
    likewise. *)
Theorem run_writes_only_persistent_buffers
    (run_callback : callback_id -> list Z -> Z -> SPISlaveHandler
                    -> SPISlaveHandler)
    evs s :
  (forall cb bytes len s,
     handler_inv s -> handler_inv (run_callback cb bytes len s)) ->
  (forall cb bytes len s,
     handler_inv s -> confined s (run_callback cb bytes len s)) ->
  handler_inv s ->
  _txBuffer (run run_callback evs s) = _txBuffer s
  /\ _rxBuffer (run run_callback evs s) = _rxBuffer s
  /\ _bufferPool (run run_callback evs s) = _bufferPool s
  /\ forall a, _txBuffer s <> Some a -> _rxBuffer s <> Some a ->
       mem (run run_callback evs s) !! a = mem s !! a.
Proof.
  intros Hinv Hconf Hs.
  by destruct (confined_run run_callback Hinv Hconf evs s Hs).
Qed.

Lemma run_writes_only_persistent_buffers_witness :
  _bufferPool
    (run Scenes.idle_callback
       [EvTransferDone (Examples.isr_quiet 9) Examples.ping;
        EvProcessNextReceive Scenes.process_ok;
        EvPrepareDataToSend (Some [1; 2; 3]) 3;
        EvReset (Examples.reset_ok true)]
       Scenes.listening)
  = _bufferPool Scenes.listening.
Proof.
  apply (run_writes_only_persistent_buffers Scenes.idle_callback
           [EvTransferDone (Examples.isr_quiet 9) Examples.ping;
            EvProcessNextReceive Scenes.process_ok;
            EvPrepareDataToSend (Some [1; 2; 3]) 3;
            EvReset (Examples.reset_ok true)]
           Scenes.listening).
  - by intros.
  - intros. apply confined_refl.
  - apply handler_inv_listening.
Defined.

(** ** Construction and destruction *)

Lemma destroy_pool_lookup (pool : list SPIBuffer) (h : heap) a :
  snd (destroy_pool pool h) !! a
  = if decide (a ∈ omap data pool) then None else h !! a.
Proof.
  revert h. induction pool as [|b pool IH]; intros h.
  { cbn [destroy_pool snd]. case_decide as H; [|done].
    by apply elem_of_nil in H. }
  cbn [destroy_pool].
  destruct (data b) as [a0|] eqn:Hd.
  - assert (Hcons : a ∈ omap data (b :: pool)
                    <-> a = a0 \/ a ∈ omap data pool).
    { csimpl. rewrite Hd. apply elem_of_cons. }
    pose proof (IH (heap_caps_free (Some a0) h)) as IH'.
    destruct (destroy_pool pool (heap_caps_free (Some a0) h)) as [rest h'].
    cbn [snd] in *. rewrite IH'. unfold heap_caps_free.
    destruct (decide (a = a0)) as [->|Hne].
    + rewrite lookup_delete_eq.
      rewrite (decide_True (P := a0 ∈ omap data (b :: pool)))
        by (apply Hcons; by left).
      by case_decide.
    + rewrite lookup_delete_ne by done.
      destruct (decide (a ∈ omap data pool)) as [Hin|Hout].
      * rewrite decide_True; [done|]. apply Hcons. by right.
      * rewrite decide_False; [done|]. rewrite Hcons. intros [?|?]; done.
  - assert (Hcons : a ∈ omap data (b :: pool) <-> a ∈ omap data pool).
    { csimpl. by rewrite Hd. }
    pose proof (IH h) as IH'.
    destruct (destroy_pool pool h) as [rest h'].
    cbn [snd] in *. rewrite IH'.
    destruct (decide (a ∈ omap data pool)) as [Hin|Hout].
    + rewrite decide_True; [done|]. by apply Hcons.
    + rewrite decide_False; [done|]. by rewrite Hcons.
Qed.

Lemma heap_caps_free_lookup_full p (h : heap) a :
  heap_caps_free p h !! a = if decide (p = Some a) then None else h !! a.
Proof.
  unfold heap_caps_free. destruct p as [a0|]; [|by rewrite decide_False].
  destruct (decide (Some a0 = Some a)) as [[= ->]|Hne].
  - apply lookup_delete_eq.
  - apply lookup_delete_ne. congruence.
Qed.

(** What the destructor leaves of memory: the blocks of the handler are
    gone, the others are as they were. *)
Lemma destructor_lookup s a :
  mem (destructor s) !! a
  = if decide (_txBuffer s = Some a \/ _rxBuffer s = Some a
               \/ a ∈ omap data (_bufferPool s))
    then None else mem s !! a.
Proof.
  unfold destructor.
  set (s1 := if _initialized s then _ else s).
  assert (E1 : mem s1 = mem s /\ _txBuffer s1 = _txBuffer s
               /\ _rxBuffer s1 = _rxBuffer s
               /\ _bufferPool s1 = _bufferPool s).
  { subst s1. by destruct (_initialized s). }
  destruct E1 as (Em & Et & Er & Ep). clearbody s1.
  set (s2 := match _txBuffer s1 with Some _ => _ | None => s1 end).
  assert (E2 : mem s2 = heap_caps_free (_txBuffer s) (mem s)
               /\ _rxBuffer s2 = _rxBuffer s
               /\ _bufferPool s2 = _bufferPool s).
  { subst s2. rewrite <- Et, <- Em, <- Er, <- Ep.
    by destruct (_txBuffer s1). }
  destruct E2 as (Em2 & Er2 & Ep2). clearbody s2.
  set (s3 := match _rxBuffer s2 with Some _ => _ | None => s2 end).
  assert (E3 : mem s3
               = heap_caps_free (_rxBuffer s)
                   (heap_caps_free (_txBuffer s) (mem s))
               /\ _bufferPool s3 = _bufferPool s).
  { subst s3. rewrite <- Em2, <- Er2, <- Ep2.
    by destruct (_rxBuffer s2). }
  destruct E3 as (Em3 & Ep3). clearbody s3.
  pose proof (destroy_pool_lookup (_bufferPool s3) (mem s3) a) as Hpool.
  destruct (destroy_pool (_bufferPool s3) (mem s3)) as [pool h].
  cbn [mem set_receiveQueue set_mem set_bufferPool snd] in *.
  rewrite Hpool, Ep3, Em3, !heap_caps_free_lookup_full.
  repeat case_decide; try done; exfalso; intuition congruence.
Qed.

Lemma construct_pool_frame env size n i (h : heap) pool h' a :
  construct_pool env size n i h = (pool, h') ->
  a ∉ omap data pool -> h' !! a = h !! a.
Proof.
  revert i h pool h'. induction n as [|n IH]; intros i h pool h'; simpl.
  { by intros [= <- <-]. }
  destruct (heap_caps_malloc (env i) size h) as [p h1] eqn:Hm.
  set (h2 := match p with Some _ => memset p 0 size h1 | None => h1 end).
  destruct (construct_pool env size n (S i) h2) as [rest h3] eqn:Hrest.
  intros [= <- <-] Hout. csimpl in Hout.
  destruct p as [a0|].
  - apply not_elem_of_cons in Hout as [Hne Hout].
    rewrite (IH _ _ _ _ Hrest Hout). subst h2.
    destruct (heap_caps_malloc_fresh _ _ _ _ _ Hm) as [_ ->].
    rewrite memset_lookup, decide_False by congruence.
    by rewrite lookup_insert_ne.
  - rewrite (IH _ _ _ _ Hrest Hout). subst h2.
    by rewrite (heap_caps_malloc_null _ _ _ _ Hm).
Qed.

(** The constructor only adds blocks that were not live, and leaves the
    others as they were. *)
Lemma constructor_lookup env h0 a :
  (_txBuffer (constructor env h0) = Some a
   \/ _rxBuffer (constructor env h0) = Some a
   \/ a ∈ omap data (_bufferPool (constructor env h0))) /\ h0 !! a = None
  \/ mem (constructor env h0) !! a = h0 !! a
     /\ ~ (_txBuffer (constructor env h0) = Some a
           \/ _rxBuffer (constructor env h0) = Some a
           \/ a ∈ omap data (_bufferPool (constructor env h0))).
Proof.
  unfold constructor. cbv zeta. generalize SPI_BUFFER_SIZE. intros size.
  destruct (construct_pool _ _ _ _ _) as [pool h1] eqn:Hpool.
  destruct (heap_caps_malloc _ _ h1) as [tx h2] eqn:Htx.
  destruct (heap_caps_malloc _ _ h2) as [rx h3] eqn:Hrx.
  cbn [_txBuffer _rxBuffer _bufferPool mem].
  destruct (construct_pool_spec _ _ _ _ _ _ _ Hpool)
    as (Hkeep & _ & Hblocks & _).
  assert (Hold : forall b, h1 !! b = None -> h0 !! b = None).
  { intros b Hb. destruct (h0 !! b) as [blk|] eqn:E; [|done].
    apply Hkeep in E. congruence. }
  destruct (decide (a ∈ omap data pool)) as [Hin|Hout].
  { left. split; [by right; right|].
    apply list_elem_of_omap in Hin as (b & Hb & Hd).
    by destruct (Hblocks b a Hb Hd). }
  assert (H2 : h2 !! a = if decide (tx = Some a) then h2 !! a else h1 !! a).
  { destruct (decide (tx = Some a)) as [Ht|Ht]; [done|].
    destruct tx as [t|].
    - destruct (heap_caps_malloc_fresh _ _ _ _ _ Htx) as [_ ->].
      rewrite lookup_insert_ne; [done|]. congruence.
    - by rewrite (heap_caps_malloc_null _ _ _ _ Htx). }
  assert (H3 : h3 !! a = if decide (rx = Some a) then h3 !! a else h2 !! a).
  { destruct (decide (rx = Some a)) as [Hr|Hr]; [done|].
    destruct rx as [r|].
    - destruct (heap_caps_malloc_fresh _ _ _ _ _ Hrx) as [_ ->].
      rewrite lookup_insert_ne; [done|]. congruence.
    - by rewrite (heap_caps_malloc_null _ _ _ _ Hrx). }
  destruct (decide (tx = Some a)) as [->|Ht].
  { left. split; [by left|].
    destruct (heap_caps_malloc_fresh _ _ _ _ _ Htx) as [Ftx _]. by apply Hold. }
  destruct (decide (rx = Some a)) as [->|Hr].
  { left. split; [by right; left|].
    destruct (heap_caps_malloc_fresh _ _ _ _ _ Hrx) as [Frx _].
    rewrite H2 in Frx. by apply Hold. }
  right. split.
  - rewrite !memset_lookup, !decide_False by done.
    rewrite H3, H2. by apply (construct_pool_frame _ _ _ _ _ _ _ _ Hpool).
  - intros [?|[?|?]]; done.
Qed.

(** X5: nothing leaks and nothing foreign is freed.  When the constructor
    got memory for both persistent buffers (it does not return otherwise),
    whatever the allocator answered for the pool, destroying the freshly
    constructed handler gives back the memory the constructor started
    from; and so does destroying the handler after any run of events
    (callbacks of the application being taken to keep the handler in order
    and to write only into its persistent buffers). *)
Theorem destructor_restores_memory
    (run_callback : callback_id -> list Z -> Z -> SPISlaveHandler
                    -> SPISlaveHandler)
    env h0 :
  _txBuffer (constructor env h0) <> None ->
  _rxBuffer (constructor env h0) <> None ->
  mem (destructor (constructor env h0)) = h0
  /\ ((forall cb bytes len s,
         handler_inv s -> handler_inv (run_callback cb bytes len s)) ->
      (forall cb bytes len s,
         handler_inv s -> confined s (run_callback cb bytes len s)) ->
      forall evs,
        mem (destructor (run run_callback evs (constructor env h0))) = h0).
Proof.
  intros Htx Hrx.
  assert (Hbase : forall s,
            confined (constructor env h0) s -> mem (destructor s) = h0).
  { intros s [Ht Hr Hp Hm]. apply map_eq. intros a.
    rewrite destructor_lookup, Ht, Hr, Hp.
    destruct (constructor_lookup env h0 a) as [[Hown Hfresh]|[Hsame Hnot]].
    - by rewrite decide_True.
    - rewrite decide_False by done. rewrite <- Hsame. apply Hm.
      + intros ?. apply Hnot. by left.
      + intros ?. apply Hnot. by right; left. }
  split.
  - apply Hbase, confined_refl.
  - intros Hinv Hconf evs. apply Hbase.
    apply confined_run; try done. by apply handler_inv_constructor.
Qed.

Lemma destructor_restores_memory_witness :
  mem (destructor
         (run Scenes.idle_callback
            [EvInit Examples.init_ok (-1) (-1) (-1) (-1) SPI_MODE0;
             EvPrepareDataToSend (Some [1; 2; 3]) 3;
             EvTransferDone (Examples.isr_quiet 9) Examples.ping]
            (constructor Examples.ctor_env ∅)))
  = ∅.
Proof.
  destruct (destructor_restores_memory Scenes.idle_callback
              Examples.ctor_env ∅) as [_ H].
  - vm_compute. discriminate.
  - vm_compute. discriminate.
  - apply H.
    + by intros.
    + intros. apply confined_refl.
Defined.

(** ** First in, first out *)

Lemma post_trans_cb_queue env received s :
  _receiveQueue (post_trans_cb env received s)
  = _receiveQueue s ++ added_by env received s.
Proof.
  unfold added_by, post_trans_cb.
  destruct (_transaction s) as [t|];
    [|by rewrite drop_all, app_nil_r].
  destruct (drv_installed (driver s)); [|by rewrite drop_all, app_nil_r].
  cbv zeta. set (s1 := set_mem _ s). set (trans := mkTrans _ _ _ _).
  change (_receiveQueue s) with (_receiveQueue s1).
  destruct (onSpiTransaction_queue env trans s1) as [->|(pkt & -> & _)].
  - by rewrite drop_all, app_nil_r.
  - by rewrite drop_app_length.
Qed.

Lemma processNextReceive_as_call
    (run_callback : callback_id -> list Z -> Z -> SPISlaveHandler
                    -> SPISlaveHandler)
    env s :
  processNextReceive run_callback env s
  = processNextReceive_with
      (fun bytes len s' =>
         (true,
          handleReceivedData run_callback (pe_status_lock env) bytes len s'))
      (fun s' => (false, s')) env s.
Proof.
  unfold processNextReceive, processNextReceive_with.
  destruct (_receiveQueue s) as [|packet rest]; [done|].
  by destruct (pe_queue_lock env).
Qed.

Section Fifo.

Variable run_callback :
callback_id -> list Z -> Z -> SPISlaveHandler -> SPISlaveHandler.

(** The queue is private to the handler; the callbacks considered here do
  not have it drained while they run. *)
Hypothesis run_callback_queue :
forall cb bytes len s,
  _receiveQueue (run_callback cb bytes len s) = _receiveQueue s.

Lemma handleReceivedData_queue lock bytes len s :
_receiveQueue (handleReceivedData run_callback lock bytes len s)
= _receiveQueue s.
Proof.
unfold handleReceivedData.
destruct (_receiveCallback s); [apply run_callback_queue|].
case_if; [|done]. destruct bytes as [|cmd rest]; [done|].
repeat case_if; try done. apply prepareDataToSend_receiveQueue.
Qed.

Lemma processNextReceive_queue env s :
packet_args (_receiveQueue s)
= taken_by env s
  ++ packet_args
       (_receiveQueue (snd (processNextReceive run_callback env s))).
Proof.
rewrite processNextReceive_as_call.
unfold taken_by, processNextReceive_with.
destruct (_receiveQueue s) as [|packet rest] eqn:Hq;
  [simpl; by rewrite Hq|].
destruct (pe_queue_lock env); cbn [negb fst snd];
  [|simpl; by rewrite Hq].
by rewrite handleReceivedData_queue.
Qed.

Lemma fifo_run evs s :
forallb (fun ev => negb (may_recover ev)) evs = true ->
packet_args (_receiveQueue s ++ arrived run_callback evs s)
= delivered run_callback evs s
  ++ packet_args (_receiveQueue (run run_callback evs s)).
Proof.
revert s. induction evs as [|ev evs IH]; intros s Hevs.
{ simpl. by rewrite app_nil_r. }
simpl in Hevs. apply andb_true_iff in Hevs as [Hev Hevs].
specialize (IH (step run_callback ev s) Hevs).
cbn [arrived delivered run].
destruct ev; try discriminate Hev; cbn [step] in *.
- rewrite init_receiveQueue in IH. exact IH.
- rewrite prepareDataToSend_receiveQueue in IH. exact IH.
- unfold packet_args in *. rewrite map_app in *.
  fold (packet_args (_receiveQueue s)).
  rewrite (processNextReceive_queue env s).
  unfold packet_args. rewrite <- !app_assoc. f_equal. exact IH.
- exact IH.
- rewrite ensureTransactionQueued_receiveQueue in IH. exact IH.
- unfold post_setup_cb in *. destruct (drv_installed (driver s)); exact IH.
- rewrite app_assoc, <- post_trans_cb_queue. exact IH.
Qed.

End Fifo.

(** X6: the receive queue is first in, first out, and loses nothing.
    [processNextReceive] is the code it is with the call of
    [handleReceivedData] plugged in, so that [taken_by] and [delivered]
    read the arguments of that call.  In every run of events without a
    recovery, with callbacks of the application that leave the queue as it
    is, the data and lengths of the packets that were queued at the start
    followed by those the completions queued, in the order of arrival, are
    exactly the arguments of the calls of [handleReceivedData], in the
    order of the calls, followed by the data and lengths of the packets
    still queued at the end. *)
Theorem receive_queue_is_fifo
    (run_callback : callback_id -> list Z -> Z -> SPISlaveHandler
                    -> SPISlaveHandler)
    evs s :
  (forall cb bytes len s,
     _receiveQueue (run_callback cb bytes len s) = _receiveQueue s) ->
  forallb (fun ev => negb (may_recover ev)) evs = true ->
  (forall env s',
     processNextReceive run_callback env s'
     = processNextReceive_with
         (fun bytes len s'' =>
            (true,
             handleReceivedData run_callback (pe_status_lock env) bytes len
               s''))
         (fun s'' => (false, s'')) env s')
  /\ packet_args (_receiveQueue s ++ arrived run_callback evs s)
     = delivered run_callback evs s
       ++ packet_args (_receiveQueue (run run_callback evs s)).
Proof.
  intros Hcb Hevs. split.
  - intros env s'. apply processNextReceive_as_call.
  - by apply fifo_run.
Qed.

Lemma receive_queue_is_fifo_witness :
  delivered Scenes.idle_callback
    [EvTransferDone (Examples.isr_quiet 9) [1; 1];
     EvTransferDone (Examples.isr_quiet 10) [2; 2];
     EvProcessNextReceive Scenes.process_ok;
     EvTransferDone (Examples.isr_quiet 11) [3; 3];
     EvProcessNextReceive Scenes.process_ok]
    Scenes.listening
  ++ packet_args
       (_receiveQueue
          (run Scenes.idle_callback
             [EvTransferDone (Examples.isr_quiet 9) [1; 1];
              EvTransferDone (Examples.isr_quiet 10) [2; 2];
              EvProcessNextReceive Scenes.process_ok;
              EvTransferDone (Examples.isr_quiet 11) [3; 3];
              EvProcessNextReceive Scenes.process_ok]
             Scenes.listening))
  = [([1; 1], 2); ([2; 2], 2); ([3; 3], 2)].
Proof.
  destruct (receive_queue_is_fifo Scenes.idle_callback
              [EvTransferDone (Examples.isr_quiet 9) [1; 1];
               EvTransferDone (Examples.isr_quiet 10) [2; 2];
               EvProcessNextReceive Scenes.process_ok;
               EvTransferDone (Examples.isr_quiet 11) [3; 3];
               EvProcessNextReceive Scenes.process_ok]
              Scenes.listening) as [_ H].
  - intros. reflexivity.
  - reflexivity.
  - rewrite <- H. vm_compute. reflexivity.
Defined.
(** ** The watchdog between start and completion *)

(** The fields the pool operations never touch. *)
Lemma getBuffer_frame o s :
  let s' := snd (getBuffer o s) in
  _initialized s' = _initialized s
  /\ _transactionTimeout s' = _transactionTimeout s
  /\ _transactionActive s' = _transactionActive s
  /\ _lastTransactionTime s' = _lastTransactionTime s
  /\ _recoveryAttempts s' = _recoveryAttempts s
  /\ _dataReady s' = _dataReady s
  /\ _needsNewTransaction s' = _needsNewTransaction s.
Proof.
  unfold getBuffer. destruct (getBuffer_scan _) as [[p pool']|]; [done|].
  by destruct (heap_caps_malloc _ _ _).
Qed.

Lemma returnBuffer_frame buffer s :
  let s' := returnBuffer buffer s in
  _initialized s' = _initialized s
  /\ _transactionTimeout s' = _transactionTimeout s
  /\ _transactionActive s' = _transactionActive s
  /\ _lastTransactionTime s' = _lastTransactionTime s
  /\ _recoveryAttempts s' = _recoveryAttempts s
  /\ _dataReady s' = _dataReady s
  /\ _needsNewTransaction s' = _needsNewTransaction s.
Proof. unfold returnBuffer. by destruct (returnBuffer_scan _ _). Qed.

(** What a completion does to the watchdog's state and to the flags,
    whatever becomes of the data. *)
Lemma onSpiTransaction_tracking env trans s :
  let s' := onSpiTransaction env trans s in
  _initialized s' = _initialized s
  /\ _transactionTimeout s' = _transactionTimeout s
  /\ _recoveryAttempts s' = _recoveryAttempts s
  /\ _transactionActive s' = false
  /\ _lastTransactionTime s' = wrap32 (isr_millis env)
  /\ (trans_len trans / 8 <> 0 ->
      _dataReady s' = false /\ _needsNewTransaction s' = true).
Proof.
  unfold onSpiTransaction. cbv zeta.
  set (s0 := set_transactionCount _ _).
  destruct (trans_len trans / 8 =? 0) eqn:Hz.
  { apply Z.eqb_eq in Hz. by repeat split. }
  cbn [_initialized _transactionTimeout _recoveryAttempts _transactionActive
       _lastTransactionTime _dataReady _needsNewTransaction
       set_needsNewTransaction set_dataReady set_mem].
  case_if; [|by repeat split].
  pose proof (getBuffer_frame (isr_alloc env) s0) as Hg.
  destruct (getBuffer _ s0) as [[a|] s1]; cbv zeta in Hg; cbn [snd] in Hg.
  - set (s2 := set_mem _ s1).
    pose proof (returnBuffer_frame (Some a) s2) as Hr. cbv zeta in Hr.
    destruct Hg as (G1 & G2 & G3 & G4 & G5 & _).
    destruct Hr as (R1 & R2 & R3 & R4 & R5 & _).
    destruct (isr_push_lock env);
      cbn [_initialized _transactionTimeout _recoveryAttempts
           _transactionActive _lastTransactionTime set_receiveQueue];
      rewrite R1, R2, R3, R4, R5; subst s2;
      cbn [_initialized _transactionTimeout _recoveryAttempts
           _transactionActive _lastTransactionTime set_mem];
      rewrite G1, G2, G3, G4, G5; by repeat split.
  - destruct Hg as (G1 & G2 & G3 & G4 & G5 & _).
    rewrite G1, G2, G3, G4, G5. by repeat split.
Qed.

(** The poll, case by case. *)
Lemma watchdog_table env s :
  _initialized s = true ->
  let elapsed := wrap32 (wrap32 (wd_millis env) - _lastTransactionTime s) in
  let due :=
    _transactionActive s && (_transactionTimeout s <? elapsed)
    || (wrap32 (_transactionTimeout s * 2) <? elapsed)
       && (0 <? _transactionCount s) in
  (due = true ->
   checkAndRecoverFromStalledTransaction env s
   = resetSPIInterface (wd_reset env) s
   /\ _recoveryAttempts (snd (checkAndRecoverFromStalledTransaction env s))
      = wrap32 (_recoveryAttempts s + 1))
  /\ (due = false ->
      checkAndRecoverFromStalledTransaction env s
      = (if _needsNewTransaction s
         then (true, snd (ensureTransactionQueued (wd_queue_trans env) s))
         else (false, s))
      /\ _recoveryAttempts
           (snd (checkAndRecoverFromStalledTransaction env s))
         = _recoveryAttempts s
      /\ _initialized (snd (checkAndRecoverFromStalledTransaction env s))
         = true).
Proof.
  intros Hinit elapsed due. subst due.
  unfold checkAndRecoverFromStalledTransaction. rewrite Hinit.
  cbn [negb andb]. fold elapsed.
  destruct (_transactionActive s && (_transactionTimeout s <? elapsed)).
  { split; [|done]. intros _. split; [done|].
    apply resetSPIInterface_counts. }
  cbn [orb].
  destruct ((wrap32 (_transactionTimeout s * 2) <? elapsed)
            && (0 <? _transactionCount s)).
  { split; [|done]. intros _. split; [done|].
    apply resetSPIInterface_counts. }
  split; [done|]. intros _. split; [done|].
  destruct (_needsNewTransaction s) eqn:Hneeds; [|done].
  cbn [snd]. unfold ensureTransactionQueued. rewrite Hinit, Hneeds.
  cbn [negb]. by destruct (negb _).
Qed.



(** X8: a completion quiets the watchdog for two timeouts.  Take the
    state [onSpiTransaction] leaves when it runs at time [t0] on an
    initialised handler, before the next transfer starts.  A poll of that
    state within [2 * _transactionTimeout] ms of [t0] runs no recovery,
    whatever the state was before the completion (a transfer marked active
    included); if the transfer carried at least one byte, such a poll
    submits the next descriptor instead and returns true, whether or not
    the driver accepts it.  A later poll of that state runs the recovery,
    as long as the 32-bit completion counter has not just wrapped to zero.
    (Once the next transfer has started, the shorter limit of one timeout
    applies.) *)
Theorem completion_quiets_watchdog ienv trans env s :
  _initialized s = true ->
  0 <= _transactionTimeout s -> _transactionTimeout s * 2 < 2 ^ 32 ->
  let s' := onSpiTransaction ienv trans s in
  let elapsed := wrap32 (wrap32 (wd_millis env) - wrap32 (isr_millis ienv)) in
  (elapsed <= 2 * _transactionTimeout s ->
   _recoveryAttempts (snd (checkAndRecoverFromStalledTransaction env s'))
   = _recoveryAttempts s
   /\ _initialized (snd (checkAndRecoverFromStalledTransaction env s'))
      = true
   /\ (trans_len trans / 8 <> 0 ->
       checkAndRecoverFromStalledTransaction env s'
       = (true, snd (ensureTransactionQueued (wd_queue_trans env) s'))))
  /\ (2 * _transactionTimeout s < elapsed ->
      0 <= _transactionCount s < 2 ^ 32 - 1 ->
      checkAndRecoverFromStalledTransaction env s'
      = resetSPIInterface (wd_reset env) s').
Proof.
  intros Hinit Hpos Hsmall s' elapsed.
  destruct (onSpiTransaction_tracking ienv trans s)
    as (Ti & Tt & Tr & Ta & Tl & Tf).
  pose proof (onSpiTransaction_counts ienv trans s) as Tc.
  fold s' in Ti, Tt, Tr, Ta, Tl, Tc, Tf.
  destruct (watchdog_table env s') as [Hdue Hquiet]; [congruence|].
  rewrite Ta, Tt, Tl, Tc, Tr in *. fold elapsed in Hdue, Hquiet.
  cbn [andb orb] in *.
  rewrite (wrap32_small (_transactionTimeout s * 2)) in * by lia.
  split.
  - intros Hearly. destruct Hquiet as (Hcheck & Hcount & Hstill).
    { replace (_transactionTimeout s * 2 <? elapsed) with false
        by (symmetry; lia).
      done. }
    split; [done|]. split; [done|].
    intros Hbytes. destruct (Tf Hbytes) as [_ Hneeds].
    by rewrite Hcheck, Hneeds.
  - intros Hlate Hcount. apply Hdue.
    replace (_transactionTimeout s * 2 <? elapsed) with true
      by (symmetry; lia).
    rewrite wrap32_small by lia.
    cbn [andb]. apply Z.ltb_lt. lia.
Qed.

Lemma completion_quiets_watchdog_witness :
  _recoveryAttempts
    (snd (checkAndRecoverFromStalledTransaction (Examples.watchdog_env 6020)
            (onSpiTransaction (Examples.isr_quiet 20) Scenes.descriptor
               (post_setup_cb Examples.full))))
  = _recoveryAttempts (post_setup_cb Examples.full).
Proof.
  destruct (completion_quiets_watchdog (Examples.isr_quiet 20)
              Scenes.descriptor (Examples.watchdog_env 6020)
              (post_setup_cb Examples.full)) as [H _].
  - vm_compute. reflexivity.
  - vm_compute. discriminate.
  - vm_compute. reflexivity.
  - destruct H as [H _]; [vm_compute; discriminate | exact H].
Defined.

(** ** Link silence *)

(** What writes the time stamp of the watchdog. *)
Lemma resetSPIInterface_stamp env s :
  _lastTransactionTime (snd (resetSPIInterface env s))
  = (if fst (resetSPIInterface env s) then wrap32 (re_millis env)
     else _lastTransactionTime s).
Proof.
  unfold resetSPIInterface.
  set (s1 := set_recoveryAttempts _ s).
  set (s2 := if _initialized s1 then _ else s1).
  assert (E2 : _lastTransactionTime s2 = _lastTransactionTime s).
  { subst s2. by destruct (_initialized s1). }
  pose proof (init_engine_state (re_init env) (_sckPin s2) (_misoPin s2)
                (_mosiPin s2) (_csPin s2) (_mode s2) s2) as E3.
  destruct (init _ _ _ _ _ _ s2) as [[] s3]; cbn [fst snd] in *.
  - unfold prepareDataToSend.
    destruct (re_drain_lock env); by repeat case_if.
  - destruct E3 as (_ & _ & _ & _ & _ & _ & _ & -> & _). done.
Qed.

Lemma stamp_kept_by_interface :
  (forall env sckPin misoPin mosiPin csPin mode s,
     _lastTransactionTime (snd (init env sckPin misoPin mosiPin csPin mode s))
     = _lastTransactionTime s)
  /\ (forall txData len s,
        _lastTransactionTime (snd (prepareDataToSend txData len s))
        = _lastTransactionTime s)
  /\ (forall ret s,
        _lastTransactionTime (snd (ensureTransactionQueued ret s))
        = _lastTransactionTime s)
  /\ (forall s, _lastTransactionTime (post_setup_cb s)
                = _lastTransactionTime s).
Proof.
  split; [|split; [|split]].
  - intros env sckPin misoPin mosiPin csPin mode s.
    by destruct (init_engine_state env sckPin misoPin mosiPin csPin mode s)
      as (_ & _ & _ & _ & _ & _ & _ & -> & _).
  - intros txData len s. unfold prepareDataToSend.
    case_if; [done|]. destruct txData; [|done]. by case_if.
  - intros ret s. unfold ensureTransactionQueued. by repeat case_if.
  - intros s. unfold post_setup_cb. by case_if.
Qed.

(** C3 (as the code has it): the silence is measured from the time stamp
    the handler keeps, [_lastTransactionTime], modulo 2^32 ms.  Every
    completion sets the stamp to the time it runs at, and so does every
    recovery that succeeds; [init], [prepareDataToSend],
    [ensureTransactionQueued], the start of a transfer and a recovery that
    fails leave it.  On an initialised handler with no transfer active, a
    poll that finds more than twice the timeout elapsed since the stamp and
    at least one completed transfer runs the recovery: it returns what
    [resetSPIInterface] returns and the recovery counter has gone up by
    one.  A poll that finds at most twice the timeout elapsed since the
    stamp runs no recovery, however long ago the last completion was.  With
    no completed transfer the poll never runs it, however long the
    silence: it only re-queues a descriptor if one is wanted, and the
    recovery counter stays as it was. *)
Theorem link_silence_recovery env s :
  _initialized s = true -> _transactionActive s = false ->
  0 <= _transactionTimeout s ->
  (2 * _transactionTimeout s
     < wrap32 (wrap32 (wd_millis env) - _lastTransactionTime s) ->
   1 <= _transactionCount s ->
   checkAndRecoverFromStalledTransaction env s
   = resetSPIInterface (wd_reset env) s
   /\ _recoveryAttempts
        (snd (checkAndRecoverFromStalledTransaction env s))
      = wrap32 (_recoveryAttempts s + 1))
  /\ (_transactionCount s = 0 ->
      checkAndRecoverFromStalledTransaction env s
      = (if _needsNewTransaction s
         then (true, snd (ensureTransactionQueued (wd_queue_trans env) s))
         else (false, s))
      /\ _recoveryAttempts
           (snd (checkAndRecoverFromStalledTransaction env s))
         = _recoveryAttempts s)
  /\ (wrap32 (wrap32 (wd_millis env) - _lastTransactionTime s)
      <= 2 * _transactionTimeout s ->
      2 * _transactionTimeout s < 2 ^ 32 ->
      checkAndRecoverFromStalledTransaction env s
      = (if _needsNewTransaction s
         then (true, snd (ensureTransactionQueued (wd_queue_trans env) s))
         else (false, s))
      /\ _recoveryAttempts
           (snd (checkAndRecoverFromStalledTransaction env s))
         = _recoveryAttempts s)
  /\ (forall ienv trans s0,
        _lastTransactionTime (onSpiTransaction ienv trans s0)
        = wrap32 (isr_millis ienv))
  /\ (forall renv s0,
        _lastTransactionTime (snd (resetSPIInterface renv s0))
        = (if fst (resetSPIInterface renv s0) then wrap32 (re_millis renv)
           else _lastTransactionTime s0))
  /\ (forall ienv sckPin misoPin mosiPin csPin mode s0,
        _lastTransactionTime
          (snd (init ienv sckPin misoPin mosiPin csPin mode s0))
        = _lastTransactionTime s0)
  /\ (forall txData len s0,
        _lastTransactionTime (snd (prepareDataToSend txData len s0))
        = _lastTransactionTime s0)
  /\ (forall ret s0,
        _lastTransactionTime (snd (ensureTransactionQueued ret s0))
        = _lastTransactionTime s0)
  /\ (forall s0, _lastTransactionTime (post_setup_cb s0)
                 = _lastTransactionTime s0).
Proof.
  intros Hinit Hidle Htimeout.
  destruct (watchdog_table env s Hinit) as [Hdue Hquiet].
  rewrite Hidle in Hdue, Hquiet. cbn [andb orb] in Hdue, Hquiet.
  set (elapsed := wrap32 (wrap32 (wd_millis env) - _lastTransactionTime s))
    in *.
  assert (Hel : 0 <= elapsed < 2 ^ 32) by apply wrap32_range.
  split; [|split; [|split; [|split; [|split]]]].
  - intros Hsilent Hcount. apply Hdue.
    rewrite (wrap32_small (_transactionTimeout s * 2)) by lia.
    apply andb_true_iff. split; [apply Z.ltb_lt | apply Z.ltb_lt]; lia.
  - intros Hcount. destruct Hquiet as (Hcheck & Hsame & _); [|done].
    rewrite Hcount. change (0 <? 0) with false. apply andb_false_r.
  - intros Hshort Hsmall. destruct Hquiet as (Hcheck & Hsame & _); [|done].
    rewrite (wrap32_small (_transactionTimeout s * 2)) by lia.
    replace (_transactionTimeout s * 2 <? elapsed) with false
      by (symmetry; lia).
    done.
  - intros ienv trans s0.
    by destruct (onSpiTransaction_tracking ienv trans s0)
      as (_ & _ & _ & _ & -> & _).
  - apply resetSPIInterface_stamp.
  - apply stamp_kept_by_interface.
Qed.

Lemma link_silence_recovery_witness :
  checkAndRecoverFromStalledTransaction (Examples.watchdog_env 6011)
    Examples.full
  = resetSPIInterface (Examples.reset_ok true) Examples.full
  /\ checkAndRecoverFromStalledTransaction (Examples.watchdog_env 4000000000)
       Examples.started
     = (false, Examples.started).
Proof.
  split.
  - destruct (link_silence_recovery (Examples.watchdog_env 6011)
                Examples.full) as ((H & _) & _).
    + vm_compute. reflexivity.
    + vm_compute. reflexivity.
    + vm_compute. discriminate.
    + vm_compute. reflexivity.
    + vm_compute. discriminate.
    + exact H.
  - destruct (link_silence_recovery (Examples.watchdog_env 4000000000)
                Examples.started) as (_ & H & _).
    + vm_compute. reflexivity.
    + vm_compute. reflexivity.
    + vm_compute. discriminate.
    + destruct H as [H _]; [vm_compute; reflexivity | exact H].
Defined.

(** C3 as stated fails: the stamp is also set by a successful recovery.  A
    transfer completes at 1000 ms; the poll at 7101 ms finds 6101 ms of
    silence and runs the recovery, which succeeds and sets the stamp to
    7201; no transfer completes afterwards.  At 13000 ms the handler is
    initialised with no transfer active, one transfer has completed and
    12000 ms, more than twice the timeout of 3000 ms, have elapsed since
    that completion; but the poll measures 5799 ms and runs no recovery:
    the recovery counter stays at 1, where a recovery would have made
    it 2. *)
Lemma link_silence_missed_after_recovery :
  let s1 :=
    post_trans_cb (Examples.isr_quiet 1000) Examples.ping Examples.started in
  let s2 :=
    snd (checkAndRecoverFromStalledTransaction
           (mkWatchdogEnv 7101 (mkResetEnv Examples.init_ok 7201 true)
              ESP_OK) s1) in
  let poll :=
    mkWatchdogEnv 13000 (mkResetEnv Examples.init_ok 13100 true) ESP_OK in
  _lastTransactionTime s1 = 1000 /\ _transactionCount s1 = 1
  /\ _recoveryAttempts s1 = 0 /\ _recoveryAttempts s2 = 1
  /\ _initialized s2 = true /\ _transactionActive s2 = false
  /\ _transactionCount s2 = 1
  /\ 2 * _transactionTimeout s2 < 13000 - 1000
  /\ _recoveryAttempts
       (snd (checkAndRecoverFromStalledTransaction poll s2)) = 1
  /\ _recoveryAttempts (snd (resetSPIInterface (wd_reset poll) s2)) = 2.
Proof. vm_compute. repeat split. Qed.

(** ** A recovery that fails *)

(** X9: a recovery that fails switches the handler off for good.  When
    [resetSPIInterface] returns false, the attempt is counted and the
    handler is left uninitialised with its memory, receive queue and staged
    length as they were (no beacon is staged); from then on every watchdog
    poll, [prepareDataToSend] and [ensureTransactionQueued] returns false
    and changes nothing, so the watchdog never tries again, and
    [isReadyToSend] is false. *)
Theorem failed_recovery_disables_handler env s s' :
  resetSPIInterface env s = (false, s') ->
  _initialized s' = false
  /\ _recoveryAttempts s' = wrap32 (_recoveryAttempts s + 1)
  /\ mem s' = mem s /\ _receiveQueue s' = _receiveQueue s
  /\ _txLength s' = _txLength s /\ _dataReady s' = _dataReady s
  /\ isReadyToSend s' = false
  /\ (forall wenv,
        checkAndRecoverFromStalledTransaction wenv s' = (false, s'))
  /\ (forall txData len, prepareDataToSend txData len s' = (false, s'))
  /\ (forall ret, ensureTransactionQueued ret s' = (false, s')).
Proof.
  unfold resetSPIInterface.
  set (s1 := set_recoveryAttempts _ s).
  set (s2 := if _initialized s1 then _ else s1).
  assert (E2 : same_engine_state s1 s2).
  { subst s2. destruct (_initialized s1); repeat split. }
  pose proof (init_engine_state (re_init env) (_sckPin s2) (_misoPin s2)
                (_mosiPin s2) (_csPin s2) (_mode s2) s2) as E3.
  pose proof (init_result_initialized (re_init env) (_sckPin s2)
                (_misoPin s2) (_mosiPin s2) (_csPin s2) (_mode s2) s2) as I3.
  destruct (init _ _ _ _ _ _ s2) as [[] s3]; cbn [fst snd] in E3, I3;
    cbv beta iota zeta; [intros [=]|].
  intros [= <-].
  destruct E2 as (Em2 & _ & _ & _ & El2 & Ed2 & _ & _ & _ & _ & _ & Er2
                  & Eq2 & _).
  destruct E3 as (Em3 & _ & _ & _ & El3 & Ed3 & _ & _ & _ & _ & _ & Er3
                  & Eq3 & _).
  split; [done|].
  split; [by rewrite Er3, Er2|].
  split; [by rewrite Em3, Em2|].
  split; [by rewrite Eq3, Eq2|].
  split; [by rewrite El3, El2|].
  split; [by rewrite Ed3, Ed2|].
  split; [unfold isReadyToSend; by rewrite I3|].
  split; [|split].
  - intros wenv. unfold checkAndRecoverFromStalledTransaction.
    by rewrite I3.
  - intros txData len. unfold prepareDataToSend. by rewrite I3.
  - intros ret. unfold ensureTransactionQueued. by rewrite I3.
Qed.

Lemma failed_recovery_disables_handler_witness :
  isReadyToSend (snd (resetSPIInterface Scenes.reset_failed Examples.full))
  = false
  /\ mem (snd (resetSPIInterface Scenes.reset_failed Examples.full))
     = mem Examples.full.
Proof.
  destruct (failed_recovery_disables_handler Scenes.reset_failed
              Examples.full
              (snd (resetSPIInterface Scenes.reset_failed Examples.full)))
    as (_ & _ & Hm & _ & _ & _ & Hr & _).
  - vm_compute. reflexivity.
  - split; [exact Hr | exact Hm].
Defined.

(** ** Staging twice *)

(** X10: the last payload staged wins.  On an initialised handler whose
    persistent buffers are in order, a second accepted [prepareDataToSend]
    leaves exactly the state that call alone would have left: nothing of a
    payload the master has not collected survives, and the call is not
    refused on its account. *)
Theorem staging_overwrites bytes1 len1 bytes2 len2 s :
  _initialized s = true -> buffers_ok s ->
  0 < len1 <= _bufferSize s -> 0 < len2 <= _bufferSize s ->
  fst (prepareDataToSend (Some bytes1) len1 s) = true
  /\ prepareDataToSend (Some bytes2) len2
       (snd (prepareDataToSend (Some bytes1) len1 s))
     = prepareDataToSend (Some bytes2) len2 s.
Proof.
  intros Hinit [(tx & Htx & blk & Hblk & Hlen) _ _ _] H1 H2.
  pose proof (prepareDataToSend_stages bytes1 len1 s tx blk Hinit H1 Htx
                Hblk Hlen) as E1.
  cbv zeta in E1. rewrite E1. cbn [fst snd]. split; [done|].
  set (blk1 := _ ++ _).
  set (s1 := set_dataReady true _).
  assert (Hlen1 : length blk1 = Z.to_nat (_bufferSize s1)).
  { subst blk1 s1. cbn [_bufferSize set_dataReady set_txLength set_mem].
    rewrite length_app, length_replicate, length_take. lia. }
  assert (Hblk1 : mem s1 !! tx = Some blk1) by apply lookup_insert_eq.
  pose proof (prepareDataToSend_stages bytes2 len2 s1 tx blk1 Hinit H2 Htx
                Hblk1 Hlen1) as E2.
  pose proof (prepareDataToSend_stages bytes2 len2 s tx blk Hinit H2 Htx
                Hblk Hlen) as E3.
  cbv zeta in E2, E3. rewrite E2, E3. f_equal.
  subst s1. clearbody blk1.
  cbn [_bufferSize set_dataReady set_txLength set_mem mem].
  rewrite insert_insert_eq. by destruct s.
Qed.

Lemma staging_overwrites_witness :
  prepareDataToSend (Some [9]) 1
    (snd (prepareDataToSend (Some [1; 2; 3]) 3 Examples.full))
  = prepareDataToSend (Some [9]) 1 Examples.full.
Proof.
  apply (staging_overwrites [1; 2; 3] 3 [9] 1 Examples.full).
  - vm_compute. reflexivity.
  - apply buffers_ok_full.
  - vm_compute. split; [reflexivity | discriminate].
  - vm_compute. split; [reflexivity | discriminate].
Defined.

(** ** A transfer seen from the transmit side *)

(** The state a completed transfer leaves, for a handler in order: the
    bytes land in the receive buffer and [onSpiTransaction] runs on them. *)
Lemma post_trans_cb_shape env received s t r :
  handler_inv s -> _transaction s = Some t ->
  drv_installed (driver s) = true -> _rxBuffer s = Some r ->
  let n := Z.min (8 * Z.of_nat (length received)) (length_bits t) / 8 in
  let s1 := set_mem (memcpy (Some r) received n (mem s)) s in
  let s0 :=
    set_transactionCount (wrap32 (_transactionCount s + 1))
      (set_transactionActive false
         (set_lastTransactionTime (wrap32 (isr_millis env)) s1)) in
  exists (pushed : bool) packet,
    post_trans_cb env received s
    = if n =? 0 then s0
      else
        set_needsNewTransaction true
          (set_dataReady false
             (set_mem (memset (Some r) 0 (_bufferSize s) (mem s1))
                (if pushed
                 then set_receiveQueue (_receiveQueue s ++ [packet]) s0
                 else s0))).
Proof.
  intros Hinv Ht Hdrv Hr n s1 s0.
  unfold post_trans_cb. rewrite Ht, Hdrv. cbv zeta.
  destruct (hi_descriptor s Hinv t Ht) as (_ & Hrx & Hbits).
  pose proof (hi_size s Hinv) as Hsize.
  destruct (hi_buffers s Hinv) as [_ (r' & Hr' & rblk & Hrblk & Hrlen) _ _].
  assert (r' = r) as -> by congruence.
  rewrite Hrx, Hr. fold n. fold s1.
  assert (H1 : handler_inv s1)
    by (apply handler_inv_memcpy; [right; congruence | done]).
  assert (Hn : n <= _bufferSize s).
  { subst n. rewrite Hbits, Hsize. unfold SPI_BUFFER_SIZE.
    rewrite wrap32_small by done. apply Z.div_le_upper_bound; lia. }
  eexists _, _.
  rewrite (onSpiTransaction_effect env
             (mkTrans (length_bits t)
                (Z.min (8 * Z.of_nat (length received)) (length_bits t))
                (tx_buffer t) (Some r)) s1 r (hi_pool s1 H1) eq_refl).
  - cbn [trans_len]. fold n. cbv zeta. reflexivity.
  - exists (store_bytes (take (Z.to_nat n) received) rblk).
    subst s1. cbn [mem set_mem _bufferSize].
    rewrite memcpy_lookup, decide_True by done. rewrite Hrblk.
    split; [done|]. by rewrite length_store_bytes.
  - cbn [trans_len]. fold n. done.
Qed.

(** A transfer that carried at least one byte is not an empty one. *)
Lemma completion_bytes_pos (received : list Z) s t :
  handler_inv s -> _transaction s = Some t -> received <> [] ->
  (Z.min (8 * Z.of_nat (length received)) (length_bits t) / 8 =? 0) = false.
Proof.
  intros Hinv Ht Hne.
  destruct (hi_descriptor s Hinv t Ht) as (_ & _ & Hbits).
  rewrite Hbits, (hi_size s Hinv). unfold SPI_BUFFER_SIZE.
  rewrite wrap32_small by done.
  destruct received as [|b rest]; [done|]. cbn [length].
  apply Z.eqb_neq.
  assert (0 < Z.min (8 * Z.of_nat (S (length rest))) (8096 * 8) / 8);
    [|lia].
  apply Z.div_str_pos. lia.
Qed.

(** X11: a staged payload outlives the transfer that sends it.  On an
    initialised handler in order, after an accepted [prepareDataToSend] the
    handler is not ready to send; once a transfer of at least one byte has
    completed it is ready again, yet the transmit buffer still holds the
    staged payload and [_txLength] its length: the completion clears only
    the receive buffer, so the next descriptor sends the same bytes again
    unless new ones are staged. *)
Theorem staged_payload_outlives_transfer bytes len env received s t tx :
  handler_inv s -> _initialized s = true -> _transaction s = Some t ->
  drv_installed (driver s) = true -> _txBuffer s = Some tx ->
  0 < len <= _bufferSize s -> received <> [] ->
  let staged := snd (prepareDataToSend (Some bytes) len s) in
  let after := post_trans_cb env received staged in
  let payload := take (Z.to_nat len) bytes in
  isReadyToSend staged = false
  /\ isReadyToSend after = true
  /\ mem after !! tx
     = Some (payload
             ++ replicate (Z.to_nat (_bufferSize s) - length payload) 0)
  /\ _txLength after = len.
Proof.
  intros Hinv Hinit Ht Hdrv Htx Hlen Hne staged after payload.
  destruct (hi_buffers s Hinv)
    as [(tx' & Htx' & blk & Hblk & Hblen) (r & Hr & _) Hapart _].
  assert (tx' = tx) as -> by congruence.
  pose proof (prepareDataToSend_stages bytes len s tx blk Hinit Hlen Htx
                Hblk Hblen) as E1.
  cbv zeta in E1. fold payload in E1.
  assert (Hinv' : handler_inv staged)
    by (by apply handler_inv_prepareDataToSend).
  assert (Est : staged
                = set_dataReady true
                    (set_txLength len
                       (set_mem
                          (<[tx := payload
                                   ++ replicate
                                        (Z.to_nat (_bufferSize s)
                                         - length payload) 0]> (mem s)) s)))
    by (subst staged; by rewrite E1).
  assert (Ht' : _transaction staged = Some t) by (by rewrite Est).
  assert (Hdrv' : drv_installed (driver staged) = true) by (by rewrite Est).
  assert (Hr' : _rxBuffer staged = Some r) by (by rewrite Est).
  assert (Hne' : Some r <> Some tx) by congruence.
  destruct (post_trans_cb_shape env received staged t r Hinv' Ht' Hdrv' Hr')
    as (pushed & packet & E).
  cbv zeta in E.
  rewrite (completion_bytes_pos received staged t Hinv' Ht' Hne) in E.
  fold after in E.
  split; [rewrite Est; unfold isReadyToSend; cbn; by rewrite Hinit|].
  rewrite E.
  split; [|split].
  - unfold isReadyToSend. rewrite Est.
    destruct pushed; cbn; by rewrite Hinit.
  - assert (Hm : forall X, mem X = memcpy (Some r) received
                   (Z.min (8 * Z.of_nat (length received)) (length_bits t)
                    / 8) (mem staged) ->
              mem (set_needsNewTransaction true
                     (set_dataReady false
                        (set_mem (memset (Some r) 0 (_bufferSize staged)
                                    (memcpy (Some r) received
                                       (Z.min
                                          (8 * Z.of_nat (length received))
                                          (length_bits t) / 8)
                                       (mem staged))) X))) !! tx
              = mem staged !! tx).
    { intros X _. cbn [mem set_needsNewTransaction set_dataReady set_mem].
      by rewrite memset_lookup, decide_False, memcpy_lookup, decide_False. }
    cbn [mem set_mem] in Hm |- *.
    destruct pushed.
    + rewrite Hm by done. rewrite Est. apply lookup_insert_eq.
    + rewrite Hm by done. rewrite Est. apply lookup_insert_eq.
  - rewrite Est. by destruct pushed.
Qed.

Lemma staged_payload_outlives_transfer_witness :
  isReadyToSend
    (post_trans_cb (Examples.isr_quiet 9) Examples.ping
       (snd (prepareDataToSend (Some [1; 2; 3]) 3 Scenes.listening)))
  = true.
Proof.
  apply (staged_payload_outlives_transfer [1; 2; 3] 3 (Examples.isr_quiet 9)
           Examples.ping Scenes.listening Scenes.descriptor 7%N).
  - apply handler_inv_listening.
  - vm_compute. reflexivity.
  - vm_compute. reflexivity.
  - vm_compute. reflexivity.
  - vm_compute. reflexivity.
  - vm_compute. split; [reflexivity | discriminate].
  - discriminate.
Defined.

(** ** Queueing the next descriptor *)

(** X12: one descriptor per completed transfer.  After a transfer of at
    least one byte has completed on an initialised handler in order,
    [ensureTransactionQueued] submits one descriptor over the whole of the
    two persistent buffers and returns true if the driver accepts it, and a
    further call then returns false and changes nothing; if the driver
    refuses, the call returns false, the driver is as before and the
    request stays pending, so that the next call submits again. *)
Theorem completion_then_requeue env received s t :
  handler_inv s -> _initialized s = true -> _transaction s = Some t ->
  drv_installed (driver s) = true -> received <> [] ->
  let s1 := post_trans_cb env received s in
  let queued := ensureTransactionQueued ESP_OK s1 in
  (fst queued = true
   /\ driver (snd queued) = mkDriver true (S (drv_queued (driver s)))
   /\ _transaction (snd queued)
      = Some (mkTrans (wrap32 (_bufferSize s * 8)) 0 (_txBuffer s)
                (_rxBuffer s))
   /\ forall ret, ensureTransactionQueued ret (snd queued)
                  = (false, snd queued))
  /\ (forall ret, ret <> ESP_OK ->
        let refused := ensureTransactionQueued ret s1 in
        fst refused = false /\ driver (snd refused) = driver s
        /\ fst (ensureTransactionQueued ESP_OK (snd refused)) = true).
Proof.
  intros Hinv Hinit Ht Hdrv Hne s1 queued.
  destruct (hi_buffers s Hinv) as [_ (r & Hr & _) _ _].
  destruct (post_trans_cb_shape env received s t r Hinv Ht Hdrv Hr)
    as (pushed & packet & E).
  cbv zeta in E.
  rewrite (completion_bytes_pos received s t Hinv Ht Hne) in E.
  fold s1 in E.
  assert (F : _initialized s1 = true /\ _needsNewTransaction s1 = true
              /\ driver s1 = driver s /\ _bufferSize s1 = _bufferSize s
              /\ _txBuffer s1 = _txBuffer s /\ _rxBuffer s1 = _rxBuffer s).
  { rewrite E. by destruct pushed. }
  destruct F as (Fi & Fn & Fd & Fb & Ft & Fr).
  clearbody s1. clear E.
  split.
  - subst queued. unfold ensureTransactionQueued. rewrite Fi, Fn.
    cbn [negb fst snd driver _transaction set_needsNewTransaction set_driver
         set_transaction _bufferSize _txBuffer _rxBuffer
         _needsNewTransaction _initialized Z.eqb ESP_OK].
    rewrite Fd, Fb, Ft, Fr. unfold spi_slave_queue_trans.
    cbn [Z.eqb ESP_OK]. rewrite Hdrv.
    split; [done|]. split; [done|]. split; [done|].
    intros ret. by rewrite Fi.
  - intros ret Hret refused. subst refused.
    unfold ensureTransactionQueued. rewrite Fi, Fn.
    assert (Hneq : (ret =? ESP_OK) = false) by (by apply Z.eqb_neq).
    cbn [negb]. unfold spi_slave_queue_trans. rewrite Hneq.
    cbn [negb fst snd driver set_driver set_transaction _initialized
         _needsNewTransaction].
    rewrite Fi, Fn. by cbn.
Qed.

Lemma completion_then_requeue_witness :
  fst (ensureTransactionQueued ESP_OK
         (post_trans_cb (Examples.isr_quiet 9) Examples.ping
            Scenes.listening))
  = true.
Proof.
  destruct (completion_then_requeue (Examples.isr_quiet 9) Examples.ping
              Scenes.listening Scenes.descriptor) as [(H & _) _].
  - apply handler_inv_listening.
  - vm_compute. reflexivity.
  - vm_compute. reflexivity.
  - vm_compute. reflexivity.
  - discriminate.
  - exact H.
Defined.

(** ** Packets nobody answers *)

Lemma handleReceivedData_ignores
    (run_callback : callback_id -> list Z -> Z -> SPISlaveHandler
                    -> SPISlaveHandler)
    lock bytes len s :
  _receiveCallback s = None ->
  len <= 0 \/ bytes !! 0%nat <> Some SPICommand.PING ->
  handleReceivedData run_callback lock bytes len s = s.
Proof.
  intros Hcb H. unfold handleReceivedData. rewrite Hcb.
  destruct (0 <? len) eqn:Hlen; [|done].
  destruct bytes as [|cmd rest]; [done|].
  destruct H as [H|H]; [apply Z.ltb_lt in Hlen; lia|].
  destruct (cmd <? 255); [|done].
  destruct (cmd =? SPICommand.PING) eqn:E.
  { apply Z.eqb_eq in E. subst cmd. by destruct H. }
  by repeat case_if.
Qed.

(** X13: without a callback only a PING is answered.  When no callback is
    registered and the front packet is empty or starts with any byte other
    than PING, a [processNextReceive] that obtains the semaphore returns
    true and does nothing but take the packet off the queue: no reply is
    staged and the packet is gone. *)
Theorem unanswered_packet_is_dropped
    (run_callback : callback_id -> list Z -> Z -> SPISlaveHandler
                    -> SPISlaveHandler)
    env s packet rest :
  _receiveQueue s = packet :: rest -> pe_queue_lock env = true ->
  _receiveCallback s = None ->
  pkt_length packet <= 0
  \/ pkt_data packet !! 0%nat <> Some SPICommand.PING ->
  processNextReceive run_callback env s = (true, set_receiveQueue rest s).
Proof.
  intros Hq Hlock Hcb Hpkt. unfold processNextReceive.
  rewrite Hq, Hlock. cbn [negb]. f_equal.
  by apply handleReceivedData_ignores.
Qed.

Lemma unanswered_packet_is_dropped_witness :
  processNextReceive Scenes.idle_callback Scenes.process_ok
    (post_trans_cb (Examples.isr_quiet 9) [0x20; 0; 0] Examples.started)
  = (true,
     set_receiveQueue []
       (post_trans_cb (Examples.isr_quiet 9) [0x20; 0; 0] Examples.started)).
Proof.
  apply (unanswered_packet_is_dropped Scenes.idle_callback Scenes.process_ok
           (post_trans_cb (Examples.isr_quiet 9) [0x20; 0; 0]
              Examples.started)
           (mkPacket [0x20; 0; 0] 3 false) []).
  - vm_compute. reflexivity.
  - reflexivity.
  - vm_compute. reflexivity.
  - right. discriminate.
Defined.

(** ** Starting the driver *)

(** X14: what a successful [init] leaves, and that it happens once.  On a
    handler that is not initialised, if the driver installs and accepts the
    three descriptors, [init] returns true and the handler is as before
    except for these fields: [_initialized] is set; the driver holds three
    submitted descriptors; the descriptor covers the whole of the two
    persistent buffers; the pins, with -1 replaced by the defaults of
    Config.h, and the mode are stored as bytes; and the bus and slave
    configuration are those built from them.  Every later [init], whatever
    its arguments and whatever the driver would answer, returns true and
    changes nothing. *)
Theorem init_succeeds_once env sckPin misoPin mosiPin csPin mode s :
  _initialized s = false -> ie_initialize env = ESP_OK ->
  (forall i, (i < 3)%nat -> ie_queue_trans env i = ESP_OK) ->
  let r := init env sckPin misoPin mosiPin csPin mode s in
  let sck := wrap8 (if sckPin =? -1 then 12 else sckPin) in
  let miso := wrap8 (if misoPin =? -1 then 13 else misoPin) in
  let mosi := wrap8 (if mosiPin =? -1 then 15 else mosiPin) in
  let cs := wrap8 (if csPin =? -1 then SPI_ESP32_SS else csPin) in
  fst r = true /\ _initialized (snd r) = true
  /\ driver (snd r) = mkDriver true 3
  /\ _transaction (snd r)
     = Some (mkTrans (wrap32 (_bufferSize s * 8)) 0 (_txBuffer s)
               (_rxBuffer s))
  /\ _sckPin (snd r) = sck /\ _misoPin (snd r) = miso
  /\ _mosiPin (snd r) = mosi /\ _csPin (snd r) = cs
  /\ _mode (snd r) = wrap8 mode
  /\ same_engine_state s (snd r)
  /\ (forall env' sckPin' misoPin' mosiPin' csPin' mode',
        init env' sckPin' misoPin' mosiPin' csPin' mode' (snd r)
        = (true, snd r))
  /\ snd r
     = set_initialized true
         (set_driver (mkDriver true 3)
            (set_transaction
               (Some (mkTrans (wrap32 (_bufferSize s * 8)) 0 (_txBuffer s)
                        (_rxBuffer s)))
               (set_slaveConfig
                  (Some {| spics_io_num := cs;
                           slave_flags := 0;
                           queue_size := 5;
                           slave_mode := wrap8 mode |})
                  (set_busConfig
                     (Some {| mosi_io_num := mosi;
                              miso_io_num := miso;
                              sclk_io_num := sck;
                              quadwp_io_num := -1;
                              quadhd_io_num := -1;
                              max_transfer_sz := _bufferSize s;
                              bus_flags := 0;
                              intr_flags := 0 |})
                     (set_csPin cs
                        (set_mosiPin mosi
                           (set_misoPin miso
                              (set_sckPin sck
                                 (set_mode (wrap8 mode) s))))))))).
Proof.
  intros Hinit Hok Hq r sck miso mosi cs.
  pose proof (init_engine_state env sckPin misoPin mosiPin csPin mode s)
    as Hengine. fold r in Hengine.
  assert (Hr : r = (true,
            set_initialized true
              (set_driver (mkDriver true 3)
                 (set_transaction
                    (Some (mkTrans (wrap32 (_bufferSize s * 8)) 0
                             (_txBuffer s) (_rxBuffer s)))
                    (set_slaveConfig
                       (Some {| spics_io_num := cs;
                                slave_flags := 0;
                                queue_size := 5;
                                slave_mode := wrap8 mode |})
                       (set_busConfig
                          (Some {| mosi_io_num := mosi;
                                   miso_io_num := miso;
                                   sclk_io_num := sck;
                                   quadwp_io_num := -1;
                                   quadhd_io_num := -1;
                                   max_transfer_sz := _bufferSize s;
                                   bus_flags := 0;
                                   intr_flags := 0 |})
                          (set_csPin cs
                             (set_mosiPin mosi
                                (set_misoPin miso
                                   (set_sckPin sck
                                      (set_mode (wrap8 mode) s))))))))))).
  { subst r. unfold init. rewrite Hinit. cbv zeta. rewrite Hok.
    cbn [negb Z.eqb ESP_OK init_queue_loop].
    rewrite (Hq 0%nat), (Hq 1%nat), (Hq 2%nat) by lia.
    cbn [negb Z.eqb ESP_OK]. reflexivity. }
  clearbody r. subst r. cbn [fst snd] in *.
  do 10 (split; [done|]). split; [|reflexivity].
  intros env' sckPin' misoPin' mosiPin' csPin' mode'. reflexivity.
Qed.

Lemma init_succeeds_once_witness :
  driver (snd (init Examples.init_ok (-1) (-1) (-1) (-1) SPI_MODE0
                 Examples.fresh))
  = mkDriver true 3.
Proof.
  destruct (init_succeeds_once Examples.init_ok (-1) (-1) (-1) (-1) SPI_MODE0
              Examples.fresh) as (_ & _ & H & _).
  - vm_compute. reflexivity.
  - reflexivity.
  - intros. reflexivity.
  - exact H.
Defined.

(** ** Flow control *)

Lemma constructor_receiveQueue env h0 :
  _receiveQueue (constructor env h0) = [].
Proof.
  unfold constructor. cbv zeta.
  destruct (construct_pool _ _ _ _ _) as [pool h].
  destruct (heap_caps_malloc (ce_tx env) _ _) as [tx h1].
  by destruct (heap_caps_malloc (ce_rx env) _ _) as [rx h2].
Qed.

(** X16: the flow-control figure stays in range.  From construction on,
    along every run of events in which each capacity check of a completion
    obtains the semaphore (callbacks of the application not adding to the
    queue), the receive queue never holds more than [_maxQueueSize]
    packets, and [getBufferStatus] answers ten times the number of queued
    packets when it obtains the semaphore and 0 when it does not: always a
    value between 0 and 100. *)
Theorem flow_control_in_range
    (run_callback : callback_id -> list Z -> Z -> SPISlaveHandler
                    -> SPISlaveHandler)
    env h0 evs lock :
  (forall cb bytes len s,
     (length (_receiveQueue (run_callback cb bytes len s))
      <= length (_receiveQueue s))%nat) ->
  count_locks_taken evs ->
  let s := run run_callback evs (constructor env h0) in
  Z.of_nat (length (_receiveQueue s)) <= _maxQueueSize
  /\ getBufferStatus lock s
     = (if lock then 10 * Z.of_nat (length (_receiveQueue s)) else 0)
  /\ 0 <= getBufferStatus lock s <= 100.
Proof.
  intros Hcb Hlocks s.
  assert (Hlen : Z.of_nat (length (_receiveQueue s)) <= _maxQueueSize).
  { apply receiveQueue_bounded_run; try done.
    rewrite constructor_receiveQueue. unfold _maxQueueSize. simpl. lia. }
  assert (Hstatus : getBufferStatus lock s
            = if lock then 10 * Z.of_nat (length (_receiveQueue s)) else 0).
  { unfold getBufferStatus, pendingReceiveCount, _maxQueueSize in *.
    destruct lock; [|done].
    set (n := Z.of_nat (length (_receiveQueue s))) in *.
    assert (0 <= n) by (subst n; lia).
    rewrite (wrap32_small n) by lia.
    rewrite wrap32_small by lia.
    replace (n * 100) with (10 * n * 10) by lia.
    rewrite Z.div_mul by done. apply wrap8_small. lia. }
  split; [done|]. split; [done|].
  rewrite Hstatus. unfold _maxQueueSize in Hlen. destruct lock; lia.
Qed.

Lemma flow_control_in_range_witness :
  getBufferStatus true
    (run Scenes.idle_callback
       [EvInit Examples.init_ok (-1) (-1) (-1) (-1) SPI_MODE0;
        EvTransferDone (Examples.isr_quiet 9) Examples.ping]
       (constructor Examples.ctor_env ∅))
  = 10 * Z.of_nat
           (length
              (_receiveQueue
                 (run Scenes.idle_callback
                    [EvInit Examples.init_ok (-1) (-1) (-1) (-1) SPI_MODE0;
                     EvTransferDone (Examples.isr_quiet 9) Examples.ping]
                    (constructor Examples.ctor_env ∅)))).
Proof.
  destruct (flow_control_in_range Scenes.idle_callback Examples.ctor_env ∅
              [EvInit Examples.init_ok (-1) (-1) (-1) (-1) SPI_MODE0;
               EvTransferDone (Examples.isr_quiet 9) Examples.ping]
              true) as (_ & H & _).
  - intros. unfold Scenes.idle_callback. lia.
  - intros e received Hin.
    apply elem_of_cons in Hin as [Hin|Hin]; [discriminate|].
    apply elem_of_cons in Hin as [Hin|Hin];
      [by injection Hin as -> _|].
    by apply elem_of_nil in Hin.
  - exact H.
Defined.

(** ** Transfers that leave nothing *)

(** X15: an empty transfer asks for nothing.  On a handler in order, a
    completed transfer in which no whole byte arrived is counted, stamps the
    time and clears the active mark, and that is all: memory, queue and
    flags are as before.  In particular no new descriptor is asked for, so
    [ensureTransactionQueued] after it does nothing unless a request was
    pending already. *)
Theorem empty_transfer_asks_for_nothing env s t :
  handler_inv s -> _transaction s = Some t ->
  drv_installed (driver s) = true ->
  let s' := post_trans_cb env [] s in
  s' = set_transactionCount (wrap32 (_transactionCount s + 1))
         (set_transactionActive false
            (set_lastTransactionTime (wrap32 (isr_millis env)) s))
  /\ (_needsNewTransaction s = false ->
      forall ret, ensureTransactionQueued ret s' = (false, s')).
Proof.
  intros Hinv Ht Hdrv s'.
  destruct (hi_buffers s Hinv) as [_ (r & Hr & rblk & Hrblk & Hrlen) _ _].
  destruct (post_trans_cb_shape env [] s t r Hinv Ht Hdrv Hr)
    as (pushed & packet & E).
  cbv zeta in E. fold s' in E.
  destruct (hi_descriptor s Hinv t Ht) as (_ & _ & Hbits).
  assert (Hn : Z.min (8 * Z.of_nat (length (@nil Z))) (length_bits t) / 8
               = 0).
  { rewrite Hbits, (hi_size s Hinv). unfold SPI_BUFFER_SIZE.
    by rewrite wrap32_small. }
  rewrite Hn in E. cbn [Z.eqb] in E.
  assert (Hmem : memcpy (Some r) [] 0 (mem s) = mem s).
  { apply map_eq. intros a. rewrite memcpy_lookup.
    case_decide as Ha; [|done]. injection Ha as <-. rewrite Hrblk.
    cbn [fmap option_fmap option_map]. f_equal.
    unfold store_bytes. cbn [take Z.to_nat length app drop].
    apply firstn_all. }
  rewrite Hmem, set_mem_same in E.
  split; [done|].
  intros Hneeds ret. rewrite E. unfold ensureTransactionQueued.
  cbn [_initialized _needsNewTransaction set_transactionCount
       set_transactionActive set_lastTransactionTime].
  rewrite Hneeds. by destruct (negb _).
Qed.

Lemma empty_transfer_asks_for_nothing_witness :
  ensureTransactionQueued ESP_OK
    (post_trans_cb (Examples.isr_quiet 9) [] Scenes.listening)
  = (false, post_trans_cb (Examples.isr_quiet 9) [] Scenes.listening).
Proof.
  destruct (empty_transfer_asks_for_nothing (Examples.isr_quiet 9)
              Scenes.listening Scenes.descriptor) as [_ H].
  - apply handler_inv_listening.
  - vm_compute. reflexivity.
  - vm_compute. reflexivity.
  - apply H. vm_compute. reflexivity.
Defined.

(** X17: what cannot be queued is lost.  On a handler whose pool is in
    order, a completion that carried at least one byte zeroes the receive
    buffer and asks for a new descriptor in every case.  The bytes are
    appended to the queue as one packet if the capacity check passes, a
    buffer is to be had and the semaphore is free at the push; if any of
    the three fails the queue is left as it was, so the bytes are gone
    without any trace but the completion count. *)
Theorem unqueued_transfer_is_lost env trans s r :
  pool_inv s -> rx_buffer trans = Some r -> live r s ->
  trans_len trans / 8 <> 0 -> trans_len trans / 8 <= _bufferSize s ->
  let s' := onSpiTransaction env trans s in
  zeroed r s' /\ _needsNewTransaction s' = true
  /\ _transactionCount s' = wrap32 (_transactionCount s + 1)
  /\ (_maxQueueSize <= pendingReceiveCount (isr_count_lock env) s
      \/ fst (getBuffer (isr_alloc env) s) = None
      \/ isr_push_lock env = false ->
      _receiveQueue s' = _receiveQueue s)
  /\ (pendingReceiveCount (isr_count_lock env) s < _maxQueueSize ->
      fst (getBuffer (isr_alloc env) s) <> None ->
      isr_push_lock env = true ->
      _receiveQueue s'
      = _receiveQueue s
        ++ [new_SPIDataPacket (load (Some r) (mem s))
              (trans_len trans / 8)]).
Proof.
  intros Hinv Hrx Hlive Hbytes Hfits s'.
  pose proof (onSpiTransaction_effect env trans s r Hinv Hrx Hlive Hfits)
    as E.
  cbv zeta in E. fold s' in E.
  apply Z.eqb_neq in Hbytes. rewrite Hbytes in E.
  destruct Hlive as (rblk & Hrblk & Hrlen).
  split; [|split; [|split; [|split]]].
  - unfold zeroed. rewrite E.
    assert (Hz : forall X, _bufferSize X = _bufferSize s ->
              mem (set_needsNewTransaction true
                     (set_dataReady false
                        (set_mem (memset (Some r) 0 (_bufferSize s) (mem s))
                           X))) !! r
              = Some (replicate
                        (Z.to_nat
                           (_bufferSize
                              (set_needsNewTransaction true
                                 (set_dataReady false
                                    (set_mem
                                       (memset (Some r) 0 (_bufferSize s)
                                          (mem s)) X))))) 0)).
    { intros X HX.
      cbn [mem _bufferSize set_needsNewTransaction set_dataReady set_mem].
      rewrite memset_lookup, decide_True, Hrblk, HX by done.
      cbn [fmap option_fmap option_map]. f_equal.
      apply store_bytes_whole. by rewrite length_replicate. }
    case_if; by apply Hz.
  - rewrite E. by case_if.
  - rewrite E. by case_if.
  - intros Hdrop. rewrite E.
    case_if; [|done]. exfalso.
    repeat match goal with
           | H : _ && _ = true |- _ => apply andb_true_iff in H as [? ?]
           end.
    destruct Hdrop as [Hfull|[Hnone|Hlock]].
    + apply Z.leb_le in Hfull.
      match goal with H : negb _ = true |- _ => rewrite Hfull in H end.
      done.
    + match goal with
      | H : bool_decide _ = true |- _ => apply bool_decide_eq_true in H
      end.
      done.
    + congruence.
  - intros Hroom Hbuffer Hlock. rewrite E.
    replace (_maxQueueSize <=? pendingReceiveCount (isr_count_lock env) s)
      with false by (symmetry; apply Z.leb_gt; lia).
    by rewrite bool_decide_true, Hlock.
Qed.

Lemma unqueued_transfer_is_lost_witness :
  _receiveQueue
    (onSpiTransaction (Examples.isr_quiet 20)
       (mkTrans 64768 40 (Some 7%N) (Some 8%N)) Examples.full)
  = _receiveQueue Examples.full.
Proof.
  destruct (unqueued_transfer_is_lost (Examples.isr_quiet 20)
              (mkTrans 64768 40 (Some 7%N) (Some 8%N)) Examples.full 8%N)
    as (_ & _ & _ & H & _).
  - apply pool_inv_full.
  - reflexivity.
  - exists (replicate (Z.to_nat 8096) 0). split; vm_compute; reflexivity.
  - vm_compute. discriminate.
  - vm_compute. discriminate.
  - apply H. left. vm_compute. discriminate.
Defined.

(** ** The logger *)

Lemma log_config now level message l :
  Utils._serialEnabled (Utils.log now level message l)
  = Utils._serialEnabled l
  /\ Utils._logLevel (Utils.log now level message l) = Utils._logLevel l.
Proof. unfold Utils.log. by repeat case_if. Qed.

Lemma substring_length m s : (String.length (String.substring 0 m s) <= m)%nat.
Proof.
  revert s. induction m as [|m IH]; intros [|c s]; simpl; try lia.
  specialize (IH s). lia.
Qed.

(** X18: the logger prints what is at or above its threshold, in order,
    and nothing else.  After any list of formatted logging calls, the lines
    on Serial are those that were there, followed by one line for each call
    whose level is not below [_logLevel], in the order of the calls, if
    Serial is enabled, and by nothing if it is not; each line is the time
    in decimal, the level's name in brackets and the first 255 characters
    at most of the message.  The threshold and the switch are unchanged. *)
Theorem log_prints_from_threshold calls l :
  Utils.serial_out (Utils.log_all calls l)
  = Utils.serial_out l
    ++ (if Utils._serialEnabled l
        then map Utils.line_of
               (filter
                  (fun c => Utils.level_value (Utils._logLevel l)
                            <= Utils.level_value (Utils.lc_level c))
                  calls)
        else [])
  /\ Utils._logLevel (Utils.log_all calls l) = Utils._logLevel l
  /\ Utils._serialEnabled (Utils.log_all calls l) = Utils._serialEnabled l
  /\ forall expanded,
       (String.length (Utils.formatString expanded) <= 255)%nat.
Proof.
  split; [|split; [|split]]; [| | |intros; apply substring_length].
  - revert l. induction calls as [|c calls IH]; intros l.
    { simpl. destruct (Utils._serialEnabled l); by rewrite app_nil_r. }
    cbn [Utils.log_all]. rewrite IH. unfold Utils.log_formatted.
    destruct (log_config (Utils.lc_now c) (Utils.lc_level c)
                (Utils.formatString (Utils.lc_expanded c)) l) as [-> ->].
    unfold Utils.log.
    destruct (Utils.level_value (Utils.lc_level c)
              <? Utils.level_value (Utils._logLevel l)) eqn:Hlow.
    + apply Z.ltb_lt in Hlow. rewrite filter_cons_False by lia. done.
    + apply Z.ltb_ge in Hlow. rewrite filter_cons_True by lia.
      destruct (Utils._serialEnabled l); [|done].
      cbn [Utils.serial_out map]. by rewrite <- app_assoc.
  - revert l. induction calls as [|c calls IH]; intros l; [done|].
    cbn [Utils.log_all]. rewrite IH. apply log_config.
  - revert l. induction calls as [|c calls IH]; intros l; [done|].
    cbn [Utils.log_all]. rewrite IH. apply log_config.
Qed.

(** ** What the destructor leaves *)

Lemma destroy_pool_null (pool : list SPIBuffer) (h : heap) :
  Forall (fun b => data b = None) (fst (destroy_pool pool h))
  /\ length (fst (destroy_pool pool h)) = length pool.
Proof.
  revert h. induction pool as [|b pool IH]; intros h; [by split|].
  cbn [destroy_pool].
  destruct (data b) as [a|] eqn:Hd.
  - destruct (IH (heap_caps_free (Some a) h)) as [Hnull Hlen].
    destruct (destroy_pool pool (heap_caps_free (Some a) h)) as [rest h'].
    cbn [fst length] in *. split; [|by rewrite Hlen].
    by apply Forall_cons.
  - destruct (IH h) as [Hnull Hlen].
    destruct (destroy_pool pool h) as [rest h'].
    cbn [fst length] in *. split; [|by rewrite Hlen].
    by apply Forall_cons.
Qed.

Lemma destructor_leaves s :
  _receiveQueue (destructor s) = []
  /\ Forall (fun b => data b = None) (_bufferPool (destructor s))
  /\ length (_bufferPool (destructor s)) = length (_bufferPool s)
  /\ driver (destructor s)
     = (if _initialized s then mkDriver false 0 else driver s).
Proof.
  unfold destructor.
  set (s1 := if _initialized s then _ else s).
  assert (E1 : _bufferPool s1 = _bufferPool s
               /\ driver s1
                  = if _initialized s then mkDriver false 0 else driver s).
  { subst s1. by destruct (_initialized s). }
  destruct E1 as (Ep & Ed). clearbody s1.
  set (s2 := match _txBuffer s1 with Some _ => _ | None => s1 end).
  assert (E2 : _bufferPool s2 = _bufferPool s1 /\ driver s2 = driver s1).
  { subst s2. by destruct (_txBuffer s1). }
  destruct E2 as (Ep2 & Ed2). clearbody s2.
  set (s3 := match _rxBuffer s2 with Some _ => _ | None => s2 end).
  assert (E3 : _bufferPool s3 = _bufferPool s2 /\ driver s3 = driver s2).
  { subst s3. by destruct (_rxBuffer s2). }
  destruct E3 as (Ep3 & Ed3). clearbody s3.
  destruct (destroy_pool_null (_bufferPool s3) (mem s3)) as [Hnull Hlen].
  destruct (destroy_pool (_bufferPool s3) (mem s3)) as [pool h].
  cbn [fst _receiveQueue _bufferPool driver set_receiveQueue set_mem
       set_bufferPool] in *.
  split; [apply drain_queue_empty|]. split; [done|].
  split; congruence.
Qed.

(** X19: the destructor releases the driver only of an initialised
    handler.  Destroying a handler leaves the receive queue empty and every
    pool entry without a buffer, and frees the driver exactly when
    [_initialized] is set.  So when [init] has started the driver and then
    failed on the refusal of one of the first three descriptors, the
    handler is destroyed with the driver still installed. *)
Theorem destructor_releases_driver_if_initialized s :
  (_receiveQueue (destructor s) = []
   /\ Forall (fun b => data b = None) (_bufferPool (destructor s))
   /\ driver (destructor s)
      = (if _initialized s then mkDriver false 0 else driver s))
  /\ forall env sckPin misoPin mosiPin csPin mode,
       _initialized s = false -> ie_initialize env = ESP_OK ->
       (exists k, (k < 3)%nat /\ ie_queue_trans env k <> ESP_OK) ->
       drv_installed
         (driver
            (destructor (snd (init env sckPin misoPin mosiPin csPin mode s))))
       = true.
Proof.
  split.
  { destruct (destructor_leaves s) as (Hq & Hnull & _ & Hd). done. }
  intros env sckPin misoPin mosiPin csPin mode Hinit Hstart
         (k & Hk & Hrefused).
  destruct (destructor_leaves
              (snd (init env sckPin misoPin mosiPin csPin mode s)))
    as (_ & _ & _ & ->).
  rewrite init_result_initialized.
  assert (Hret : fst (init env sckPin misoPin mosiPin csPin mode s) = false).
  { unfold init. rewrite Hinit, Hstart. cbv zeta. simpl negb. cbv iota.
    match goal with
    | |- context [init_queue_loop ?q ?n ?i ?d] =>
        pose proof (init_queue_loop_refused q n i d) as Hloop;
        destruct (init_queue_loop q n i d) as [queued d']
    end.
    simpl in Hloop. rewrite Hloop; [done|]. exists k. split; [lia|done]. }
  rewrite Hret.
  unfold init. rewrite Hinit, Hstart. cbv zeta. simpl negb. cbv iota.
  match goal with
  | |- context [init_queue_loop ?q ?n ?i ?d] =>
      pose proof (init_queue_loop_installed q n i d) as Hdrv;
      destruct (init_queue_loop q n i d) as [[] d']
  end; simpl in Hdrv; done.
Qed.

Lemma destructor_releases_driver_if_initialized_witness :
  drv_installed
    (driver
       (destructor
          (snd (init Examples.init_refused (-1) (-1) (-1) (-1) SPI_MODE0
                  Examples.fresh))))
  = true.
Proof.
  destruct (destructor_releases_driver_if_initialized Examples.fresh)
    as [_ H].
  apply H.
  - vm_compute. reflexivity.
  - reflexivity.
  - exists 1%nat. split; [lia | vm_compute; discriminate].
Defined.

(** ** Recovery and the stored configuration *)

Lemma init_queue_loop_all q n i d d' :
  init_queue_loop q n i d = (true, d') ->
  d' = mkDriver (drv_installed d) (drv_queued d + n).
Proof.
  revert i d. induction n as [|n IH]; intros i d.
  { simpl. intros [= <-]. destruct d. simpl. f_equal. lia. }
  simpl. unfold spi_slave_queue_trans.
  destruct (q i =? ESP_OK); simpl; [|discriminate].
  intros H. rewrite (IH _ _ H). simpl. f_equal. lia.
Qed.

Lemma choose_pin_byte pin default_pin :
  0 <= pin < 256 -> choose_pin pin default_pin = pin.
Proof.
  intros Hpin. unfold choose_pin.
  replace (pin =? -1) with false by (symmetry; apply Z.eqb_neq; lia).
  by apply wrap8_small.
Qed.

(** What [init] stores on a handler that is not initialised, and what a
    true result means. *)
Lemma init_stores env sckPin misoPin mosiPin csPin mode s :
  _initialized s = false ->
  let r := init env sckPin misoPin mosiPin csPin mode s in
  _sckPin (snd r) = choose_pin sckPin SPI_SCK_PIN
  /\ _misoPin (snd r) = choose_pin misoPin SPI_MISO_PIN
  /\ _mosiPin (snd r) = choose_pin mosiPin SPI_MOSI_PIN
  /\ _csPin (snd r) = choose_pin csPin SPI_ESP32_SS
  /\ _mode (snd r) = wrap8 mode
  /\ (fst r = true -> driver (snd r) = mkDriver true 3).
Proof.
  intros Hinit r. subst r. unfold init. rewrite Hinit. cbv zeta.
  destruct (ie_initialize env =? ESP_OK) eqn:Hok; cbn [negb];
    [|by repeat split].
  match goal with
  | |- context [init_queue_loop ?q ?n ?i ?d] =>
      pose proof (init_queue_loop_all q n i d) as Hloop;
      destruct (init_queue_loop q n i d) as [[] d']
  end; [|by repeat split].
  specialize (Hloop d' eq_refl).
  unfold spi_slave_initialize in Hloop. rewrite Hok in Hloop.
  cbn [drv_installed drv_queued driver set_driver set_transaction] in Hloop.
  by repeat split.
Qed.

(** X20: a recovery reinstalls the driver with the configuration in use.
    When the stored pins and mode are bytes, as [init] stores them,
    [resetSPIInterface] leaves them as they are whether it succeeds or not:
    it never falls back to the defaults of Config.h.  If it returns true
    the handler is initialised and the driver holds three freshly
    submitted descriptors; if it returns false the handler is not
    initialised. *)
Theorem recovery_keeps_configuration env s :
  0 <= _sckPin s < 256 -> 0 <= _misoPin s < 256 ->
  0 <= _mosiPin s < 256 -> 0 <= _csPin s < 256 -> 0 <= _mode s < 256 ->
  let r := resetSPIInterface env s in
  _sckPin (snd r) = _sckPin s /\ _misoPin (snd r) = _misoPin s
  /\ _mosiPin (snd r) = _mosiPin s /\ _csPin (snd r) = _csPin s
  /\ _mode (snd r) = _mode s
  /\ _initialized (snd r) = fst r
  /\ (fst r = true -> driver (snd r) = mkDriver true 3).
Proof.
  intros Hsck Hmiso Hmosi Hcs Hmode r. subst r.
  unfold resetSPIInterface.
  set (s1 := set_recoveryAttempts _ s).
  set (s2 := if _initialized s1 then _ else s1).
  assert (E2 : _initialized s2 = false /\ _sckPin s2 = _sckPin s
               /\ _misoPin s2 = _misoPin s /\ _mosiPin s2 = _mosiPin s
               /\ _csPin s2 = _csPin s /\ _mode s2 = _mode s).
  { subst s2. destruct (_initialized s1) eqn:Hi; by repeat split. }
  destruct E2 as (Hi2 & P1 & P2 & P3 & P4 & P5). clearbody s2.
  rewrite P1, P2, P3, P4, P5.
  pose proof (init_stores (re_init env) (_sckPin s) (_misoPin s)
                (_mosiPin s) (_csPin s) (_mode s) s2 Hi2) as Hst.
  pose proof (init_result_initialized (re_init env) (_sckPin s)
                (_misoPin s) (_mosiPin s) (_csPin s) (_mode s) s2) as Hri.
  cbv zeta in Hst.
  rewrite !choose_pin_byte, wrap8_small in Hst by done.
  destruct (init _ _ _ _ _ _ s2) as [[] s3]; cbn [fst snd] in *;
    [|destruct Hst as (? & ? & ? & ? & ? & ?); by repeat split].
  destruct Hst as (Q1 & Q2 & Q3 & Q4 & Q5 & Qd).
  specialize (Qd eq_refl).
  match goal with
  | |- context [prepareDataToSend ?d ?l ?x] =>
      assert (F : forall X,
                _sckPin (snd (prepareDataToSend d l X)) = _sckPin X
                /\ _misoPin (snd (prepareDataToSend d l X)) = _misoPin X
                /\ _mosiPin (snd (prepareDataToSend d l X)) = _mosiPin X
                /\ _csPin (snd (prepareDataToSend d l X)) = _csPin X
                /\ _mode (snd (prepareDataToSend d l X)) = _mode X
                /\ _initialized (snd (prepareDataToSend d l X))
                   = _initialized X
                /\ driver (snd (prepareDataToSend d l X)) = driver X);
      [intros X; unfold prepareDataToSend; by repeat case_if|];
      destruct (F x) as (-> & -> & -> & -> & -> & -> & ->)
  end.
  by destruct (re_drain_lock env).
Qed.

Lemma recovery_keeps_configuration_witness :
  _sckPin (snd (resetSPIInterface (Examples.reset_ok true) Examples.full))
  = _sckPin Examples.full.
Proof.
  destruct (recovery_keeps_configuration (Examples.reset_ok true)
              Examples.full) as (H & _).
  - vm_compute. split; [discriminate | reflexivity].
  - vm_compute. split; [discriminate | reflexivity].
  - vm_compute. split; [discriminate | reflexivity].
  - vm_compute. split; [discriminate | reflexivity].
  - vm_compute. split; [discriminate | reflexivity].
  - exact H.
Defined.

